(** * The agent processor of bytebot-agent (agent.processor.ts)

    A shallow embedding of [AgentProcessor]: the processor's fields are a
    record, its methods are programs of a small state / exception / trace
    monad, and every collaborator it awaits (task, message and summary
    stores, the provider services, the desktop tool handler, input capture)
    is an oracle of the [World] an operation runs in.

    Granularity: JavaScript runs the handlers on one thread.  An operation
    (a method call, one iteration, a timer callback) is modelled as running
    to completion in the world it is given; the calls it makes appear, in
    order, in the trace it returns, and what an awaited call answers, or
    throws, is up to the world (within one operation, a call with the same
    arguments is answered the same way).  Other handlers running while an
    operation waits are not modelled.  Logger calls are left out.

    Numbers: token counts and context windows are integers (the descriptor's
    [contextWindow] is an int), on which [contextWindow * 0.75] is exact; the
    comparison [totalTokens >= contextWindow * 0.75] is carried out as
    [3 * contextWindow <= 4 * totalTokens].

    Task ids are identifiers generated by the task store; the three per-task
    records are finite maps on them.  The provider tag, by contrast, is read
    from persisted JSON, so the lookup in [services] accounts for the
    properties a plain object inherits. *)

From Stdlib Require Import ZArith String Ascii List Bool Lia.
From stdpp Require Import base option list gmap strings.

Set Warnings "-register-all".
Local Open Scope string_scope.
Local Open Scope list_scope.

(** ** Strings *)

(** [s.startsWith(p)] *)
Definition startsWith (s p : string) : bool := String.prefix p s.

(** [s.includes(sub)] *)
Fixpoint includes (s sub : string) : bool :=
  String.prefix sub s ||
  match s with
  | EmptyString => false
  | String _ s' => includes s' sub
  end.

(** [s.slice(0, n)] *)
Definition slice0 (n : nat) (s : string) : string := String.substring 0 n s.

(** [s || fallback] on strings: the empty string is falsy. *)
Definition orString (s fallback : string) : string :=
  match s with
  | EmptyString => fallback
  | _ => s
  end.

Definition upperAscii (c : ascii) : ascii :=
  let n := nat_of_ascii c in
  if (97 <=? n)%nat && (n <=? 122)%nat then ascii_of_nat (n - 32) else c.

(** [s.toUpperCase()], on the ASCII letters. *)
Fixpoint toUpperCase (s : string) : string :=
  match s with
  | EmptyString => EmptyString
  | String c s' => String (upperAscii c) (toUpperCase s')
  end.

(** [xs.join(sep)] *)
Fixpoint join (sep : string) (xs : list string) : string :=
  match xs with
  | [] => ""
  | [x] => x
  | x :: rest => x +:+ sep +:+ join sep rest
  end.

Definition newline : string := String (ascii_of_nat 10) EmptyString.

(** ** Data model *)

(** Modelled from the spec: the Prisma enum [TaskStatus] is declared outside
    the sources at hand; section 3 lists its values. *)
Inductive TaskStatus :=
  PENDING | RUNNING | NEEDS_HELP | COMPLETED | FAILED | CANCELLED.

Inductive Role := USER | ASSISTANT.

(** A persisted JSON value ([task.model as unknown]). *)
Inductive JsonValue :=
| JNull
| JBool (b : bool)
| JNumber (n : Z)
| JString (s : string)
| JArray (items : list JsonValue)
| JObject (fields : gmap string JsonValue).

(** The fields of a tool-use input that the processor reads. *)
Record ToolInput := {
  in_status : string;
  in_description : string;
  in_type : option string;
  in_priority : option string;
  in_scheduledFor : option string;
}.

(** Modelled from the spec: the content-block union of [@bytebot/shared] is
    declared outside the sources at hand; section 3 gives its variants. *)
Inductive MessageContentBlock :=
| Text (text : string)
| ToolUse (id name : string) (input : ToolInput)
| ToolResult (tool_use_id : string) (content : list MessageContentBlock)
             (is_error : option bool).

Record Message := {
  id : string;
  createdAt : Z;
  updatedAt : Z;
  taskId : string;
  summaryId : option string;
  role : Role;
  content : list MessageContentBlock;
}.

Record Summary := {
  summary_id : string;
  summary_content : string;
}.

Record Task := {
  status : TaskStatus;
  model : JsonValue;
}.

Record BytebotAgentModel := {
  provider : string;
  name : string;
  title : string;
  contextWindow : option Z;
}.

Record BytebotAgentResponse := {
  contentBlocks : list MessageContentBlock;
  totalTokens : Z;
}.

(** A value that a rejected promise carries. *)
Inductive JsThrown :=
| JsError (errName message : string)   (* [instanceof Error] *)
| JsThrownString (s : string)          (* a thrown string *)
| JsThrownOther (errName : option string) (json : option string).
    (* any other value: its [name] property, and what [JSON.stringify]
       gives for it ([None] when [JSON.stringify] itself throws) *)

(** [normalizeError(e).message] *)
Definition normalizeError (e : JsThrown) : string :=
  match e with
  | JsError _ message => message
  | JsThrownString s => s
  | JsThrownOther _ (Some json) => json
  | JsThrownOther _ None => "Unknown error"
  end.

(** [(err as { name?: string } | undefined)?.name] *)
Definition errName_of (e : JsThrown) : option string :=
  match e with
  | JsError n _ => Some n
  | JsThrownString _ => None
  | JsThrownOther n _ => n
  end.

(** ** The model descriptor (runIteration, lines 210-254; inferProvider) *)

Definition inferProvider (name : string) : string :=
  if startsWith name "claude" then "anthropic"
  else if startsWith name "gemini" then "google"
  else if startsWith name "gpt-" || includes name "openai" then "openai"
  else "proxy".

Definition defaultModel : BytebotAgentModel :=
  {| provider := "openai"; name := "gpt-4.1-mini"; title := "gpt-4.1-mini";
     contextWindow := None |}.

(** [typeof v === 'string' ? v : undefined] *)
Definition asString (v : option JsonValue) : option string :=
  match v with
  | Some (JString s) => Some s
  | _ => None
  end.

(** [typeof v === 'number' ? v : undefined] *)
Definition asNumber (v : option JsonValue) : option Z :=
  match v with
  | Some (JNumber n) => Some n
  | _ => None
  end.

Definition resolveModel (rawModel : JsonValue) : BytebotAgentModel :=
  match rawModel with
  | JObject obj =>
      match asString (obj !! "provider"), asString (obj !! "name") with
      | Some p, Some n =>
          {| provider := p; name := n;
             title := default n (asString (obj !! "title"));
             contextWindow := asNumber (obj !! "contextWindow") |}
      | _, Some n =>
          {| provider := inferProvider n; name := n;
             title := default n (asString (obj !! "title"));
             contextWindow := None |}
      | _, None => defaultModel
      end
  | JString s =>
      {| provider := inferProvider s; name := s; title := s;
         contextWindow := None |}
  | _ => defaultModel
  end.

(** ** Tool-use classifiers *)

(** Modelled from the spec: [isComputerToolUseContentBlock] lives in
    [@bytebot/shared]; section 3 says a tool use whose name starts with
    [computer_] denotes a desktop tool. *)
Definition isComputerToolUseContentBlock (b : MessageContentBlock) : bool :=
  match b with
  | ToolUse _ n _ => startsWith n "computer_"
  | _ => false
  end.

(** Modelled from the spec: [isCreateTaskToolUseBlock] lives in
    [@bytebot/shared]; section 3 names [create_task] as a control tool. *)
Definition isCreateTaskToolUseBlock (b : MessageContentBlock) : bool :=
  match b with
  | ToolUse _ n _ => String.eqb n "create_task"
  | _ => false
  end.

(** Modelled from the spec: [isSetTaskStatusToolUseBlock] lives in
    [@bytebot/shared]; section 3 names [set_task_status] as a control
    tool. *)
Definition isSetTaskStatusToolUseBlock (b : MessageContentBlock) : bool :=
  match b with
  | ToolUse _ n _ => String.eqb n "set_task_status"
  | _ => false
  end.

Definition block_id (b : MessageContentBlock) : string :=
  match b with
  | ToolUse i _ _ => i
  | _ => ""
  end.

Definition block_name (b : MessageContentBlock) : string :=
  match b with
  | ToolUse _ n _ => n
  | _ => ""
  end.

Definition emptyInput : ToolInput :=
  {| in_status := ""; in_description := ""; in_type := None;
     in_priority := None; in_scheduledFor := None |}.

Definition block_input (b : MessageContentBlock) : ToolInput :=
  match b with
  | ToolUse _ _ i => i
  | _ => emptyInput
  end.

(** [result.is_error] used as a condition. *)
Definition result_is_error (r : MessageContentBlock) : bool :=
  match r with
  | ToolResult _ _ (Some true) => true
  | _ => false
  end.

(** ** Calls to collaborators *)

Inductive SystemPrompt := AGENT_SYSTEM_PROMPT | SUMMARIZATION_SYSTEM_PROMPT.

(** The partial record given to [tasksService.update]. *)
Record TaskUpdate := {
  upd_status : TaskStatus;
  upd_error : option string;
  upd_completedAt : option Z;
}.

(** The record given to [tasksService.create]. *)
Record CreateTaskDto := {
  dto_description : string;
  dto_type : option string;
  dto_createdBy : Role;
  dto_scheduledFor : option string;
  dto_model : JsonValue;
  dto_priority : option string;
}.

Inductive Event :=
| TasksFindById (taskId : string)
| TasksUpdate (taskId : string) (data : TaskUpdate)
| TasksCreate (dto : CreateTaskDto)
| SummariesFindLatest (taskId : string)
| SummariesCreate (content : string) (taskId : string)
| MessagesFindUnsummarized (taskId : string)
| MessagesCreate (content : list MessageContentBlock) (role : Role)
                 (taskId : string)
| MessagesAttachSummary (taskId summaryId : string) (ids : list string)
| GenerateMessage (provider : string) (systemPrompt : SystemPrompt)
                  (messages : list Message) (modelName : string)
                  (useTools : bool)
| HandleComputerToolUse (block : MessageContentBlock)
| InputCaptureStart (taskId : string)
| InputCaptureStop
| Abort
| SetImmediate (taskId : string)
| SetTimeout (taskId : string) (ms : nat)
| StartIteration (taskId : string).

(** How an awaited promise settles. *)
Inductive Settled (A : Type) :=
| Resolved (a : A)
| Rejected (e : JsThrown).
Arguments Resolved {A} a.
Arguments Rejected {A} e.

(** What the collaborators answer while one operation runs. *)
Record World := {
  now : Z;
  findById : string -> Settled Task;
  update : string -> TaskUpdate -> Settled unit;
  create_task : CreateTaskDto -> Settled unit;
  findLatest : string -> Settled (option Summary);
  create_summary : string -> string -> Settled Summary;
  findUnsummarized : string -> Settled (list Message);
  create_message :
    list MessageContentBlock -> Role -> string -> Settled Message;
  attachSummary : string -> string -> list string -> Settled unit;
  generateMessage :
    string -> SystemPrompt -> list Message -> string -> bool ->
    Settled BytebotAgentResponse;
  handleComputerToolUse : MessageContentBlock -> Settled MessageContentBlock;
  inputCapture_stop : Settled unit;
}.

(** ** Processor state *)

Record AbortController := { aborted : bool }.

Record AgentProcessor := {
  currentTaskId : option string;
  isProcessing : bool;
  abortController : option AbortController;
  retryCounts : gmap string nat;
  computerToolFailures : gmap string nat;
  computerToolsDisabled : gmap string bool;
}.

Definition MAX_INTERRUPT_RETRIES : nat := 3.

(** The processor as its field initialisers leave it. *)
Definition initialProcessor : AgentProcessor :=
  {| currentTaskId := None; isProcessing := false; abortController := None;
     retryCounts := ∅; computerToolFailures := ∅;
     computerToolsDisabled := ∅ |}.

Definition set_abortController (c : option AbortController)
    (p : AgentProcessor) : AgentProcessor :=
  {| currentTaskId := currentTaskId p; isProcessing := isProcessing p;
     abortController := c; retryCounts := retryCounts p;
     computerToolFailures := computerToolFailures p;
     computerToolsDisabled := computerToolsDisabled p |}.

Definition set_retryCounts (m : gmap string nat) (p : AgentProcessor)
    : AgentProcessor :=
  {| currentTaskId := currentTaskId p; isProcessing := isProcessing p;
     abortController := abortController p; retryCounts := m;
     computerToolFailures := computerToolFailures p;
     computerToolsDisabled := computerToolsDisabled p |}.

Definition set_computerToolFailures (m : gmap string nat)
    (p : AgentProcessor) : AgentProcessor :=
  {| currentTaskId := currentTaskId p; isProcessing := isProcessing p;
     abortController := abortController p; retryCounts := retryCounts p;
     computerToolFailures := m;
     computerToolsDisabled := computerToolsDisabled p |}.

Definition set_computerToolsDisabled (m : gmap string bool)
    (p : AgentProcessor) : AgentProcessor :=
  {| currentTaskId := currentTaskId p; isProcessing := isProcessing p;
     abortController := abortController p; retryCounts := retryCounts p;
     computerToolFailures := computerToolFailures p;
     computerToolsDisabled := m |}.

(** [this.isProcessing = true; this.currentTaskId = taskId;] *)
Definition markProcessing (t : string) (p : AgentProcessor) : AgentProcessor :=
  {| currentTaskId := Some t; isProcessing := true;
     abortController := abortController p; retryCounts := retryCounts p;
     computerToolFailures := computerToolFailures p;
     computerToolsDisabled := computerToolsDisabled p |}.

(** [this.isProcessing = false; this.currentTaskId = null;] *)
Definition clearProcessing (p : AgentProcessor) : AgentProcessor :=
  {| currentTaskId := None; isProcessing := false;
     abortController := abortController p; retryCounts := retryCounts p;
     computerToolFailures := computerToolFailures p;
     computerToolsDisabled := computerToolsDisabled p |}.

(** [new AbortController()] *)
Definition newAbortController : option AbortController :=
  Some {| aborted := false |}.

(** [this.abortController?.abort()] on the state. *)
Definition abortSignal (p : AgentProcessor) : AgentProcessor :=
  match abortController p with
  | Some _ => set_abortController (Some {| aborted := true |}) p
  | None => p
  end.

(** [this.currentTaskId === taskId && this.isProcessing] *)
Definition holdsTask (t : string) (p : AgentProcessor) : bool :=
  match currentTaskId p with
  | Some c => String.eqb c t && isProcessing p
  | None => false
  end.

(** ** The provider registry *)

Inductive ServiceRef :=
| Registered (tag : string)   (* one of the four injected services *)
| Inherited.                  (* a property of [Object.prototype] *)

Definition objectPrototypeKeys : list string :=
  [ "constructor"; "hasOwnProperty"; "isPrototypeOf"; "propertyIsEnumerable";
    "toLocaleString"; "toString"; "valueOf"; "__proto__";
    "__defineGetter__"; "__defineSetter__"; "__lookupGetter__";
    "__lookupSetter__" ].

Definition knownProviders : list string :=
  [ "anthropic"; "openai"; "google"; "proxy" ].

(** [this.services[tag]], where [services] is the object literal that the
    constructor builds. *)
Definition services (tag : string) : option ServiceRef :=
  if existsb (String.eqb tag) knownProviders then Some (Registered tag)
  else if existsb (String.eqb tag) objectPrototypeKeys then Some Inherited
  else None.

(** ** The monad of processor operations *)

(** How a block of statements completes. *)
Inductive Completion (A : Type) :=
| Normal (a : A)
| Return                 (* a [return;] statement was reached *)
| Throw (e : JsThrown).
Arguments Normal {A} a.
Arguments Return {A}.
Arguments Throw {A} e.

Definition M (A : Type) : Type :=
  World -> AgentProcessor -> Completion A * AgentProcessor * list Event.

Global Instance M_ret : MRet M := λ A a _ p, (Normal a, p, []).

Global Instance M_bind : MBind M := λ A B k m w p,
  match m w p with
  | (Normal a, p1, tr1) =>
      match k a w p1 with
      | (c, p2, tr2) => (c, p2, tr1 ++ tr2)
      end
  | (Return, p1, tr1) => (Return, p1, tr1)
  | (Throw e, p1, tr1) => (Throw e, p1, tr1)
  end.

Definition outcome {A} (r : Completion A * AgentProcessor * list Event)
  : Completion A := r.1.1.
Definition final {A} (r : Completion A * AgentProcessor * list Event)
  : AgentProcessor := r.1.2.
Definition trace {A} (r : Completion A * AgentProcessor * list Event)
  : list Event := r.2.

(** [return;] *)
Definition return_ {A} : M A := λ _ p, (Return, p, []).

(** Reading and assigning the processor's fields. *)
Definition gets {A} (f : AgentProcessor -> A) : M A :=
  λ _ p, (Normal (f p), p, []).
Definition modify (f : AgentProcessor -> AgentProcessor) : M unit :=
  λ _ p, (Normal tt, f p, []).

(** A call that does not settle a promise the code waits for. *)
Definition emit (e : Event) : M unit := λ _ p, (Normal tt, p, [e]).

(** [await call]: the call is made, and its promise settles as the world
    says. *)
Definition await {A} (e : Event) (answer : World -> Settled A) : M A :=
  λ w p,
    match answer w with
    | Resolved a => (Normal a, p, [e])
    | Rejected err => (Throw err, p, [e])
    end.

(** [try { body } catch (err) { handler }] *)
Definition try_catch {A} (body : M A) (handler : JsThrown -> M A) : M A :=
  λ w p,
    match body w p with
    | (Throw e, p1, tr1) =>
        match handler e w p1 with
        | (c, p2, tr2) => (c, p2, tr1 ++ tr2)
        end
    | r => r
    end.

(** The body of a method: [return;] ends it normally (for an [async]
    method, it resolves the promise). *)
Definition async (body : M unit) : M unit :=
  λ w p,
    match body w p with
    | (Return, p1, tr1) => (Normal tt, p1, tr1)
    | r => r
    end.

Definition when (c : bool) (m : M unit) : M unit :=
  if c then m else mret tt.

Definition asks {A} (f : World -> A) : M A := λ w p, (Normal (f w), p, []).

Definition throw {A} (e : JsThrown) : M A := λ _ p, (Throw e, p, []).

(** ** Collaborator calls *)

Definition tasks_findById (t : string) : M Task :=
  await (TasksFindById t) (λ w, findById w t).

Definition tasks_update (t : string) (data : TaskUpdate) : M unit :=
  await (TasksUpdate t data) (λ w, update w t data).

Definition tasks_create (dto : CreateTaskDto) : M unit :=
  await (TasksCreate dto) (λ w, create_task w dto).

Definition summaries_findLatest (t : string) : M (option Summary) :=
  await (SummariesFindLatest t) (λ w, findLatest w t).

Definition summaries_create (body t : string) : M Summary :=
  await (SummariesCreate body t) (λ w, create_summary w body t).

Definition messages_findUnsummarized (t : string) : M (list Message) :=
  await (MessagesFindUnsummarized t) (λ w, findUnsummarized w t).

Definition messages_create (blocks : list MessageContentBlock) (r : Role)
    (t : string) : M Message :=
  await (MessagesCreate blocks r t) (λ w, create_message w blocks r t).

Definition messages_attachSummary (t sid : string) (ids : list string)
    : M unit :=
  await (MessagesAttachSummary t sid ids) (λ w, attachSummary w t sid ids).

(** [service.generateMessage(...)]: a registered service is called; on a
    property inherited from [Object.prototype] the member call is a
    TypeError. *)
Definition service_generateMessage (service : ServiceRef) (sp : SystemPrompt)
    (msgs : list Message) (modelName : string) (useTools : bool)
    : M BytebotAgentResponse :=
  match service with
  | Registered tag =>
      await (GenerateMessage tag sp msgs modelName useTools)
            (λ w, generateMessage w tag sp msgs modelName useTools)
  | Inherited =>
      throw (JsError "TypeError" "service.generateMessage is not a function")
  end.

(** ** runIteration *)

(** The synthetic USER message with one Text block (lines 169-182, 189-202
    and 331-344). *)
Definition syntheticMessage (ts : Z) (t text : string) : Message :=
  {| id := ""; createdAt := ts; updatedAt := ts; taskId := t;
     summaryId := None; role := USER; content := [Text text] |}.

Definition advisoryText : string :=
  "System notice: Desktop automation tools (computer_*) are unavailable. Do not request computer_* tool calls. Provide next instructions or ask the user for needed information instead.".

Definition summarizeInstruction : string :=
  "Respond with a summary of the messages above. Do not include any additional information.".

(** The [messages] array of lines 166-205. *)
Definition assembleMessages (ts : Z) (t : string)
    (latestSummary : option Summary) (unsummarizedMessages : list Message)
    (disabled : bool) : list Message :=
  match latestSummary with
  | Some s => [syntheticMessage ts t (summary_content s)]
  | None => []
  end
  ++ unsummarizedMessages
  ++ (if disabled then [syntheticMessage ts t advisoryText] else []).

Definition isRunning (s : TaskStatus) : bool :=
  match s with
  | RUNNING => true
  | _ => false
  end.

Definition failedUpdate (err : option string) : TaskUpdate :=
  {| upd_status := FAILED; upd_error := err; upd_completedAt := None |}.

Definition needsHelpUpdate (err : option string) : TaskUpdate :=
  {| upd_status := NEEDS_HELP; upd_error := err; upd_completedAt := None |}.

Definition completedUpdate (ts : Z) : TaskUpdate :=
  {| upd_status := COMPLETED; upd_error := None; upd_completedAt := Some ts |}.

(** [model.contextWindow || 200000] *)
Definition contextWindowOrDefault (m : BytebotAgentModel) : Z :=
  match contextWindow m with
  | Some n => if (n =? 0)%Z then 200000%Z else n
  | None => 200000%Z
  end.

(** [agentResponse.tokenUsage.totalTokens >= contextWindow * 0.75] *)
Definition shouldSummarize (m : BytebotAgentModel)
    (r : BytebotAgentResponse) : bool :=
  (3 * contextWindowOrDefault m <=? 4 * totalTokens r)%Z.

Definition isTextBlock (b : MessageContentBlock) : bool :=
  match b with
  | Text _ => true
  | _ => false
  end.

Definition block_text (b : MessageContentBlock) : string :=
  match b with
  | Text s => s
  | _ => ""
  end.

(** Lines 356-362. *)
Definition summaryContentOf (blocks : list MessageContentBlock) : string :=
  join newline (map block_text (List.filter isTextBlock blocks)).

(** The summarization block, lines 325-385. *)
Definition summarize (t : string) (service : ServiceRef)
    (m : BytebotAgentModel) (messages : list Message) : M unit :=
  try_catch
    (ts ← asks now;
     summaryResponse ←
       service_generateMessage service SUMMARIZATION_SYSTEM_PROMPT
         (messages ++ [syntheticMessage ts t summarizeInstruction])
         (name m) false;
     let summaryContent := summaryContentOf (contentBlocks summaryResponse) in
     summary ← summaries_create summaryContent t;
     messages_attachSummary t (summary_id summary) (map id messages))
    (λ _, mret tt).

Definition degradedText : string :=
  "Desktop automation unavailable. Please provide guidance or perform actions manually.".

(** Lines 397-421: a computer tool use. *)
Definition dispatchComputerTool (t : string) (block : MessageContentBlock)
    (generated : list MessageContentBlock) : M (list MessageContentBlock) :=
  result ← await (HandleComputerToolUse block)
                 (λ w, handleComputerToolUse w block);
  let generated := generated ++ [result] in
  if result_is_error result && startsWith (block_name block) "computer_" then
    previous ← gets (λ p, default 0 (computerToolFailures p !! t));
    let failures := previous + 1 in
    modify (λ p, set_computerToolFailures
                   (<[t := failures]> (computerToolFailures p)) p);;
    disabled ← gets (λ p, default false (computerToolsDisabled p !! t));
    if (2 <=? failures)%nat && negb disabled then
      modify (λ p, set_computerToolsDisabled
                     (<[t := true]> (computerToolsDisabled p)) p);;
      tasks_update t (needsHelpUpdate (Some degradedText));;
      modify clearProcessing;;
      return_
    else mret generated
  else mret generated.

(** [x && {...}] on an optional string: absent and empty are falsy. *)
Definition truthyString (s : option string) : option string :=
  match s with
  | Some EmptyString => None
  | other => other
  end.

(** Lines 423-448: a create_task tool use. *)
Definition dispatchCreateTask (task : Task) (block : MessageContentBlock)
    (generated : list MessageContentBlock) : M (list MessageContentBlock) :=
  let input := block_input block in
  tasks_create
    {| dto_description := in_description input;
       dto_type := toUpperCase <$> in_type input;
       dto_createdBy := ASSISTANT;
       dto_scheduledFor := truthyString (in_scheduledFor input);
       dto_model := model task;
       dto_priority := toUpperCase <$> in_priority input |};;
  mret (generated ++
        [ToolResult (block_id block) [Text "The task has been created"] None]).

(** Lines 453-463: the tool result of a set_task_status tool use. *)
Definition setTaskStatusResult (block : MessageContentBlock)
    : MessageContentBlock :=
  ToolResult (block_id block)
    [Text (in_description (block_input block))]
    (Some (String.eqb (in_status (block_input block)) "failed")).

(** The loop variables [generatedToolResults] and
    [setTaskStatusToolUseBlock]. *)
Definition LoopState : Type :=
  list MessageContentBlock * option MessageContentBlock.

(** One turn of the loop of lines 396-465. *)
Definition dispatchBlock (t : string) (task : Task)
    (block : MessageContentBlock) (st : LoopState) : M LoopState :=
  generated ←
    (if isComputerToolUseContentBlock block
     then dispatchComputerTool t block st.1 else mret st.1);
  generated ←
    (if isCreateTaskToolUseBlock block
     then dispatchCreateTask task block generated else mret generated);
  if isSetTaskStatusToolUseBlock block
  then mret (generated ++ [setTaskStatusResult block], Some block)
  else mret (generated, st.2).

Fixpoint dispatchBlocks (t : string) (task : Task)
    (blocks : list MessageContentBlock) (st : LoopState) : M LoopState :=
  match blocks with
  | [] => mret st
  | block :: rest =>
      st' ← dispatchBlock t task block st;
      dispatchBlocks t task rest st'
  end.

(** Lines 476-490: the switch on the recorded set_task_status block. *)
Definition applyTaskStatus (t : string)
    (setTaskStatusToolUseBlock : option MessageContentBlock) : M unit :=
  match setTaskStatusToolUseBlock with
  | Some block =>
      let s := in_status (block_input block) in
      if String.eqb s "completed" then
        ts ← asks now; tasks_update t (completedUpdate ts)
      else if String.eqb s "needs_help" then
        tasks_update t (needsHelpUpdate None)
      else mret tt
  | None => mret tt
  end.

(** Lines 467-497: what follows the loop. *)
Definition afterBlocks (t : string) (st : LoopState) : M unit :=
  when (0 <? length st.1)%nat (messages_create st.1 USER t;; mret tt);;
  applyTaskStatus t st.2;;
  processing ← gets isProcessing;
  when processing (emit (SetImmediate t)).

(** Lines 392-497: the dispatcher and the scheduling of the next
    iteration. *)
Definition dispatch (t : string) (task : Task)
    (messageContentBlocks : list MessageContentBlock) : M unit :=
  st ← dispatchBlocks t task messageContentBlocks ([], None);
  afterBlocks t st.

(** Lines 270-291: the first provider call and its own handler. *)
Definition callModel (t : string) (service : ServiceRef)
    (m : BytebotAgentModel) (messages : list Message)
    : M BytebotAgentResponse :=
  try_catch
    (service_generateMessage service AGENT_SYSTEM_PROMPT messages (name m)
       true)
    (λ llmErr,
       let message := normalizeError llmErr in
       tasks_update t
         (failedUpdate (Some (orString (slice0 500 message) "LLM error")));;
       modify clearProcessing;;
       return_).

(** Lines 255-497: from the lookup of the provider service on. *)
Definition consultModel (t : string) (task : Task) (m : BytebotAgentModel)
    (messages : list Message) : M unit :=
  match services (provider m) with
  | None =>
      tasks_update t (failedUpdate None);;
      modify clearProcessing;;
      return_
  | Some service =>
      agentResponse ← callModel t service m messages;
      let messageContentBlocks := contentBlocks agentResponse in
      if (length messageContentBlocks =? 0)%nat then
        tasks_update t
          (failedUpdate (Some "No content blocks returned from model"));;
        modify clearProcessing;;
        return_
      else
        messages_create messageContentBlocks ASSISTANT t;;
        when (shouldSummarize m agentResponse)
             (summarize t service m messages);;
        dispatch t task messageContentBlocks
  end.

(** The [try] block of runIteration, lines 146-497. *)
Definition iterationBody (t : string) : M unit :=
  task ← tasks_findById t;
  if negb (isRunning (status task)) then
    modify clearProcessing;; return_
  else
    modify (set_abortController newAbortController);;
    latestSummary ← summaries_findLatest t;
    unsummarizedMessages ← messages_findUnsummarized t;
    disabled ← gets (λ p, default false (computerToolsDisabled p !! t));
    ts ← asks now;
    let messages :=
      assembleMessages ts t latestSummary unsummarizedMessages disabled in
    consultModel t task (resolveModel (model task)) messages.

Definition interruptName : string := "BytebotAgentInterrupt".

(** Lines 501-504. *)
Definition isInterrupt (err : JsThrown) : bool :=
  match errName_of err with
  | Some n => String.eqb n interruptName
  | None => false
  end
  || String.eqb (normalizeError err) interruptName.

Definition interruptedText : string :=
  "Processing interrupted multiple times (model/tool aborted). You can resume or take over.".

(** The [catch] block of runIteration, lines 498-548. *)
Definition iterationHandler (t : string) (err : JsThrown) : M unit :=
  let message := normalizeError err in
  (if isInterrupt err then
     current ← gets (λ p, default 0 (retryCounts p !! t));
     if (current <? MAX_INTERRUPT_RETRIES)%nat then
       modify (λ p, set_retryCounts (<[t := current + 1]> (retryCounts p)) p);;
       emit (SetTimeout t 500);;
       return_
     else
       tasks_update t (needsHelpUpdate (Some interruptedText))
   else
     tasks_update t
       (failedUpdate (Some (orString (slice0 500 message) "Processing error"))));;
  modify (λ p, set_retryCounts (delete t (retryCounts p)) p);;
  modify clearProcessing.

Definition runIteration (t : string) : M unit :=
  async
    (processing ← gets isProcessing;
     if negb processing then return_
     else try_catch (iterationBody t) (iterationHandler t)).

(** The callback given to [setTimeout], lines 513-524. *)
Definition retryCallback (t : string) : M unit :=
  holds ← gets (holdsTask t);
  when holds (try_catch (runIteration t) (λ _, mret tt)).

(** ** Lifecycle operations *)

(** [this.abortController?.abort()] *)
Definition abort : M unit :=
  c ← gets abortController;
  match c with
  | Some _ => modify abortSignal;; emit Abort
  | None => mret tt
  end.

Definition handleTaskTakeover (t : string) : M unit :=
  async
    (holds ← gets (holdsTask t);
     when holds abort;;
     emit (InputCaptureStart t)).

Definition handleTaskResume (t : string) : M unit :=
  async
    (holds ← gets (holdsTask t);
     when holds
       (modify (set_abortController newAbortController);;
        emit (StartIteration t))).

Definition stopProcessing : M unit :=
  async
    (processing ← gets isProcessing;
     if negb processing then return_
     else
       abort;;
       await InputCaptureStop inputCapture_stop;;
       modify clearProcessing).

Definition handleTaskCancel (t : string) : M unit :=
  async stopProcessing.

Definition processTask (t : string) : M unit :=
  async
    (processing ← gets isProcessing;
     if (processing : bool) then return_
     else
       modify (markProcessing t);;
       modify (set_abortController newAbortController);;
       emit (StartIteration t)).

(** What can happen to the processor: a call of one of its methods, one
    iteration, or the retry timer firing. *)
Inductive Operation :=
| OpProcessTask (t : string)
| OpTakeover (t : string)
| OpResume (t : string)
| OpCancel (t : string)
| OpStopProcessing
| OpIteration (t : string)
| OpRetryTimer (t : string).

Definition perform (op : Operation) : M unit :=
  match op with
  | OpProcessTask t => processTask t
  | OpTakeover t => handleTaskTakeover t
  | OpResume t => handleTaskResume t
  | OpCancel t => handleTaskCancel t
  | OpStopProcessing => stopProcessing
  | OpIteration t => runIteration t
  | OpRetryTimer t => retryCallback t
  end.

(** The states the processor can be in: it starts as constructed, and each
    operation runs in a world of its own. *)
Inductive reachable : AgentProcessor -> Prop :=
| reachable_initial : reachable initialProcessor
| reachable_step p op w :
    reachable p -> reachable (final (perform op w p)).

(** ** Specification vocabulary *)

(** The invariant of section 3, as the spec words it:
    [isProcessing <-> currentTaskId != null <-> cancellationHandle != null]. *)
Definition singletonInvariant (p : AgentProcessor) : Prop :=
  (isProcessing p = true <-> currentTaskId p <> None) /\
  (currentTaskId p <> None <-> abortController p <> None).

(** What the processor keeps of it: the two flags agree, and a processor
    that is processing has a cancellation handle. *)
Definition processingInvariant (p : AgentProcessor) : Prop :=
  (isProcessing p = true <-> currentTaskId p <> None) /\
  (isProcessing p = true -> abortController p <> None).

Definition keepsInvariant (p p' : AgentProcessor) : Prop :=
  processingInvariant p -> processingInvariant p'.

(** An operation relates the state it starts in to the state it ends in. *)
Definition preserves {A} (R : AgentProcessor -> AgentProcessor -> Prop)
    (m : M A) : Prop :=
  forall w p, R p (final (m w p)).

(** A model value that names its provider itself. *)
Definition namesProvider (rawModel : JsonValue) (tag : string) : Prop :=
  exists obj n,
    rawModel = JObject obj /\
    asString (obj !! "provider") = Some tag /\
    asString (obj !! "name") = Some n.

(** A model value that gives a bare model name [n]: a string, or an object
    with a string [name] and no string [provider]. *)
Definition bareName (rawModel : JsonValue) (n : string) : Prop :=
  rawModel = JString n \/
  exists obj,
    rawModel = JObject obj /\
    asString (obj !! "provider") = None /\
    asString (obj !! "name") = Some n.

(** A model value from which a name can be read. *)
Definition usableModel (rawModel : JsonValue) : Prop :=
  (exists n, rawModel = JString n) \/
  (exists obj n, rawModel = JObject obj /\ asString (obj !! "name") = Some n).

(** ** Sample worlds *)

Definition sampleMessage (i : string) (t : string) : Message :=
  {| id := i; createdAt := 1; updatedAt := 1; taskId := t;
     summaryId := None; role := USER; content := [Text "open the report"] |}.

Definition sampleSummaryResponse : BytebotAgentResponse :=
  {| contentBlocks := [Text "a"; ToolUse "x" "y" emptyInput; Text "b"];
     totalTokens := 5 |}.

(** A world with one unsummarized message in which every call succeeds:
    the task is [task], and the provider answers the agent prompt with
    [answer]. *)
Definition sampleWorld (task : Task) (answer : Settled BytebotAgentResponse)
    : World :=
  {| now := 7;
     findById := λ _, Resolved task;
     update := λ _ _, Resolved tt;
     create_task := λ _, Resolved tt;
     findLatest := λ _, Resolved None;
     create_summary := λ c _,
       Resolved {| summary_id := "s1"; summary_content := c |};
     findUnsummarized := λ t, Resolved [sampleMessage "m1" t];
     create_message := λ c r t,
       Resolved {| id := "m2"; createdAt := 7; updatedAt := 7; taskId := t;
                   summaryId := None; role := r; content := c |};
     attachSummary := λ _ _ _, Resolved tt;
     generateMessage := λ _ sp _ _ _,
       match sp with
       | AGENT_SYSTEM_PROMPT => answer
       | SUMMARIZATION_SYSTEM_PROMPT => Resolved sampleSummaryResponse
       end;
     handleComputerToolUse := λ b,
       Resolved (ToolResult (block_id b) [Text "desktop unreachable"]
                            (Some true));
     inputCapture_stop := Resolved tt |}.

Definition runningTask (m : JsonValue) : Task :=
  {| status := RUNNING; model := m |}.

Definition textAnswer : Settled BytebotAgentResponse :=
  Resolved {| contentBlocks := [Text "hi"]; totalTokens := 10 |}.

(** The processor after [processTask("T")]. *)
Definition startedProcessor : AgentProcessor :=
  final (processTask "T" (sampleWorld (runningTask JNull) textAnswer)
           initialProcessor).

(** A persisted model whose provider has no service. *)
Definition strayModel : JsonValue :=
  JObject {[ "provider" := JString "foo"; "name" := JString "bar" ]}.

(** The processor after [processTask("T")] and then [stopProcessing()]. *)
Definition stoppedProcessor : AgentProcessor :=
  final (stopProcessing (sampleWorld (runningTask JNull) textAnswer)
           startedProcessor).

(** No entry of [computerToolFailures] or [computerToolsDisabled] is
    deleted. *)
Definition keepsToolEntries (p p' : AgentProcessor) : Prop :=
  forall t,
    (is_Some (computerToolFailures p !! t) ->
     is_Some (computerToolFailures p' !! t)) /\
    (is_Some (computerToolsDisabled p !! t) ->
     is_Some (computerToolsDisabled p' !! t)).

Definition sameRetryCounts (p p' : AgentProcessor) : Prop :=
  retryCounts p = retryCounts p'.

Definition sameProcessing (p p' : AgentProcessor) : Prop :=
  isProcessing p = isProcessing p' /\ currentTaskId p = currentTaskId p'.

(** An operation relates the state it starts in to the state it ends in,
    unless it ends with [return;]. *)
Definition unlessReturn {A} (R : AgentProcessor -> AgentProcessor -> Prop)
    (m : M A) : Prop :=
  forall w p, outcome (m w p) <> Return -> R p (final (m w p)).

(** The iteration raises [e]: runIteration is entered by a processor that
    is processing, and its [try] block ends by throwing [e]. *)
Definition raises (t : string) (w : World) (p : AgentProcessor)
    (e : JsThrown) : Prop :=
  isProcessing p = true /\ outcome (iterationBody t w p) = Throw e.

(** [this.retryCounts[taskId] || 0] *)
Definition retryCount (t : string) (p : AgentProcessor) : nat :=
  default 0 (retryCounts p !! t).

(** Consecutive iterations of one task, each in a world of its own. *)
Fixpoint iterations (t : string) (ws : list World) (p : AgentProcessor)
    : AgentProcessor * list Event :=
  match ws with
  | [] => (p, [])
  | w :: ws' =>
      let r := runIteration t w p in
      let rest := iterations t ws' (final r) in
      (rest.1, trace r ++ rest.2)
  end.

(** Each of the consecutive iterations raises an Interrupt. *)
Fixpoint allInterrupted (t : string) (ws : list World) (p : AgentProcessor)
    : Prop :=
  match ws with
  | [] => True
  | w :: ws' =>
      (exists e, raises t w p e /\ isInterrupt e = true) /\
      allInterrupted t ws' (final (runIteration t w p))
  end.

Definition isRetry (e : Event) : bool :=
  match e with
  | SetTimeout _ _ => true
  | _ => false
  end.

(** The number of retries that a trace schedules. *)
Definition retriesScheduled (tr : list Event) : nat :=
  length (List.filter isRetry tr).

Definition interruptError : JsThrown := JsError interruptName "aborted".

(** A world in which reading the task is interrupted. *)
Definition interruptedWorld : World :=
  {| now := 9;
     findById := λ _, Rejected interruptError;
     update := λ _ _, Resolved tt;
     create_task := λ _, Resolved tt;
     findLatest := λ _, Resolved None;
     create_summary := λ c _,
       Resolved {| summary_id := "s1"; summary_content := c |};
     findUnsummarized := λ _, Resolved [];
     create_message := λ c r t,
       Resolved {| id := "m2"; createdAt := 9; updatedAt := 9; taskId := t;
                   summaryId := None; role := r; content := c |};
     attachSummary := λ _ _ _, Resolved tt;
     generateMessage := λ _ _ _ _ _, textAnswer;
     handleComputerToolUse := λ b, Resolved (ToolResult (block_id b) [] None);
     inputCapture_stop := Resolved tt |}.

(** A world in which the model asks for a screenshot and the desktop tool
    reports an error. *)
Definition screenshotWorld : World :=
  sampleWorld (runningTask (JString "gpt-4.1"))
    (Resolved
       {| contentBlocks := [ToolUse "u1" "computer_screenshot" emptyInput;
                            Text "looking"];
          totalTokens := 10 |}).

(** The processor after [processTask("T")], one interrupted iteration and
    two iterations whose screenshot fails: the task is NEEDS_HELP and the
    processor has stopped. *)
Definition degradedProcessor : AgentProcessor :=
  (iterations "T" [interruptedWorld; screenshotWorld; screenshotWorld]
     startedProcessor).1.

(** Every call that an operation makes satisfies [P]. *)
Definition emitsOnly {A} (P : Event -> Prop) (m : M A) : Prop :=
  forall w p, Forall P (trace (m w p)).

(** The calls that the dispatcher of lines 392-497 can make. *)
Definition isDispatchEvent (e : Event) : bool :=
  match e with
  | HandleComputerToolUse _ | TasksCreate _ | TasksUpdate _ _
  | MessagesCreate _ _ _ | SetImmediate _ => true
  | _ => false
  end.

(** The calls that the catch block can make. *)
Definition isHandlerEvent (e : Event) : bool :=
  match e with
  | TasksUpdate _ _ | SetTimeout _ _ => true
  | _ => false
  end.

(** A world in which the task store fails. *)
Definition failingWorld : World :=
  {| now := 9;
     findById := λ _, Rejected (JsError "Error" "store is down");
     update := λ _ _, Resolved tt;
     create_task := λ _, Resolved tt;
     findLatest := λ _, Resolved None;
     create_summary := λ c _,
       Resolved {| summary_id := "s1"; summary_content := c |};
     findUnsummarized := λ _, Resolved [];
     create_message := λ c r t,
       Resolved {| id := "m2"; createdAt := 9; updatedAt := 9; taskId := t;
                   summaryId := None; role := r; content := c |};
     attachSummary := λ _ _ _, Resolved tt;
     generateMessage := λ _ _ _ _ _, textAnswer;
     handleComputerToolUse := λ b, Resolved (ToolResult (block_id b) [] None);
     inputCapture_stop := Resolved tt |}.

(** A world whose task names a provider without a service. *)
Definition strayWorld : World :=
  sampleWorld (runningTask strayModel) textAnswer.

(** The processor after one iteration whose screenshot failed. *)
Definition onceFailedProcessor : AgentProcessor :=
  final (runIteration "T" screenshotWorld startedProcessor).

Definition screenshotBlock : MessageContentBlock :=
  ToolUse "u1" "computer_screenshot" emptyInput.

Definition isStatusUpdate (e : Event) : bool :=
  match e with
  | TasksUpdate _ _ => true
  | _ => false
  end.

(** The single USER message that persists the tool results of a turn. *)
Definition persisted (t : string) (generated : list MessageContentBlock)
    : list Event :=
  match generated with
  | [] => []
  | _ => [MessagesCreate generated USER t]
  end.

Definition statusBlock (s d : string) : MessageContentBlock :=
  ToolUse "u9" "set_task_status"
    {| in_status := s; in_description := d; in_type := None;
       in_priority := None; in_scheduledFor := None |}.

(** The second provider call of an iteration (lines 327-349). *)
Definition summarizationCall (tag : string) (m : BytebotAgentModel)
    (messages : list Message) (ts : Z) (t : string) : Event :=
  GenerateMessage tag SUMMARIZATION_SYSTEM_PROMPT
    (messages ++ [syntheticMessage ts t summarizeInstruction]) (name m) false.

(** What the summarization block calls, given how its calls settle. *)
Definition summarizationTrace (tag : string) (m : BytebotAgentModel)
    (messages : list Message) (w : World) (t : string) : list Event :=
  summarizationCall tag m messages (now w) t ::
  match generateMessage w tag SUMMARIZATION_SYSTEM_PROMPT
          (messages ++ [syntheticMessage (now w) t summarizeInstruction])
          (name m) false with
  | Resolved summaryResponse =>
      let body := summaryContentOf (contentBlocks summaryResponse) in
      SummariesCreate body t ::
      match create_summary w body t with
      | Resolved summary =>
          [MessagesAttachSummary t (summary_id summary) (map id messages)]
      | Rejected _ => []
      end
  | Rejected _ => []
  end.

(** The calls of the provider and of the summary bookkeeping. *)
Definition isProviderEvent (e : Event) : bool :=
  match e with
  | GenerateMessage _ _ _ _ _ | SummariesCreate _ _
  | MessagesAttachSummary _ _ _ => true
  | _ => false
  end.

Definition isAttachSummary (e : Event) : bool :=
  match e with
  | MessagesAttachSummary _ _ _ => true
  | _ => false
  end.

(** A task whose descriptor names a context window of 200000 tokens. *)
Definition windowedModel : JsonValue :=
  JObject {[ "provider" := JString "openai"; "name" := JString "gpt-4.1";
             "contextWindow" := JNumber 200000 ]}.

Definition longAnswer : BytebotAgentResponse :=
  {| contentBlocks := [Text "hi"]; totalTokens := 160000 |}.

(** A world in which the turn uses 160000 tokens of a 200000 window. *)
Definition longWorld : World :=
  sampleWorld (runningTask windowedModel) (Resolved longAnswer).

(** ** Further sample worlds *)

(** [w], except that stopping the input capture settles as [r]. *)
Definition withInputCaptureStop (r : Settled unit) (w : World) : World :=
  {| now := now w; findById := findById w; update := update w;
     create_task := create_task w; findLatest := findLatest w;
     create_summary := create_summary w;
     findUnsummarized := findUnsummarized w;
     create_message := create_message w; attachSummary := attachSummary w;
     generateMessage := generateMessage w;
     handleComputerToolUse := handleComputerToolUse w;
     inputCapture_stop := r |}.

(** [w], except that every task update settles as [r]. *)
Definition withUpdate (r : Settled unit) (w : World) : World :=
  {| now := now w; findById := findById w; update := λ _ _, r;
     create_task := create_task w; findLatest := findLatest w;
     create_summary := create_summary w;
     findUnsummarized := findUnsummarized w;
     create_message := create_message w; attachSummary := attachSummary w;
     generateMessage := generateMessage w;
     handleComputerToolUse := handleComputerToolUse w;
     inputCapture_stop := inputCapture_stop w |}.

Definition storeDown : JsThrown := JsError "Error" "store is down".

(** A world whose task has already been completed. *)
Definition completedWorld : World :=
  sampleWorld {| status := COMPLETED; model := JNull |} textAnswer.

(** A world whose provider call is interrupted. *)
Definition abortedCallWorld : World :=
  sampleWorld (runningTask (JString "gpt-4.1")) (Rejected interruptError).


(** The processor after the degradation of task "T", started again on it
    (as after a resume and a new [processTask("T")]). *)
Definition restartedProcessor : AgentProcessor :=
  final (processTask "T" screenshotWorld degradedProcessor).

(** A world in which reading the task fails and so does every update. *)
Definition brokenStoreWorld : World :=
  withUpdate (Rejected storeDown) failingWorld.

(** ** Scheduling *)

(** The two ways in which an iteration asks for another one. *)
Definition isSchedule (e : Event) : bool :=
  match e with
  | SetImmediate _ | SetTimeout _ _ => true
  | _ => false
  end.

Definition scheduled (tr : list Event) : nat :=
  length (List.filter isSchedule tr).

(** An operation schedules at most once, and only as the last thing it
    does before it completes normally. *)
Definition schedulesLast {A} (m : M A) : Prop :=
  forall w p,
    scheduled (trace (m w p)) = 0 \/
    (scheduled (trace (m w p)) = 1 /\ exists a, outcome (m w p) = Normal a).

(** ** What an iteration can call *)

(** The status updates that runIteration can send (lines 262, 284, 303,
    410, 479, 485, 530 and 540). *)
Inductive iterationUpdate : TaskUpdate -> Prop :=
| update_no_service : iterationUpdate (failedUpdate None)
| update_llm_error e :
    iterationUpdate
      (failedUpdate
         (Some (orString (slice0 500 (normalizeError e)) "LLM error")))
| update_no_blocks :
    iterationUpdate
      (failedUpdate (Some "No content blocks returned from model"))
| update_degraded : iterationUpdate (needsHelpUpdate (Some degradedText))
| update_completed ts : iterationUpdate (completedUpdate ts)
| update_needs_help : iterationUpdate (needsHelpUpdate None)
| update_interrupted : iterationUpdate (needsHelpUpdate (Some interruptedText))
| update_processing_error e :
    iterationUpdate
      (failedUpdate
         (Some (orString (slice0 500 (normalizeError e))
                  "Processing error"))).

(** The calls that an iteration of task [t] can make. *)
Inductive iterationEvent (t : string) : Event -> Prop :=
| event_findById : iterationEvent t (TasksFindById t)
| event_update data :
    iterationUpdate data -> iterationEvent t (TasksUpdate t data)
| event_create dto :
    dto_createdBy dto = ASSISTANT -> iterationEvent t (TasksCreate dto)
| event_findLatest : iterationEvent t (SummariesFindLatest t)
| event_createSummary body : iterationEvent t (SummariesCreate body t)
| event_findUnsummarized : iterationEvent t (MessagesFindUnsummarized t)
| event_createMessage blocks r : iterationEvent t (MessagesCreate blocks r t)
| event_attach sid ids : iterationEvent t (MessagesAttachSummary t sid ids)
| event_generate tag sp msgs n tools :
    In tag knownProviders ->
    iterationEvent t (GenerateMessage tag sp msgs n tools)
| event_tool block :
    isComputerToolUseContentBlock block = true ->
    iterationEvent t (HandleComputerToolUse block)
| event_setImmediate : iterationEvent t (SetImmediate t)
| event_setTimeout : iterationEvent t (SetTimeout t 500).

(** The task that a call is about, for the calls that name one. *)
Definition eventTask (e : Event) : option string :=
  match e with
  | TasksFindById t | TasksUpdate t _ | SummariesFindLatest t
  | SummariesCreate _ t | MessagesFindUnsummarized t | MessagesCreate _ _ t
  | MessagesAttachSummary t _ _ | InputCaptureStart t | SetImmediate t
  | SetTimeout t _ | StartIteration t => Some t
  | _ => None
  end.

(** The calls that belong to the lifecycle methods only. *)
Definition isLifecycleEvent (e : Event) : bool :=
  match e with
  | Abort | InputCaptureStart _ | InputCaptureStop | StartIteration _ => true
  | _ => false
  end.

(** A status update as the task store may expect it: one of the three
    statuses an iteration sets, [completedAt] exactly with COMPLETED, and an
    error text that is not empty and has at most 500 characters. *)
Definition wellFormedUpdate (data : TaskUpdate) : Prop :=
  (upd_status data = FAILED \/ upd_status data = NEEDS_HELP \/
   upd_status data = COMPLETED) /\
  (upd_completedAt data <> None <-> upd_status data = COMPLETED) /\
  (forall err, upd_error data = Some err ->
               err <> "" /\ String.length err <= 500).

(** ** The per-task records over time *)

(** [this.computerToolFailures[taskId] || 0] *)
Definition failureCount (t : string) (p : AgentProcessor) : nat :=
  default 0 (computerToolFailures p !! t).

(** The failure counters do not go down and the disabled marks stay. *)
Definition growsToolState (p p' : AgentProcessor) : Prop :=
  forall t,
    failureCount t p <= failureCount t p' /\
    (computerToolsDisabled p !! t = Some true ->
     computerToolsDisabled p' !! t = Some true).

(** What the three per-task records hold: a disabled mark is [true] and
    stands on at least two counted failures; a failure counter that exists
    is at least 1; a retry count that exists lies between 1 and
    MAX_INTERRUPT_RETRIES. *)
Definition recordsInvariant (p : AgentProcessor) : Prop :=
  forall t,
    (forall b, computerToolsDisabled p !! t = Some b ->
               b = true /\ 2 <= failureCount t p) /\
    (forall n, computerToolFailures p !! t = Some n -> 1 <= n) /\
    (forall n, retryCounts p !! t = Some n ->
               1 <= n /\ n <= MAX_INTERRUPT_RETRIES).

Definition keepsRecords (p p' : AgentProcessor) : Prop :=
  recordsInvariant p -> recordsInvariant p'.

(** * The tasks controller (tasks.controller.ts) and the model table
      (openai.constants.ts) *)

From Stdlib Require DecimalString.

(** ** JavaScript values and strings *)

(** The truthiness of a JSON value. *)
Definition truthy (v : JsonValue) : bool :=
  match v with
  | JNull => false
  | JBool b => b
  | JNumber n => negb (n =? 0)%Z
  | JString s => negb (String.eqb s "")
  | JArray _ | JObject _ => true
  end.

(** [v.key], and [key in v], for a JSON value [v] and the keys read below
    ([data], [models], [litellm_params], [model], [model_name]): none of
    them is an array index, [length], or a property of a prototype, so only
    an object has them, as its own. *)
Definition field (v : JsonValue) (key : string) : option JsonValue :=
  match v with
  | JObject fields => fields !! key
  | _ => None
  end.

(** [a || b], where [a] may be undefined. *)
Definition orValue (a : option JsonValue) (b : JsonValue) : JsonValue :=
  match a with
  | Some v => if truthy v then v else b
  | None => b
  end.

(** A non-negative integer in a template literal. *)
Definition showN (n : N) : string :=
  DecimalString.NilZero.string_of_uint (N.to_uint n).

Definition showNat (n : nat) : string := showN (N.of_nat n).

(** [s.split(sep)] for a separator of one character. *)
Fixpoint split (sep : ascii) (s : string) : list string :=
  match s with
  | EmptyString => [EmptyString]
  | String c rest =>
      if Ascii.eqb c sep then EmptyString :: split sep rest
      else match split sep rest with
           | first :: others => String c first :: others
           | [] => [String c EmptyString]
           end
  end.

(** [xs.map(f)] with a callback that may throw: the first throw ends it. *)
Fixpoint mapSettled {A B} (f : A -> Settled B) (xs : list A)
    : Settled (list B) :=
  match xs with
  | [] => Resolved []
  | x :: rest =>
      match f x with
      | Rejected e => Rejected e
      | Resolved y =>
          match mapSettled f rest with
          | Rejected e => Rejected e
          | Resolved ys => Resolved (y :: ys)
          end
      end
  end.

(** ** HTTP *)

Record Request := {
  req_url : string;
  req_method : option string;
  req_headers : list (string * string);
}.

(** What the code reads of a [fetch] response; [res_json] is what
    [response.json()] settles to. *)
Record Response := {
  res_ok : bool;
  res_status : nat;
  res_statusText : string;
  res_json : Settled JsonValue;
}.

Inductive HttpStatus := BAD_GATEWAY | INTERNAL_SERVER_ERROR | SERVICE_UNAVAILABLE.

Record HttpException := {
  http_message : string;
  http_status : HttpStatus;
}.

(** What the controller can throw: an [HttpException] of its own, or
    whatever a rejected call carried. *)
Inductive Thrown :=
| ThrownHttp (e : HttpException)
| ThrownJs (e : JsThrown).

Inductive Try (A : Type) :=
| Done (a : A)
| Failed (e : Thrown).
Arguments Done {A} a.
Arguments Failed {A} e.

(** The API keys of [process.env]. *)
Record Env := {
  ANTHROPIC_API_KEY : option string;
  OPENAI_API_KEY : option string;
  GEMINI_API_KEY : option string;
}.

(** ** openai.constants.ts *)

Definition OPENAI_MODELS : list BytebotAgentModel :=
  [ {| provider := "openai"; name := "gpt-4.1"; title := "GPT-4.1";
       contextWindow := Some 1000000%Z |};
    {| provider := "openai"; name := "gpt-4.1-mini"; title := "GPT-4.1 Mini";
       contextWindow := Some 512000%Z |} ].

(** A descriptor as the object that its literal builds: [contextWindow] is
    a property only where the literal gives one. *)
Definition modelObject (m : BytebotAgentModel) : JsonValue :=
  let fields : gmap string JsonValue :=
    {[ "provider" := JString (provider m); "name" := JString (name m);
       "title" := JString (title m) ]} in
  JObject match contextWindow m with
          | Some n => <["contextWindow" := JNumber n]> fields
          | None => fields
          end.

(** ** findAll, lines 55-61: the status filter *)

(** The two query parameters are strings where they are present, as the
    signature has them. *)
Definition statusFilter (status statuses : option string)
    : option (list string) :=
  match truthyString statuses with
  | Some s => Some (split "," s)
  | None =>
      match truthyString status with
      | Some s => Some [s]
      | None => None
      end
  end.

(** ** getModels *)

Section GetModels.
(** [String(v)] for a JSON value that is no string, and [String(err)] for a
    thrown value that is neither an [Error] nor a string: both can throw (an
    object whose [toString] is no function). *)
Variable String_json : JsonValue -> Settled string.
Variable String_thrown : JsThrown -> Settled string.
(** The model tables of anthropic.constants.ts and google.constants.ts. *)
Variables ANTHROPIC_MODELS GOOGLE_MODELS : list BytebotAgentModel.

Definition String_ (v : JsonValue) : Settled string :=
  match v with
  | JString s => Resolved s
  | _ => String_json v
  end.

(** [err instanceof Error ? err.message : String(err)] *)
Definition errorMessage (err : JsThrown) : Settled string :=
  match err with
  | JsError _ message => Resolved message
  | JsThrownString s => Resolved s
  | _ => String_thrown err
  end.

(** [!!m && typeof m === 'object' && 'litellm_params' in m] *)
Definition isProxyModelRecord (m : JsonValue) : bool :=
  match field m "litellm_params" with
  | Some _ => true
  | None => false
  end.

(** [m.litellm_params?.model] *)
Definition litellmModel (m : JsonValue) : option JsonValue :=
  params ← field m "litellm_params"; field params "model".

Definition hasLitellmModel (m : JsonValue) : bool :=
  match litellmModel m with
  | Some v => truthy v
  | None => false
  end.

Definition proxyObject (modelName : JsonValue) (title : string) : JsonValue :=
  JObject {[ "provider" := JString "proxy"; "name" := modelName;
             "title" := JString title; "contextWindow" := JNumber 128000 ]}.

(** The callback of [map], lines 96-104. *)
Definition proxyModel (m : JsonValue) : Settled JsonValue :=
  let modelName := orValue (litellmModel m) (JString "unknown") in
  match String_ (orValue (field m "model_name") modelName) with
  | Resolved title => Resolved (proxyObject modelName title)
  | Rejected e => Rejected e
  end.

(** Lines 84-104: from the body of the response to the listing. *)
Definition proxyModels (proxyJson : JsonValue) : Settled (list JsonValue) :=
  match field proxyJson "data" with
  | Some (JArray data) =>
      let safe := List.filter isProxyModelRecord data in
      mapSettled proxyModel (List.filter hasLitellmModel safe)
  | _ => Resolved []
  end.

Definition modelInfoRequest (proxyUrl : string) : Request :=
  {| req_url := proxyUrl +:+ "/model/info"; req_method := Some "GET";
     req_headers := [("Content-Type", "application/json")] |}.

(** The [try] block, lines 70-104. *)
Definition fetchProxyModels (fetch : Request -> Settled Response)
    (proxyUrl : string) : Try (list JsonValue) :=
  match fetch (modelInfoRequest proxyUrl) with
  | Rejected e => Failed (ThrownJs e)
  | Resolved response =>
      if negb (res_ok response) then
        Failed (ThrownHttp
                  {| http_message := "Failed to fetch models from proxy: "
                                     +:+ res_statusText response;
                     http_status := BAD_GATEWAY |})
      else
        match res_json response with
        | Rejected e => Failed (ThrownJs e)
        | Resolved proxyJson =>
            match proxyModels proxyJson with
            | Resolved models => Done models
            | Rejected e => Failed (ThrownJs e)
            end
        end
  end.

(** The [catch] block, lines 105-114. *)
Definition onFetchError (err : Thrown) : Try (list JsonValue) :=
  match err with
  | ThrownHttp e => Failed (ThrownHttp e)
  | ThrownJs e =>
      match errorMessage e with
      | Resolved msg =>
          Failed (ThrownHttp
                    {| http_message := "Error fetching models: " +:+ msg;
                       http_status := INTERNAL_SERVER_ERROR |})
      | Rejected e' => Failed (ThrownJs e')
      end
  end.

Definition isSet (key : option string) : bool :=
  match truthyString key with
  | Some _ => true
  | None => false
  end.

(** Lines 118-122. *)
Definition dynamicModels (env : Env) : list BytebotAgentModel :=
  (if isSet (ANTHROPIC_API_KEY env) then ANTHROPIC_MODELS else []) ++
  (if isSet (OPENAI_API_KEY env) then OPENAI_MODELS else []) ++
  (if isSet (GEMINI_API_KEY env) then GOOGLE_MODELS else []).

Definition noModelsConfigured : HttpException :=
  {| http_message :=
       "No LLM models configured. Set at least one of ANTHROPIC_API_KEY, OPENAI_API_KEY, or GEMINI_API_KEY.";
     http_status := SERVICE_UNAVAILABLE |}.

(** [getModels()]: what it returns or throws, and the requests it made.
    [proxyUrl] is [process.env.BYTEBOT_LLM_PROXY_URL] as it was when the
    module was loaded. *)
Definition getModels (proxyUrl : option string) (env : Env)
    (fetch : Request -> Settled Response)
    : Try (list JsonValue) * list Request :=
  match truthyString proxyUrl with
  | Some url =>
      (match fetchProxyModels fetch url with
       | Failed err => onFetchError err
       | Done models => Done models
       end,
       [modelInfoRequest url])
  | None =>
      (if (length (dynamicModels env) =? 0)%nat
       then Failed (ThrownHttp noModelsConfigured)
       else Done (modelObject <$> dynamicModels env),
       [])
  end.
End GetModels.

(** The [try] block of getModels throws [err], a value that is not an
    [HttpException] of its own making: the request rejects with it, or the
    answer is ok and the parsing of its body, or the conversion of a title
    in the listing, throws it. *)
Definition proxyFailsWith (String_json : JsonValue -> Settled string)
    (fetch : Request -> Settled Response) (url : string) (err : JsThrown)
    : Prop :=
  fetch (modelInfoRequest url) = Rejected err \/
  exists response,
    fetch (modelInfoRequest url) = Resolved response /\
    res_ok response = true /\
    (res_json response = Rejected err \/
     exists proxyJson,
       res_json response = Resolved proxyJson /\
       proxyModels String_json proxyJson = Rejected err).

(** ** Sample answers of a proxy *)

Definition proxyRecord (model : JsonValue) : JsonValue :=
  JObject {[ "model_name" := JString "fast";
             "litellm_params" := JObject {[ "model" := model ]} ]}.

Definition proxyListing : JsonValue :=
  JObject {[ "data" := JArray [proxyRecord (JString "gpt-4o"); JNull;
                               proxyRecord (JString "")] ]}.

Definition proxyAnswers (r : Settled Response) : Request -> Settled Response :=
  fun _ => r.

Definition listingResponse : Response :=
  {| res_ok := true; res_status := 200; res_statusText := "OK";
     res_json := Resolved proxyListing |}.

Definition unavailableResponse : Response :=
  {| res_ok := false; res_status := 503;
     res_statusText := "Service Unavailable"; res_json := Resolved JNull |}.

(** A [String] that does not throw. *)
Definition plainString {A} : A -> Settled string :=
  fun _ => Resolved "[object Object]".

Definition openaiOnly : Env :=
  {| ANTHROPIC_API_KEY := None; OPENAI_API_KEY := Some "sk-test";
     GEMINI_API_KEY := Some "" |}.

(** * The key check (verify-keys.ts) *)

Record ProviderResult := {
  pr_ok : bool;
  pr_detail : string;
}.

(** [getArrayLen(obj, key)], for the keys [data] and [models] it is called
    with. *)
Definition getArrayLen (obj : JsonValue) (key : string) : nat :=
  match field obj key with
  | Some (JArray val) => length val
  | _ => 0
  end.

(** The [catch] block of the three checks. *)
Definition caughtResult (e : JsThrown) : ProviderResult :=
  {| pr_ok := false;
     pr_detail := match e with
                  | JsError _ message => message
                  | _ => "Unknown error"
                  end |}.

(** The [try] block of the three checks, which differ in the request and in
    the key of the array they count. *)
Definition listModels (fetch : Request -> Settled Response)
    (request : Request) (arrayKey : string) : ProviderResult :=
  match fetch request with
  | Rejected e => caughtResult e
  | Resolved r =>
      if (res_status r =? 200)%nat then
        match res_json r with
        | Rejected e => caughtResult e
        | Resolved j =>
            {| pr_ok := true;
               pr_detail := "Listed " +:+ showNat (getArrayLen j arrayKey)
                            +:+ " models" |}
        end
      else {| pr_ok := false; pr_detail := "HTTP " +:+ showNat (res_status r) |}
  end.

Definition openaiRequest (key : string) : Request :=
  {| req_url := "https://api.openai.com/v1/models"; req_method := None;
     req_headers := [("Authorization", "Bearer " +:+ key)] |}.

Definition anthropicRequest (key : string) : Request :=
  {| req_url := "https://api.anthropic.com/v1/models"; req_method := None;
     req_headers := [("x-api-key", key); ("anthropic-version", "2023-06-01")] |}.

Definition geminiRequest (key : string) : Request :=
  {| req_url := "https://generativelanguage.googleapis.com/v1beta/models?key="
                +:+ key;
     req_method := None; req_headers := [] |}.

(** Each check gives its result and the requests it made. *)
Definition verifyOpenAI (env : Env) (fetch : Request -> Settled Response)
    : ProviderResult * list Request :=
  match truthyString (OPENAI_API_KEY env) with
  | None => ({| pr_ok := false; pr_detail := "Missing OPENAI_API_KEY" |}, [])
  | Some key =>
      (listModels fetch (openaiRequest key) "data", [openaiRequest key])
  end.

Definition verifyAnthropic (env : Env) (fetch : Request -> Settled Response)
    : ProviderResult * list Request :=
  match truthyString (ANTHROPIC_API_KEY env) with
  | None => ({| pr_ok := false; pr_detail := "Missing ANTHROPIC_API_KEY" |}, [])
  | Some key =>
      (listModels fetch (anthropicRequest key) "data", [anthropicRequest key])
  end.

Definition verifyGemini (env : Env) (fetch : Request -> Settled Response)
    : ProviderResult * list Request :=
  match truthyString (GEMINI_API_KEY env) with
  | None => ({| pr_ok := false; pr_detail := "Missing GEMINI_API_KEY" |}, [])
  | Some key =>
      (listModels fetch (geminiRequest key) "models", [geminiRequest key])
  end.

(** What the script does, in order. *)
Inductive ScriptEvent :=
| CreateApplicationContext
| Fetch (request : Request)
| ConsoleLog (results : list (string * ProviderResult))
| ConsoleError (err : JsThrown)
| Exit (code : nat).

(** [main().catch(...)]: the script from its start to [process.exit].
    [context] is what [NestFactory.createApplicationContext] settles to. *)
Definition main (context : Settled unit) (env : Env)
    (fetch : Request -> Settled Response) : list ScriptEvent :=
  CreateApplicationContext ::
  match context with
  | Rejected err => [ConsoleError err; Exit 1]
  | Resolved _ =>
      let openai := verifyOpenAI env fetch in
      let anthropic := verifyAnthropic env fetch in
      let gemini := verifyGemini env fetch in
      let results :=
        [("openai", openai.1); ("anthropic", anthropic.1);
         ("gemini", gemini.1)] in
      (Fetch <$> openai.2 ++ anthropic.2 ++ gemini.2) ++
      [ConsoleLog results;
       Exit (if existsb (fun r => negb (pr_ok r.2)) results then 1 else 0)]
  end.

(** The provider answers the request with status 200 and a body that
    parses. *)
Definition listsModels (fetch : Request -> Settled Response)
    (request : Request) : Prop :=
  exists r j,
    fetch request = Resolved r /\ res_status r = 200 /\
    res_json r = Resolved j.

(** * The retry logic of the VNC viewer (VncViewer.tsx) *)

Inductive ConnectionStatus :=
  StatusIdle | StatusConnecting | StatusConnected | StatusDisconnected
| StatusError.

(** The state of the component that the handlers write. *)
Record ViewerState := {
  viewer_status : ConnectionStatus;
  lastError : option string;
  attempt : nat;
  wsUrl : option string;
}.

Definition MAX_RETRIES : nat := 5.
Definition RETRY_BASE_DELAY : N := 1500.

(** [(prev) => prev ? `${prev.split("?")[0]}?r=${Date.now()}` : prev] *)
Definition refreshUrl (now : N) (prev : option string) : option string :=
  match truthyString prev with
  | Some url => Some (hd "" (split "?" url) +:+ "?r=" +:+ showN now)
  | None => prev
  end.

(** [handleDisconnect(message, willRetry)]: the state after the update, and
    the delays of the timers it set.  The component is remounted whenever
    [attempt] changes (it is part of its [key]), so the handler that an
    event reaches has the current [attempt]. *)
Definition handleDisconnect (message : string) (willRetry : bool)
    (st : ViewerState) : ViewerState * list N :=
  let st1 :=
    {| viewer_status := StatusDisconnected; lastError := Some message;
       attempt := attempt st; wsUrl := wsUrl st |} in
  if willRetry && (attempt st <? MAX_RETRIES)%nat then
    let delay := (RETRY_BASE_DELAY * 2 ^ N.of_nat (attempt st))%N in
    let nextAttempt := attempt st + 1 in
    ({| viewer_status := viewer_status st1; lastError := lastError st1;
        attempt := nextAttempt; wsUrl := wsUrl st1 |},
     [delay])
  else (st1, []).

(** The callback of the timer, at time [now]. *)
Definition retryTimer (now : N) (st : ViewerState) : ViewerState :=
  {| viewer_status := StatusConnecting; lastError := lastError st;
     attempt := attempt st; wsUrl := refreshUrl now (wsUrl st) |}.

(** [evt.detail]: a string, or anything else, with what [JSON.stringify]
    makes of it in a template. *)
Inductive Detail :=
| DetailString (s : string)
| DetailOther (json : string).

Inductive ViewerEvent :=
| OnConnect
| OnDisconnect (detail : Detail)
| OnSecurityFailure (detail : Detail)
| OnCredentialsRequired
| RetryTimer (now : N).

Definition onEvent (e : ViewerEvent) (st : ViewerState)
    : ViewerState * list N :=
  match e with
  | OnConnect =>
      ({| viewer_status := StatusConnected; lastError := None;
          attempt := attempt st; wsUrl := wsUrl st |}, [])
  | OnDisconnect detail =>
      handleDisconnect
        match detail with
        | DetailString s => s
        | DetailOther _ => "Disconnected"
        end true st
  | OnSecurityFailure detail =>
      handleDisconnect
        ("Security failure: " +:+
         match detail with
         | DetailString s => s
         | DetailOther json => json
         end) false st
  | OnCredentialsRequired =>
      ({| viewer_status := StatusError;
          lastError := Some "VNC credentials required (not provided)";
          attempt := attempt st; wsUrl := wsUrl st |}, [])
  | RetryTimer now => (retryTimer now st, [])
  end.

(** A run of events: the state it ends in and the delays of all the timers
    set on the way. *)
Fixpoint onEvents (es : list ViewerEvent) (st : ViewerState)
    : ViewerState * list N :=
  match es with
  | [] => (st, [])
  | e :: rest =>
      let (st1, timers) := onEvent e st in
      let (st2, more) := onEvents rest st1 in
      (st2, timers ++ more)
  end.

(** The component as [useState] initialises it, with its URL set. *)
Definition mountedViewer (url : string) : ViewerState :=
  {| viewer_status := StatusIdle; lastError := None; attempt := 0;
     wsUrl := Some url |}.

(** The delay of the retry after [k] attempts, and the sum of delays. *)
Definition retryDelay (k : nat) : N := (RETRY_BASE_DELAY * 2 ^ N.of_nat k)%N.

Definition totalDelay (timers : list N) : N := foldr N.add 0%N timers.

(** ** How an iteration ends *)

(** Where the operation ends with [return;], it has cleared the processing
    flag. *)
Definition returnsCleared {A} (m : M A) : Prop :=
  forall w p,
    outcome (m w p) = Return -> isProcessing (final (m w p)) = false.

(** Where the operation runs to its end with the processor still
    processing, it has asked for another iteration. *)
Definition continues {A} (m : M A) : Prop :=
  forall w p a,
    outcome (m w p) = Normal a ->
    isProcessing (final (m w p)) = true ->
    1 <= scheduled (trace (m w p)).

(** A world in which the model answers with a text and the stores work. *)
Definition chattyWorld : World :=
  sampleWorld (runningTask JNull) textAnswer.

(** ** What the model is sent *)

(** A provider call of an iteration whose message list is [messages]: the
    turn itself, with tools, or the summarization, without tools and with
    the instruction to summarize as one more message. *)
Definition modelCallOn (t : string) (messages : list Message) (e : Event)
    : Prop :=
  forall tag sp msgs n tools,
    e = GenerateMessage tag sp msgs n tools ->
    (tools = true /\ sp = AGENT_SYSTEM_PROMPT /\ msgs = messages) \/
    (tools = false /\ sp = SUMMARIZATION_SYSTEM_PROMPT /\
     exists ts, msgs = messages ++ [syntheticMessage ts t summarizeInstruction]).

(** The degraded processor when the task has been taken up again. *)
Definition resumedDegradedProcessor : AgentProcessor :=
  final (processTask "T" chattyWorld degradedProcessor).

(** * Properties *)

(** ** The model descriptor *)

Lemma inferProvider_known n : In (inferProvider n) knownProviders.
Proof.
  unfold inferProvider, knownProviders.
  repeat case_match; simpl; tauto.
Qed.

Lemma startsWith_comparable s p q :
  startsWith s p = true -> startsWith s q = true ->
  startsWith p q = true \/ startsWith q p = true.
Proof.
  unfold startsWith. revert p q.
  induction s as [|a s IH]; intros [|c p] [|d q]; simpl; auto;
    try discriminate.
  destruct (Ascii.ascii_dec c a) as [->|]; [|discriminate].
  destruct (Ascii.ascii_dec d a) as [->|]; [|discriminate].
  destruct (Ascii.ascii_dec a a); [|done]. apply IH.
Qed.

Lemma startsWith_exclusive s p q :
  startsWith p q = false -> startsWith q p = false ->
  startsWith s p = true -> startsWith s q = false.
Proof.
  intros Hpq Hqp Hp. destruct (startsWith s q) eqn:Hq; [|done].
  destruct (startsWith_comparable s p q Hp Hq); congruence.
Qed.

(** C3, as amended: the resolver always yields a descriptor, and its
    provider tag is one of anthropic, openai, google and proxy unless the
    persisted value is an object with a string [provider] and a string
    [name], whose provider string is then taken over as it is. *)
Theorem resolveModel_provider (rawModel : JsonValue) :
  namesProvider rawModel (provider (resolveModel rawModel)) \/
  In (provider (resolveModel rawModel)) knownProviders.
Proof.
  destruct rawModel as [| | | s | |obj];
    try (right; simpl; tauto).
  - right. apply inferProvider_known.
  - simpl.
    destruct (asString (obj !! "provider")) as [p|] eqn:Hp;
      destruct (asString (obj !! "name")) as [n|] eqn:Hn; simpl.
    + left. by exists obj, n.
    + right. tauto.
    + right. apply inferProvider_known.
    + right. tauto.
Qed.

(** C3, the counterexample: an object naming the provider "foo" resolves to
    a descriptor whose tag is none of the four. *)
Lemma resolveModel_unknown_provider :
  ~ (forall rawModel, In (provider (resolveModel rawModel)) knownProviders).
Proof.
  intros H. specialize (H strayModel). vm_compute in H.
  repeat destruct H as [H|H]; try discriminate H. exact H.
Qed.

Lemma bareName_resolve rawModel n :
  bareName rawModel n ->
  name (resolveModel rawModel) = n /\
  provider (resolveModel rawModel) = inferProvider n.
Proof.
  intros [->|(obj & -> & Hp & Hn)]; [done|].
  simpl. by rewrite Hp, Hn.
Qed.

Lemma unusable_resolve rawModel :
  ~ usableModel rawModel -> resolveModel rawModel = defaultModel.
Proof.
  intros Hno. destruct rawModel as [| | | s | |obj]; try done.
  - destruct Hno. left. by exists s.
  - simpl. destruct (asString (obj !! "name")) as [n|] eqn:Hn.
    + destruct Hno. right. by exists obj, n.
    + by destruct (asString (obj !! "provider")).
Qed.

(** C9: a bare model name is resolved by its prefix, first match first:
    claude gives anthropic, gemini gives google, gpt- or (for a name with
    neither of the two earlier prefixes) the substring openai gives openai,
    anything else gives proxy; and a value that is neither a string nor an
    object with a string [name] gives the default descriptor. *)
Theorem resolveModel_bare_name (rawModel : JsonValue) :
  (forall n, bareName rawModel n ->
     let tag := provider (resolveModel rawModel) in
     name (resolveModel rawModel) = n /\
     (startsWith n "claude" = true -> tag = "anthropic") /\
     (startsWith n "gemini" = true -> tag = "google") /\
     (startsWith n "gpt-" = true -> tag = "openai") /\
     (includes n "openai" = true ->
      startsWith n "claude" = false -> startsWith n "gemini" = false ->
      tag = "openai") /\
     (startsWith n "claude" = false -> startsWith n "gemini" = false ->
      startsWith n "gpt-" = false -> includes n "openai" = false ->
      tag = "proxy")) /\
  (~ usableModel rawModel ->
   resolveModel rawModel =
     {| provider := "openai"; name := "gpt-4.1-mini";
        title := "gpt-4.1-mini"; contextWindow := None |}).
Proof.
  split; [|apply unusable_resolve].
  intros n Hbare. destruct (bareName_resolve _ _ Hbare) as [Hname Htag].
  cbv zeta. rewrite Htag. split; [done|]. unfold inferProvider.
  repeat split.
  - by intros ->.
  - intros Hg.
    rewrite (startsWith_exclusive n "gemini" "claude") by done.
    by rewrite Hg.
  - intros Hg.
    rewrite (startsWith_exclusive n "gpt-" "claude") by done.
    rewrite (startsWith_exclusive n "gpt-" "gemini") by done.
    by rewrite Hg.
  - intros Hi -> ->. by rewrite Hi, orb_true_r.
  - by intros -> -> -> ->.
Qed.

Lemma resolveModel_bare_name_witness :
  provider (resolveModel (JString "claude-3-sonnet")) = "anthropic" /\
  resolveModel (JNumber 42) = defaultModel.
Proof.
  split.
  - destruct (resolveModel_bare_name (JString "claude-3-sonnet")) as [H _].
    destruct (H "claude-3-sonnet") as (_ & Hclaude & _); [by left|].
    by apply Hclaude.
  - destruct (resolveModel_bare_name (JNumber 42)) as [_ H].
    apply H. intros [[n Hn]|(obj & n & Hn & _)]; discriminate Hn.
Defined.

(** ** Relating the state before and after an operation *)

Section Preservation.
Context (R : AgentProcessor -> AgentProcessor -> Prop).
Context `{!Reflexive R, !Transitive R}.

Lemma preserves_mret {A} (a : A) : preserves R (mret a).
Proof. intros w p. apply reflexivity. Qed.

Lemma preserves_return {A} : preserves R (@return_ A).
Proof. intros w p. apply reflexivity. Qed.

Lemma preserves_throw {A} e : preserves R (@throw A e).
Proof. intros w p. apply reflexivity. Qed.

Lemma preserves_gets {A} (f : AgentProcessor -> A) : preserves R (gets f).
Proof. intros w p. apply reflexivity. Qed.

Lemma preserves_asks {A} (f : World -> A) : preserves R (asks f).
Proof. intros w p. apply reflexivity. Qed.

Lemma preserves_emit e : preserves R (emit e).
Proof. intros w p. apply reflexivity. Qed.

Lemma preserves_await {A} e (answer : World -> Settled A) :
  preserves R (await e answer).
Proof.
  intros w p. unfold await, final.
  destruct (answer w); apply reflexivity.
Qed.

Lemma preserves_modify f : (forall p, R p (f p)) -> preserves R (modify f).
Proof. intros Hf w p. apply Hf. Qed.

Lemma preserves_bind {A B} (m : M A) (k : A -> M B) :
  preserves R m -> (forall a, preserves R (k a)) -> preserves R (m ≫= k).
Proof.
  intros Hm Hk w p. specialize (Hm w p).
  unfold mbind, M_bind, final in *.
  destruct (m w p) as [[[a| |e] p1] tr1]; simpl in *; try done.
  specialize (Hk a w p1). unfold final in Hk.
  destruct (k a w p1) as [[c p2] tr2]; simpl in *.
  by etransitivity.
Qed.

Lemma preserves_try_catch {A} (m : M A) (h : JsThrown -> M A) :
  preserves R m -> (forall e, preserves R (h e)) ->
  preserves R (try_catch m h).
Proof.
  intros Hm Hh w p. specialize (Hm w p).
  unfold try_catch, final in *.
  destruct (m w p) as [[[a| |e] p1] tr1]; simpl in *; try done.
  specialize (Hh e w p1). unfold final in Hh.
  destruct (h e w p1) as [[c p2] tr2]; simpl in *.
  by etransitivity.
Qed.

Lemma preserves_async (m : M unit) : preserves R m -> preserves R (async m).
Proof.
  intros Hm w p. specialize (Hm w p). unfold async, final in *.
  by destruct (m w p) as [[[a| |e] p1] tr1].
Qed.

Lemma preserves_when c (m : M unit) :
  preserves R m -> preserves R (when c m).
Proof. intros Hm. destruct c; [done|apply preserves_mret]. Qed.

Lemma preserves_service_generateMessage service sp msgs n tools :
  preserves R (service_generateMessage service sp msgs n tools).
Proof.
  destruct service; [apply preserves_await|apply preserves_throw].
Qed.

End Preservation.

Create HintDb processor.

Ltac run_monad :=
  unfold tasks_findById, tasks_update, tasks_create, summaries_findLatest,
    summaries_create, messages_findUnsummarized, messages_create,
    messages_attachSummary, async, try_catch, when, await, mbind, M_bind,
    mret, M_ret, gets, asks, modify, emit, return_, throw.

Ltac solve_order :=
  try lazymatch goal with
      | |- Reflexive _ => apply _
      | |- Transitive _ => apply _
      end.

Ltac papply lem := apply lem; solve_order.

Ltac preserve :=
  repeat first
    [ lazymatch goal with
      | |- Reflexive _ => apply _
      | |- Transitive _ => apply _
      | |- forall _, _ => intro
      end
    | apply preserves_mret | apply preserves_return | apply preserves_throw
    | apply preserves_gets | apply preserves_asks | apply preserves_emit
    | apply preserves_await | apply preserves_service_generateMessage
    | apply preserves_modify; solve [auto with processor]
    | apply preserves_bind
    | apply preserves_try_catch
    | apply preserves_async | apply preserves_when
    | progress cbv zeta
    | match goal with
      | |- preserves _ (if ?c then _ else _) => destruct c
      | |- preserves _ (match ?x with _ => _ end) => destruct x
      end ].

Section IterationPreserves.
Context (R : AgentProcessor -> AgentProcessor -> Prop).
Context `{!Reflexive R, !Transitive R}.

(** The assignments that runIteration makes. *)
Hypothesis R_clearProcessing : forall p, R p (clearProcessing p).
Hypothesis R_newAbortController :
  forall p, R p (set_abortController newAbortController p).
Hypothesis R_computerToolFailures :
  forall p t n,
    R p (set_computerToolFailures (<[t:=n]> (computerToolFailures p)) p).
Hypothesis R_computerToolsDisabled :
  forall p t,
    R p (set_computerToolsDisabled (<[t:=true]> (computerToolsDisabled p)) p).

Lemma dispatchBlock_preserves t task block st :
  preserves R (dispatchBlock t task block st).
Proof.
  unfold dispatchBlock, dispatchComputerTool, dispatchCreateTask,
    tasks_update, tasks_create.
  preserve.
Qed.

Lemma dispatchBlocks_preserves t task blocks st :
  preserves R (dispatchBlocks t task blocks st).
Proof.
  revert st. induction blocks as [|block rest IH]; intros st; simpl.
  - papply preserves_mret.
  - papply preserves_bind; [papply dispatchBlock_preserves|done].
Qed.

Lemma dispatch_preserves t task blocks :
  preserves R (dispatch t task blocks).
Proof.
  unfold dispatch. papply preserves_bind; [papply dispatchBlocks_preserves|].
  intros st.
  unfold afterBlocks, applyTaskStatus, messages_create, tasks_update.
  preserve.
Qed.

Lemma consultModel_preserves t task m messages :
  preserves R (consultModel t task m messages).
Proof.
  unfold consultModel.
  destruct (services _) as [service|]; [|unfold tasks_update; preserve].
  papply preserves_bind;
    [unfold callModel, tasks_update; preserve|intros agentResponse].
  cbv zeta.
  destruct (_ =? _)%nat; [unfold tasks_update; preserve|].
  papply preserves_bind; [papply preserves_await|intros _].
  papply preserves_bind; [|intros _; papply dispatch_preserves].
  unfold summarize, summaries_create, messages_attachSummary. preserve.
Qed.

Lemma iterationBody_preserves t : preserves R (iterationBody t).
Proof.
  unfold iterationBody.
  papply preserves_bind; [papply preserves_await|]. intros task.
  destruct (negb (isRunning (status task))); [preserve|].
  do 5 (papply preserves_bind; [preserve|intros]).
  papply consultModel_preserves.
Qed.

(** The assignments that the catch block makes. *)
Hypothesis R_retryCounts_insert :
  forall p t n, R p (set_retryCounts (<[t:=n]> (retryCounts p)) p).
Hypothesis R_retryCounts_delete :
  forall p t, R p (set_retryCounts (delete t (retryCounts p)) p).

Lemma iterationHandler_preserves t err :
  preserves R (iterationHandler t err).
Proof. unfold iterationHandler, tasks_update. preserve. Qed.

Lemma runIteration_preserves t : preserves R (runIteration t).
Proof.
  unfold runIteration. papply preserves_async.
  papply preserves_bind; [papply preserves_gets|intros processing].
  destruct (negb processing); [papply preserves_return|].
  papply preserves_try_catch;
    [papply iterationBody_preserves|papply iterationHandler_preserves].
Qed.

Lemma retryCallback_preserves t : preserves R (retryCallback t).
Proof.
  unfold retryCallback.
  papply preserves_bind; [papply preserves_gets|intros holds].
  papply preserves_when; papply preserves_try_catch;
    [papply runIteration_preserves|intros; papply preserves_mret].
Qed.
End IterationPreserves.

(** ** Every operation of the processor *)

Section OperationPreserves.
Context (R : AgentProcessor -> AgentProcessor -> Prop).
Context `{!Reflexive R, !Transitive R}.

Hypothesis R_clearProcessing : forall p, R p (clearProcessing p).
Hypothesis R_newAbortController :
  forall p, R p (set_abortController newAbortController p).
Hypothesis R_abortSignal : forall p, R p (abortSignal p).
Hypothesis R_start :
  forall p t,
    R p (set_abortController newAbortController (markProcessing t p)).
Hypothesis R_computerToolFailures :
  forall p t n,
    R p (set_computerToolFailures (<[t:=n]> (computerToolFailures p)) p).
Hypothesis R_computerToolsDisabled :
  forall p t,
    R p (set_computerToolsDisabled (<[t:=true]> (computerToolsDisabled p)) p).
Hypothesis R_retryCounts_insert :
  forall p t n, R p (set_retryCounts (<[t:=n]> (retryCounts p)) p).
Hypothesis R_retryCounts_delete :
  forall p t, R p (set_retryCounts (delete t (retryCounts p)) p).

Lemma processTask_preserves t : preserves R (processTask t).
Proof.
  intros w p.
  unfold processTask, async, final, mbind, M_bind, gets, modify, emit,
    return_.
  destruct (isProcessing p); simpl; [apply reflexivity|apply R_start].
Qed.

Lemma abort_preserves : preserves R abort.
Proof. unfold abort. preserve. Qed.

Lemma stopProcessing_preserves : preserves R stopProcessing.
Proof.
  unfold stopProcessing.
  papply preserves_async; papply preserves_bind; [preserve|intros processing].
  destruct (negb processing); [preserve|].
  papply preserves_bind; [apply abort_preserves|intros _]. preserve.
Qed.

Lemma perform_preserves op : preserves R (perform op).
Proof.
  destruct op as [t|t|t|t| |t|t]; simpl.
  - apply processTask_preserves.
  - unfold handleTaskTakeover.
    papply preserves_async; papply preserves_bind; [preserve|intros holds].
    papply preserves_bind; [|preserve].
    papply preserves_when; apply abort_preserves.
  - unfold handleTaskResume. preserve.
  - papply preserves_async; apply stopProcessing_preserves.
  - apply stopProcessing_preserves.
  - papply runIteration_preserves; auto.
  - papply retryCallback_preserves; auto.
Qed.
End OperationPreserves.

(** ** The singleton state *)

Local Instance keepsInvariant_refl : Reflexive keepsInvariant.
Proof. intros p Hp. exact Hp. Qed.

Local Instance keepsInvariant_trans : Transitive keepsInvariant.
Proof. intros p q r Hpq Hqr Hp. apply Hqr, Hpq, Hp. Qed.

Lemma processingInvariant_initial : processingInvariant initialProcessor.
Proof. split; simpl; [split|]; (done || discriminate). Qed.

Lemma keepsInvariant_clearProcessing p : keepsInvariant p (clearProcessing p).
Proof. intros _. split; simpl; [split|]; (done || discriminate). Qed.

Lemma keepsInvariant_newAbortController p :
  keepsInvariant p (set_abortController newAbortController p).
Proof. intros [Hflags _]. split; simpl; [done|]. discriminate. Qed.

Lemma keepsInvariant_abortSignal p : keepsInvariant p (abortSignal p).
Proof.
  intros Hinv. unfold abortSignal.
  destruct (abortController p) eqn:Hc; [|done].
  destruct Hinv as [Hflags _]. split; simpl; [done|]. discriminate.
Qed.

Lemma keepsInvariant_computerToolFailures p m :
  keepsInvariant p (set_computerToolFailures m p).
Proof. by intros Hinv. Qed.

Lemma keepsInvariant_computerToolsDisabled p m :
  keepsInvariant p (set_computerToolsDisabled m p).
Proof. by intros Hinv. Qed.

Lemma keepsInvariant_retryCounts p m : keepsInvariant p (set_retryCounts m p).
Proof. by intros Hinv. Qed.

#[local] Hint Resolve keepsInvariant_clearProcessing
  keepsInvariant_newAbortController keepsInvariant_abortSignal
  keepsInvariant_computerToolFailures keepsInvariant_computerToolsDisabled
  keepsInvariant_retryCounts : processor.

Lemma keepsInvariant_start p t :
  keepsInvariant p
    (set_abortController newAbortController (markProcessing t p)).
Proof. intros _. split; simpl; [split|]; (done || discriminate). Qed.

Lemma perform_keepsInvariant op : preserves keepsInvariant (perform op).
Proof.
  papply perform_preserves; auto using keepsInvariant_start with processor.
Qed.

Lemma reachable_processingInvariant p : reachable p -> processingInvariant p.
Proof.
  induction 1 as [|p op w _ IH].
  - apply processingInvariant_initial.
  - by apply perform_keepsInvariant.
Qed.

(** C4, as amended: in every state the processor can reach, before and
    after every iteration and every lifecycle operation, [isProcessing]
    holds exactly when [currentTaskId] is set, and a processor that is
    processing has a cancellation handle. *)
Theorem processingInvariant_kept op w p (Hp : reachable p) :
  processingInvariant p /\ processingInvariant (final (perform op w p)).
Proof.
  split.
  - by apply reachable_processingInvariant.
  - by apply perform_keepsInvariant, reachable_processingInvariant.
Qed.

Lemma processingInvariant_kept_witness :
  reachable initialProcessor /\ processingInvariant startedProcessor.
Proof.
  split; [apply reachable_initial|].
  exact (proj2 (processingInvariant_kept (OpProcessTask "T")
                  (sampleWorld (runningTask JNull) textAnswer)
                  initialProcessor reachable_initial)).
Defined.

(** C4, the counterexample: after [processTask] and [stopProcessing] the
    processor is idle and still holds the cancellation handle that
    [processTask] allocated, so the three-way equivalence fails. *)
Lemma singletonInvariant_broken :
  reachable stoppedProcessor /\ ~ singletonInvariant stoppedProcessor.
Proof.
  split.
  - apply (reachable_step _ OpStopProcessing).
    apply (reachable_step _ (OpProcessTask "T")), reachable_initial.
  - intros [_ [_ Hhandle]].
    assert (currentTaskId stoppedProcessor <> None) as Hcur
      by (apply Hhandle; vm_compute; discriminate).
    by apply Hcur.
Qed.

(** ** Running the catch block *)

Lemma runIteration_idle t w p :
  isProcessing p = false -> runIteration t w p = (Normal tt, p, []).
Proof.
  intros Hidle.
  unfold runIteration, async, mbind, M_bind, gets, return_.
  by rewrite Hidle.
Qed.

Lemma iterationHandler_retry t e w p :
  isInterrupt e = true ->
  retryCount t p < MAX_INTERRUPT_RETRIES ->
  iterationHandler t e w p =
    (Return,
     set_retryCounts (<[t := retryCount t p + 1]> (retryCounts p)) p,
     [SetTimeout t 500]).
Proof.
  intros Hint Hlt. apply Nat.ltb_lt in Hlt.
  unfold iterationHandler, mbind, M_bind, gets, modify, emit, return_.
  rewrite Hint. fold (retryCount t p). by rewrite Hlt.
Qed.

Lemma iterationHandler_exhausted t e w p :
  isInterrupt e = true ->
  MAX_INTERRUPT_RETRIES <= retryCount t p ->
  update w t (needsHelpUpdate (Some interruptedText)) = Resolved tt ->
  iterationHandler t e w p =
    (Normal tt,
     clearProcessing (set_retryCounts (delete t (retryCounts p)) p),
     [TasksUpdate t (needsHelpUpdate (Some interruptedText))]).
Proof.
  intros Hint Hge Hupd. apply Nat.ltb_ge in Hge.
  unfold iterationHandler, tasks_update, await, mbind, M_bind, gets, modify.
  rewrite Hint. fold (retryCount t p). by rewrite Hge, Hupd.
Qed.


(** ** Relating the states when an operation does not return early *)

Section UnlessReturn.
Context (R : AgentProcessor -> AgentProcessor -> Prop).
Context `{!Reflexive R, !Transitive R}.

Lemma unlessReturn_preserves {A} (m : M A) :
  preserves R m -> unlessReturn R m.
Proof. intros Hm w p _. apply Hm. Qed.

Lemma unlessReturn_return {A} : unlessReturn R (@return_ A).
Proof. by intros w p Hne. Qed.

Lemma unlessReturn_modify_return {A} f :
  unlessReturn R (modify f ≫= λ _, @return_ A).
Proof. by intros w p Hne. Qed.

Lemma unlessReturn_bind {A B} (m : M A) (k : A -> M B) :
  unlessReturn R m -> (forall a, unlessReturn R (k a)) ->
  unlessReturn R (m ≫= k).
Proof.
  intros Hm Hk w p. specialize (Hm w p).
  unfold mbind, M_bind, final, outcome in *.
  destruct (m w p) as [[[a| |e] p1] tr1]; simpl in *; try done.
  - specialize (Hk a w p1). unfold final, outcome in Hk.
    destruct (k a w p1) as [[c p2] tr2]; simpl in *.
    intros Hne. etransitivity; [by apply Hm|by apply Hk].
  - intros _. by apply Hm.
Qed.

Lemma unlessReturn_try_catch {A} (m : M A) (h : JsThrown -> M A) :
  unlessReturn R m -> (forall e, unlessReturn R (h e)) ->
  unlessReturn R (try_catch m h).
Proof.
  intros Hm Hh w p. specialize (Hm w p).
  unfold try_catch, final, outcome in *.
  destruct (m w p) as [[[a| |e] p1] tr1]; simpl in *; try done.
  specialize (Hh e w p1). unfold final, outcome in Hh.
  destruct (h e w p1) as [[c p2] tr2]; simpl in *.
  intros Hne. etransitivity; [by apply Hm|by apply Hh].
Qed.

Lemma unlessReturn_when c (m : M unit) :
  unlessReturn R m -> unlessReturn R (when c m).
Proof.
  intros Hm. destruct c; [done|].
  apply unlessReturn_preserves, preserves_mret; apply _.
Qed.
End UnlessReturn.

Ltac unless_return :=
  repeat first
    [ lazymatch goal with
      | |- Reflexive _ => apply _
      | |- Transitive _ => apply _
      | |- forall _, _ => intro
      end
    | apply unlessReturn_return
    | apply unlessReturn_modify_return
    | apply unlessReturn_bind
    | apply unlessReturn_try_catch
    | apply unlessReturn_when
    | apply unlessReturn_preserves; solve [preserve]
    | progress cbv zeta
    | match goal with
      | |- unlessReturn _ (if ?c then _ else _) => destruct c
      | |- unlessReturn _ (match ?x with _ => _ end) => destruct x
      end ].

Section BodyKeepsProcessing.
Local Instance sameProcessing_refl : Reflexive sameProcessing.
Proof. by intros p. Qed.

Local Instance sameProcessing_trans : Transitive sameProcessing.
Proof. intros p q r [? ?] [? ?]. split; congruence. Qed.

Lemma sameProcessing_abortController p c :
  sameProcessing p (set_abortController c p).
Proof. done. Qed.

Lemma sameProcessing_computerToolFailures p m :
  sameProcessing p (set_computerToolFailures m p).
Proof. done. Qed.

Lemma sameProcessing_computerToolsDisabled p m :
  sameProcessing p (set_computerToolsDisabled m p).
Proof. done. Qed.

Local Hint Resolve sameProcessing_abortController
  sameProcessing_computerToolFailures
  sameProcessing_computerToolsDisabled : processor.

Lemma dispatchBlocks_sameProcessing t task blocks st :
  unlessReturn sameProcessing (dispatchBlocks t task blocks st).
Proof.
  revert st. induction blocks as [|block rest IH]; intros st; simpl.
  - unless_return.
  - apply unlessReturn_bind; [apply _| |done].
    unfold dispatchBlock, dispatchComputerTool, dispatchCreateTask,
      tasks_update, tasks_create.
    unless_return.
Qed.

Lemma consultModel_sameProcessing t task m messages :
  unlessReturn sameProcessing (consultModel t task m messages).
Proof.
  unfold consultModel.
  destruct (services _) as [service|]; [|unfold tasks_update; unless_return].
  apply unlessReturn_bind;
    [apply _|unfold callModel, tasks_update; unless_return
    |intros agentResponse].
  cbv zeta.
  destruct (_ =? _)%nat; [unfold tasks_update; unless_return|].
  apply unlessReturn_bind; [apply _|unless_return|intros _].
  apply unlessReturn_bind; [apply _| |intros _].
  - unfold summarize, summaries_create, messages_attachSummary.
    unless_return.
  - unfold dispatch.
    apply unlessReturn_bind;
      [apply _|apply dispatchBlocks_sameProcessing|intros st].
    unfold afterBlocks, applyTaskStatus, messages_create, tasks_update.
unless_return.
Qed.

Lemma iterationBody_sameProcessing t :
  unlessReturn sameProcessing (iterationBody t).
Proof.
  unfold iterationBody.
  apply unlessReturn_bind; [apply _|unless_return|]. intros task.
  destruct (negb (isRunning (status task))); [unless_return|].
  do 5 (apply unlessReturn_bind; [apply _|unless_return|intros]).
  apply consultModel_sameProcessing.
Qed.
End BodyKeepsProcessing.

(** ** The calls an operation makes *)

Section EmitsOnly.
Context (P : Event -> Prop).

Lemma emitsOnly_mret {A} (a : A) : emitsOnly P (mret a).
Proof. intros w p. constructor. Qed.

Lemma emitsOnly_return {A} : emitsOnly P (@return_ A).
Proof. intros w p. constructor. Qed.

Lemma emitsOnly_throw {A} e : emitsOnly P (@throw A e).
Proof. intros w p. constructor. Qed.

Lemma emitsOnly_gets {A} (f : AgentProcessor -> A) : emitsOnly P (gets f).
Proof. intros w p. constructor. Qed.

Lemma emitsOnly_asks {A} (f : World -> A) : emitsOnly P (asks f).
Proof. intros w p. constructor. Qed.

Lemma emitsOnly_modify f : emitsOnly P (modify f).
Proof. intros w p. constructor. Qed.

Lemma emitsOnly_emit e : P e -> emitsOnly P (emit e).
Proof. intros He w p. by repeat constructor. Qed.

Lemma emitsOnly_await {A} e (answer : World -> Settled A) :
  P e -> emitsOnly P (await e answer).
Proof.
  intros He w p. unfold await, trace.
  destruct (answer w); by repeat constructor.
Qed.

Lemma emitsOnly_service_generateMessage service sp msgs n tools :
  (forall tag, service = Registered tag ->
               P (GenerateMessage tag sp msgs n tools)) ->
  emitsOnly P (service_generateMessage service sp msgs n tools).
Proof.
  intros He. destruct service as [tag|]; simpl.
  - apply emitsOnly_await. by apply He.
  - apply emitsOnly_throw.
Qed.

Lemma emitsOnly_bind {A B} (m : M A) (k : A -> M B) :
  emitsOnly P m -> (forall a, emitsOnly P (k a)) -> emitsOnly P (m ≫= k).
Proof.
  intros Hm Hk w p. specialize (Hm w p).
  unfold mbind, M_bind, trace in *.
  destruct (m w p) as [[[a| |e] p1] tr1]; simpl in *; try done.
  specialize (Hk a w p1). unfold trace in Hk.
  destruct (k a w p1) as [[c p2] tr2]; simpl in *.
  apply Forall_app. by split.
Qed.

Lemma emitsOnly_try_catch {A} (m : M A) (h : JsThrown -> M A) :
  emitsOnly P m -> (forall e, emitsOnly P (h e)) ->
  emitsOnly P (try_catch m h).
Proof.
  intros Hm Hh w p. specialize (Hm w p).
  unfold try_catch, trace in *.
  destruct (m w p) as [[[a| |e] p1] tr1]; simpl in *; try done.
  specialize (Hh e w p1). unfold trace in Hh.
  destruct (h e w p1) as [[c p2] tr2]; simpl in *.
  apply Forall_app. by split.
Qed.

Lemma emitsOnly_async (m : M unit) : emitsOnly P m -> emitsOnly P (async m).
Proof.
  intros Hm w p. specialize (Hm w p). unfold async, trace in *.
  by destruct (m w p) as [[[a| |e] p1] tr1].
Qed.

Lemma emitsOnly_when c (m : M unit) :
  emitsOnly P m -> emitsOnly P (when c m).
Proof. intros Hm. destruct c; [done|apply emitsOnly_mret]. Qed.
End EmitsOnly.

Lemma emitsOnly_impl {A} (P Q : Event -> Prop) (m : M A) :
  (forall e, P e -> Q e) -> emitsOnly P m -> emitsOnly Q m.
Proof. intros HPQ Hm w p. eapply Forall_impl; [apply Hm|done]. Qed.

Ltac emits leaf :=
  repeat first
    [ lazymatch goal with
      | |- forall _, _ => intro
      end
    | apply emitsOnly_mret | apply emitsOnly_return | apply emitsOnly_throw
    | apply emitsOnly_gets | apply emitsOnly_asks | apply emitsOnly_modify
    | apply emitsOnly_emit; solve [leaf]
    | apply emitsOnly_await; solve [leaf]
    | apply emitsOnly_service_generateMessage; solve [leaf]
    | apply emitsOnly_bind
    | apply emitsOnly_try_catch
    | apply emitsOnly_async | apply emitsOnly_when
    | progress cbv zeta
    | match goal with
      | |- emitsOnly _ (if ?c then _ else _) => destruct c
      | |- emitsOnly _ (match ?x with _ => _ end) => destruct x
      end ].

Lemma dispatchBlock_emits t task block st :
  emitsOnly (λ e, isDispatchEvent e = true) (dispatchBlock t task block st).
Proof.
  unfold dispatchBlock, dispatchComputerTool, dispatchCreateTask,
    tasks_update, tasks_create.
  emits ltac:(intros; reflexivity).
Qed.

Lemma dispatchBlocks_emits t task blocks st :
  emitsOnly (λ e, isDispatchEvent e = true) (dispatchBlocks t task blocks st).
Proof.
  revert st. induction blocks as [|block rest IH]; intros st; simpl.
  - apply emitsOnly_mret.
  - apply emitsOnly_bind; [apply dispatchBlock_emits|done].
Qed.

Lemma dispatch_emits t task blocks :
  emitsOnly (λ e, isDispatchEvent e = true) (dispatch t task blocks).
Proof.
  unfold dispatch. apply emitsOnly_bind; [apply dispatchBlocks_emits|].
  intros st.
  unfold afterBlocks, applyTaskStatus, messages_create, tasks_update.
  emits ltac:(intros; reflexivity).
Qed.

Lemma iterationHandler_emits t err :
  emitsOnly (λ e, isHandlerEvent e = true) (iterationHandler t err).
Proof.
  unfold iterationHandler, tasks_update. emits ltac:(intros; reflexivity).
Qed.

Lemma consultModel_no_retry t task m messages :
  emitsOnly (λ e, isRetry e = false) (consultModel t task m messages).
Proof.
  unfold consultModel.
  destruct (services _) as [service|];
    [|unfold tasks_update; emits ltac:(intros; reflexivity)].
  apply emitsOnly_bind;
    [unfold callModel, tasks_update; emits ltac:(intros; reflexivity)|].
  intros agentResponse. cbv zeta.
  destruct (_ =? _)%nat;
    [unfold tasks_update; emits ltac:(intros; reflexivity)|].
  apply emitsOnly_bind; [emits ltac:(intros; reflexivity)|intros _].
  apply emitsOnly_bind; [|intros _].
  - unfold summarize, summaries_create, messages_attachSummary.
    emits ltac:(intros; reflexivity).
  - eapply emitsOnly_impl; [|apply dispatch_emits].
    by intros [].
Qed.

Lemma iterationBody_no_retry t :
  emitsOnly (λ e, isRetry e = false) (iterationBody t).
Proof.
  unfold iterationBody.
  apply emitsOnly_bind; [emits ltac:(intros; reflexivity)|]. intros task.
  destruct (negb (isRunning (status task)));
    [emits ltac:(intros; reflexivity)|].
  do 5 (apply emitsOnly_bind; [emits ltac:(intros; reflexivity)|intros]).
  apply consultModel_no_retry.
Qed.

Lemma retriesScheduled_app tr1 tr2 :
  retriesScheduled (tr1 ++ tr2) = retriesScheduled tr1 + retriesScheduled tr2.
Proof.
  unfold retriesScheduled. by rewrite List.filter_app, length_app.
Qed.

Lemma retriesScheduled_none tr :
  Forall (λ e, isRetry e = false) tr -> retriesScheduled tr = 0.
Proof.
  unfold retriesScheduled. induction 1 as [|e tr He _ IH]; [done|].
  simpl. by rewrite He.
Qed.

(** ** Interrupts and retries *)

Local Instance sameRetryCounts_refl : Reflexive sameRetryCounts.
Proof. by intros p. Qed.

Local Instance sameRetryCounts_trans : Transitive sameRetryCounts.
Proof. intros p q r Hpq Hqr. unfold sameRetryCounts in *. congruence. Qed.

Lemma iterationBody_sameRetryCounts t :
  preserves sameRetryCounts (iterationBody t).
Proof. papply iterationBody_preserves; done. Qed.

Lemma runIteration_catch_state t w p e p1 tr1 :
  isProcessing p = true ->
  iterationBody t w p = (Throw e, p1, tr1) ->
  final (runIteration t w p) = final (iterationHandler t e w p1) /\
  trace (runIteration t w p) = tr1 ++ trace (iterationHandler t e w p1) /\
  (outcome (iterationHandler t e w p1) = Return ->
   outcome (runIteration t w p) = Normal tt).
Proof.
  intros Hproc Hbody.
  unfold runIteration, async, try_catch, mbind, M_bind, gets, final, trace,
    outcome.
  rewrite Hproc. simpl. rewrite Hbody.
  by destruct (iterationHandler t e w p1) as [[[[]| |e'] p2] tr2].
Qed.

Lemma raises_body t w p e :
  raises t w p e ->
  exists p1 tr1,
    iterationBody t w p = (Throw e, p1, tr1) /\
    retryCounts p1 = retryCounts p /\
    isProcessing p1 = true /\
    currentTaskId p1 = currentTaskId p /\
    retriesScheduled tr1 = 0.
Proof.
  intros [Hproc Hthrow].
  pose proof (iterationBody_sameRetryCounts t w p) as Hretry.
  pose proof (iterationBody_sameProcessing t w p) as Hsame.
  pose proof (iterationBody_no_retry t w p) as Hnone.
  unfold outcome, final, trace, sameRetryCounts in *.
  destruct (iterationBody t w p) as [[c p1] tr1]; simpl in *. subst c.
  destruct Hsame as [Hflag Hcur]; [done|].
  exists p1, tr1. repeat split; try done.
  - congruence.
  - by apply retriesScheduled_none.
Qed.

Lemma iterationHandler_exhausted_rejected t e e' w p :
  isInterrupt e = true ->
  MAX_INTERRUPT_RETRIES <= retryCount t p ->
  update w t (needsHelpUpdate (Some interruptedText)) = Rejected e' ->
  iterationHandler t e w p =
    (Throw e', p, [TasksUpdate t (needsHelpUpdate (Some interruptedText))]).
Proof.
  intros Hint Hge Hupd. apply Nat.ltb_ge in Hge.
  unfold iterationHandler, tasks_update, await, mbind, M_bind, gets, modify.
  rewrite Hint. fold (retryCount t p). by rewrite Hge, Hupd.
Qed.

Lemma retryCount_same t p p1 :
  retryCounts p1 = retryCounts p -> retryCount t p1 = retryCount t p.
Proof. unfold retryCount. by intros ->. Qed.

Lemma retryCount_insert t n m p :
  retryCount t (set_retryCounts (<[t:=n]> m) p) = n.
Proof. unfold retryCount. simpl. by rewrite lookup_insert_eq. Qed.

Lemma retryCallback_holds t w p :
  holdsTask t p = true ->
  final (retryCallback t w p) = final (runIteration t w p) /\
  trace (retryCallback t w p) = trace (runIteration t w p).
Proof.
  intros Hholds. unfold retryCallback. run_monad. rewrite Hholds.
  destruct (runIteration t w p) as [[[[]| |e] p1] tr1]; simpl;
    by rewrite ?app_nil_r.
Qed.

Lemma iterations_retries_bound t ws p :
  allInterrupted t ws p ->
  retriesScheduled (iterations t ws p).2 <=
    MAX_INTERRUPT_RETRIES - retryCount t p.
Proof.
  revert p. induction ws as [|w ws IH]; intros p; simpl;
    [intros _; unfold retriesScheduled; simpl; lia|].
  intros [(e & Hraises & Hint) Hrest].
  destruct (raises_body _ _ _ _ Hraises)
    as (p1 & tr1 & Hbody & Hcounts & Hproc1 & _ & Hnone).
  destruct Hraises as [Hproc _].
  destruct (runIteration_catch_state _ _ _ _ _ _ Hproc Hbody)
    as (Hfinal & Htrace & _).
  pose proof (retryCount_same t _ _ Hcounts) as Hsame.
  rewrite retriesScheduled_app, Htrace, retriesScheduled_app, Hnone.
  specialize (IH _ Hrest). revert IH Hrest. rewrite Hfinal.
  destruct (decide (retryCount t p1 < MAX_INTERRUPT_RETRIES)) as [Hlt|Hge].
  - rewrite (iterationHandler_retry _ _ _ _ Hint Hlt).
    unfold final, trace. simpl. intros IH _.
    rewrite retryCount_insert in IH.
    unfold MAX_INTERRUPT_RETRIES in *. lia.
  - apply Nat.nlt_ge in Hge.
    destruct (update w t (needsHelpUpdate (Some interruptedText)))
      as [[]|e'] eqn:Hupd.
    + rewrite (iterationHandler_exhausted _ _ _ _ Hint Hge Hupd).
      unfold final, trace. simpl. intros _ Hrest.
      destruct ws as [|w' ws']; simpl;
        [unfold retriesScheduled; simpl; lia|].
      by destruct Hrest as [(e' & [Hproc' _] & _) _].
    + rewrite (iterationHandler_exhausted_rejected _ _ _ _ _ Hint Hge Hupd).
      unfold final, trace. simpl. intros IH _.
      unfold MAX_INTERRUPT_RETRIES in *. lia.
Qed.

(** The retry that the catch block of lines 498-548 carries out, for an
    Interrupt that the [try] block throws into it (the error's name or its
    message is BytebotAgentInterrupt): as long as the task has been retried
    fewer than MAX_INTERRUPT_RETRIES = 3 times, its retry count goes up by
    one (to at most 3), one more iteration is scheduled after 500 ms (a
    timer whose callback runs runIteration again for a processor that still
    holds the task) and the processing state is kept; once the count has
    reached 3 the task is updated to NEEDS_HELP with an explanatory error
    and no retry is scheduled.  So consecutive iterations interrupted in
    this way schedule at most 3 retries.  An Interrupt of the provider call
    does not come this far: it is handled at lines 278-291. *)
Theorem interrupt_retries_bounded (t : string) :
  (forall w p e,
     raises t w p e -> isInterrupt e = true ->
     let r := runIteration t w p in
     (retryCount t p < 3 ->
      outcome r = Normal tt /\
      retryCount t (final r) = retryCount t p + 1 /\
      retryCount t (final r) <= 3 /\
      In (SetTimeout t 500) (trace r) /\
      retriesScheduled (trace r) = 1 /\
      isProcessing (final r) = true /\
      currentTaskId (final r) = currentTaskId p /\
      (holdsTask t p = true ->
       forall w',
         final (retryCallback t w' (final r))
           = final (runIteration t w' (final r)) /\
         trace (retryCallback t w' (final r))
           = trace (runIteration t w' (final r)))) /\
     (3 <= retryCount t p ->
      In (TasksUpdate t (needsHelpUpdate (Some interruptedText))) (trace r) /\
      retriesScheduled (trace r) = 0)) /\
  (forall ws p,
     allInterrupted t ws p -> retriesScheduled (iterations t ws p).2 <= 3).
Proof.
  split.
  - intros w p e Hraises Hint r.
    destruct (raises_body _ _ _ _ Hraises)
      as (p1 & tr1 & Hbody & Hcounts & Hproc1 & Hcur1 & Hnone).
    destruct Hraises as [Hproc _].
    destruct (runIteration_catch_state _ _ _ _ _ _ Hproc Hbody)
      as (Hfinal & Htrace & Hout).
    pose proof (retryCount_same t _ _ Hcounts) as Hsame.
    subst r. rewrite Hfinal, Htrace, retriesScheduled_app, Hnone.
    split.
    + intros Hlt. rewrite <- Hsame in Hlt.
      revert Hout. rewrite (iterationHandler_retry _ _ _ _ Hint Hlt).
      unfold final, trace, outcome. simpl. intros Hout.
      rewrite retryCount_insert.
      split; [by apply Hout|]. split; [by rewrite Hsame|].
      split; [unfold MAX_INTERRUPT_RETRIES in Hlt; lia|].
      split; [apply in_app_iff; right; by left|].
      split; [done|]. split; [done|]. split; [done|].
      intros Hholds w'. apply retryCallback_holds.
      revert Hholds. unfold holdsTask. simpl.
      by rewrite Hcur1, Hproc1, Hproc.
    + intros Hge. rewrite <- Hsame in Hge.
      destruct (update w t (needsHelpUpdate (Some interruptedText)))
        as [[]|e'] eqn:Hupd.
      * rewrite (iterationHandler_exhausted _ _ _ _ Hint Hge Hupd).
        unfold trace. simpl. split; [|done].
        apply in_app_iff. right. by left.
      * rewrite (iterationHandler_exhausted_rejected _ _ _ _ _ Hint Hge Hupd).
        unfold trace. simpl. split; [|done].
        apply in_app_iff. right. by left.
  - intros ws p Hall.
    pose proof (iterations_retries_bound t ws p Hall).
    unfold MAX_INTERRUPT_RETRIES in *. lia.
Qed.

Lemma interrupt_retries_bounded_witness :
  raises "T" interruptedWorld startedProcessor interruptError /\
  retryCount "T"
    (final (runIteration "T" interruptedWorld startedProcessor)) = 1 /\
  retriesScheduled
    (iterations "T"
       [interruptedWorld; interruptedWorld; interruptedWorld;
        interruptedWorld] startedProcessor).2 <= 3.
Proof.
  assert (raises "T" interruptedWorld startedProcessor interruptError)
    as Hraises by (split; vm_compute; reflexivity).
  destruct (interrupt_retries_bounded "T") as [Hone Hall].
  split; [exact Hraises|]. split.
  - destruct (Hone interruptedWorld startedProcessor interruptError Hraises
                eq_refl) as [Hretry _].
    destruct Hretry as (_ & Hcount & _); [vm_compute; lia|].
    rewrite Hcount. vm_compute. reflexivity.
  - apply Hall.
    repeat (split; [exists interruptError; split;
                      [split; vm_compute; reflexivity|reflexivity]|]).
    exact I.
Defined.

(** C7, at the failing input: the provider call of a running task is
    aborted and rejects with the Interrupt, while the task has not been
    retried yet.  The handler of lines 278-291 catches it where it is
    thrown: the iteration marks the task FAILED with the Interrupt's
    message, clears the processing flags and resolves; no retry count is
    stored, no timer is set, and the [try] block has thrown nothing into
    the catch block that holds the retry. *)
Lemma interrupted_provider_call_not_retried :
  let w := sampleWorld (runningTask (JString "gpt-4.1"))
             (Rejected (JsError "BytebotAgentInterrupt" "aborted")) in
  let r := runIteration "T" w startedProcessor in
  isInterrupt (JsError "BytebotAgentInterrupt" "aborted") = true /\
  holdsTask "T" startedProcessor = true /\
  retryCount "T" startedProcessor = 0 /\
  r =
    (Normal tt,
     clearProcessing (set_abortController newAbortController startedProcessor),
     [TasksFindById "T"; SummariesFindLatest "T";
      MessagesFindUnsummarized "T";
      GenerateMessage "openai" AGENT_SYSTEM_PROMPT [sampleMessage "m1" "T"]
        "gpt-4.1" true;
      TasksUpdate "T"
        {| upd_status := FAILED; upd_error := Some "aborted";
           upd_completedAt := None |}]) /\
  retryCounts (final r) !! "T" = None /\
  ~ In (SetTimeout "T" 500) (trace r) /\
  retriesScheduled (trace r) = 0 /\
  isProcessing (final r) = false /\
  (forall e, ~ raises "T" w startedProcessor e).
Proof.
  cbv zeta.
  assert (runIteration "T"
            (sampleWorld (runningTask (JString "gpt-4.1"))
               (Rejected (JsError "BytebotAgentInterrupt" "aborted")))
            startedProcessor =
          (Normal tt,
           clearProcessing
             (set_abortController newAbortController startedProcessor),
           [TasksFindById "T"; SummariesFindLatest "T";
            MessagesFindUnsummarized "T";
            GenerateMessage "openai" AGENT_SYSTEM_PROMPT
              [sampleMessage "m1" "T"] "gpt-4.1" true;
            TasksUpdate "T" (failedUpdate (Some "aborted"))])) as Hrun
    by (vm_compute; reflexivity).
  split; [reflexivity|]. split; [reflexivity|]. split; [reflexivity|].
  split; [exact Hrun|]. rewrite Hrun.
  split; [reflexivity|]. split.
  - unfold trace. simpl. intros Hin.
    repeat destruct Hin as [Hin|Hin]; try discriminate Hin. exact Hin.
  - split; [reflexivity|]. split; [reflexivity|].
    intros e [_ Hthrow]. vm_compute in Hthrow. discriminate Hthrow.
Qed.

(** ** The per-task records *)

Local Instance keepsToolEntries_refl : Reflexive keepsToolEntries.
Proof. by intros p t. Qed.

Local Instance keepsToolEntries_trans : Transitive keepsToolEntries.
Proof.
  intros p q r Hpq Hqr t.
  destruct (Hpq t) as [? ?], (Hqr t) as [? ?]. split; auto.
Qed.








(** ** The provider registry *)

Lemma iterationBody_prelude t w p task latestSummary unsummarizedMessages :
  findById w t = Resolved task ->
  status task = RUNNING ->
  findLatest w t = Resolved latestSummary ->
  findUnsummarized w t = Resolved unsummarizedMessages ->
  let r :=
    consultModel t task (resolveModel (model task))
      (assembleMessages (now w) t latestSummary unsummarizedMessages
         (default false (computerToolsDisabled p !! t)))
      w (set_abortController newAbortController p) in
  iterationBody t w p =
    (outcome r, final r,
     [TasksFindById t; SummariesFindLatest t; MessagesFindUnsummarized t]
       ++ trace r).
Proof.
  intros Htask Hrunning Hlatest Hunsummarized r. subst r.
  unfold iterationBody. run_monad.
  rewrite Htask, Hrunning. simpl. rewrite Hlatest, Hunsummarized. simpl.
  by destruct (consultModel _ _ _ _ _ _) as [[c p1] tr1].
Qed.

Lemma runIteration_body t w p c p1 tr1 :
  isProcessing p = true ->
  iterationBody t w p = (c, p1, tr1) ->
  (forall e, c <> Throw e) ->
  runIteration t w p = (Normal tt, p1, tr1).
Proof.
  intros Hproc Hbody Hc. unfold runIteration. run_monad.
  rewrite Hproc. simpl. rewrite Hbody.
  destruct c as [[]| |e]; try done. by destruct (Hc e).
Qed.

(** The path of lines 257-268, for a task store that accepts the update:
    when the provider tag of the task's resolved descriptor has no entry in
    the registry, the iteration asks the task store for status FAILED
    without an error text, clears the processing flags and stops: it calls
    no provider and schedules no further iteration. *)
Theorem unresolved_provider_fails_task t w p task latestSummary
    unsummarizedMessages
    (Hprocessing : isProcessing p = true)
    (Htask : findById w t = Resolved task)
    (Hrunning : status task = RUNNING)
    (Hlatest : findLatest w t = Resolved latestSummary)
    (Hunsummarized : findUnsummarized w t = Resolved unsummarizedMessages)
    (Hmiss : services (provider (resolveModel (model task))) = None)
    (Hupdate : update w t (failedUpdate None) = Resolved tt) :
  runIteration t w p =
    (Normal tt,
     clearProcessing (set_abortController newAbortController p),
     [TasksFindById t; SummariesFindLatest t; MessagesFindUnsummarized t;
      TasksUpdate t
        {| upd_status := FAILED; upd_error := None;
           upd_completedAt := None |}]).
Proof.
  apply (runIteration_body _ _ _ Return); [done| |done].
  rewrite (iterationBody_prelude _ _ _ _ _ _ Htask Hrunning Hlatest
             Hunsummarized).
  unfold consultModel. rewrite Hmiss. run_monad.
  by rewrite Hupdate.
Qed.

Lemma unresolved_provider_fails_task_witness :
  runIteration "T" strayWorld startedProcessor =
    (Normal tt,
     clearProcessing (set_abortController newAbortController startedProcessor),
     [TasksFindById "T"; SummariesFindLatest "T";
      MessagesFindUnsummarized "T";
      TasksUpdate "T"
        {| upd_status := FAILED; upd_error := None;
           upd_completedAt := None |}]).
Proof.
  apply (unresolved_provider_fails_task "T" strayWorld startedProcessor
           (runningTask strayModel) None [sampleMessage "m1" "T"]);
    reflexivity.
Defined.

(** C2, at the failing input: a running task whose persisted model names
    the provider "foo", which has no service.  The iteration reads the task
    and its messages and sends one update, FAILED without an error text,
    where every other failure update of runIteration carries one (lines
    284-287, 303-306, 410-414, 530-534 and 540-543); the text "no service
    for provider foo" reaches no collaborator. *)
Lemma unresolved_provider_no_error_text :
  services (provider (resolveModel (model (runningTask strayModel)))) = None /\
  runIteration "T" strayWorld startedProcessor =
    (Normal tt,
     clearProcessing (set_abortController newAbortController startedProcessor),
     [TasksFindById "T"; SummariesFindLatest "T";
      MessagesFindUnsummarized "T";
      TasksUpdate "T"
        {| upd_status := FAILED; upd_error := None;
           upd_completedAt := None |}]) /\
  let tr := trace (runIteration "T" strayWorld startedProcessor) in
  In (TasksUpdate "T" (failedUpdate None)) tr /\
  ~ In (TasksUpdate "T" (failedUpdate (Some "no service for provider foo")))
      tr /\
  (forall t data,
     In (TasksUpdate t data) tr -> upd_error data = None).
Proof.
  split; [reflexivity|]. split; [vm_compute; reflexivity|].
  cbv zeta. split; [vm_compute; tauto|]. split.
  - intros Hin. vm_compute in Hin.
    repeat destruct Hin as [Hin|Hin]; try discriminate Hin. exact Hin.
  - intros t data Hin. vm_compute in Hin.
    repeat destruct Hin as [Hin|Hin]; try discriminate Hin;
      [by injection Hin as <- <-|exact (False_ind _ Hin)].
Qed.

(** ** The dispatcher *)

Lemma dispatchBlocks_app t task pre rest st w p st1 p1 tr1 :
  dispatchBlocks t task pre st w p = (Normal st1, p1, tr1) ->
  let r := dispatchBlocks t task rest st1 w p1 in
  dispatchBlocks t task (pre ++ rest) st w p =
    (outcome r, final r, tr1 ++ trace r).
Proof.
  revert st p tr1. induction pre as [|block pre IH]; intros st p tr1; simpl.
  - intros [= -> -> <-].
    by destruct (dispatchBlocks _ _ _ _ _ _) as [[c p2] tr2].
  - unfold mbind, M_bind.
    destruct (dispatchBlock t task block st w p) as [[[st2| |e] p2] tr2];
      try done.
    destruct (dispatchBlocks t task pre st2 w p2) as [[c p3] tr3] eqn:Hpre.
    intros [= -> -> <-].
    rewrite (IH _ _ _ Hpre). simpl. by rewrite app_assoc.
Qed.

Lemma dispatchBlock_degrades t task block st w p result :
  isComputerToolUseContentBlock block = true ->
  handleComputerToolUse w block = Resolved result ->
  result_is_error result = true ->
  computerToolFailures p !! t = Some 1 ->
  default false (computerToolsDisabled p !! t) = false ->
  update w t (needsHelpUpdate (Some degradedText)) = Resolved tt ->
  dispatchBlock t task block st w p =
    (Return,
     clearProcessing
       (set_computerToolsDisabled (<[t:=true]> (computerToolsDisabled p))
          (set_computerToolFailures (<[t:=2]> (computerToolFailures p)) p)),
     [HandleComputerToolUse block;
      TasksUpdate t (needsHelpUpdate (Some degradedText))]).
Proof.
  intros Hcomputer Hresult Herror Hfailures Hactive Hupdate.
  assert (startsWith (block_name block) "computer_" = true) as Hname
    by (by destruct block).
  unfold dispatchBlock, dispatchComputerTool. rewrite Hcomputer. run_monad.
  rewrite Hresult, Herror, Hname. simpl.
  rewrite Hfailures. simpl. rewrite Hactive. simpl. by rewrite Hupdate.
Qed.

(** C5: when a computer_* tool use gets an error-marked result that brings
    the task's failure counter from 1 to 2 while degradation is not active,
    the dispatcher sets [computerToolsDisabled] for the task, asks for
    status NEEDS_HELP with a readable error, clears the processing flags
    and ends the iteration with [return;]: whatever blocks follow in the
    turn are not processed, no tool result is persisted and no further
    iteration is scheduled.  Read back from the processor it leaves: the
    task's entry of [computerToolsDisabled] is [true], its failure counter
    is 2, [isProcessing] is false and [currentTaskId] is null, and the
    entries of other tasks are as they were. *)
Theorem computer_tool_degradation t task pre block rest w p st1 p1 tr1 result
    (Hpre : dispatchBlocks t task pre ([], None) w p = (Normal st1, p1, tr1))
    (Hcomputer : isComputerToolUseContentBlock block = true)
    (Hresult : handleComputerToolUse w block = Resolved result)
    (Herror : result_is_error result = true)
    (Hfailures : computerToolFailures p1 !! t = Some 1)
    (Hactive : default false (computerToolsDisabled p1 !! t) = false)
    (Hupdate : update w t (needsHelpUpdate (Some degradedText))
               = Resolved tt) :
  let r := dispatch t task (pre ++ block :: rest) w p in
  r =
    (Return,
     clearProcessing
       (set_computerToolsDisabled (<[t:=true]> (computerToolsDisabled p1))
          (set_computerToolFailures (<[t:=2]> (computerToolFailures p1)) p1)),
     tr1 ++
     [HandleComputerToolUse block;
      TasksUpdate t
        {| upd_status := NEEDS_HELP;
           upd_error :=
             Some "Desktop automation unavailable. Please provide guidance or perform actions manually.";
           upd_completedAt := None |}]) /\
  computerToolsDisabled (final r) !! t = Some true /\
  computerToolFailures (final r) !! t = Some 2 /\
  isProcessing (final r) = false /\
  currentTaskId (final r) = None /\
  (forall t', t' <> t ->
     computerToolsDisabled (final r) !! t' = computerToolsDisabled p1 !! t' /\
     computerToolFailures (final r) !! t' = computerToolFailures p1 !! t').
Proof.
  pose proof (dispatchBlock_degrades t task block st1 w p1 result Hcomputer
                Hresult Herror Hfailures Hactive Hupdate) as Hblock.
  assert (dispatchBlocks t task (block :: rest) st1 w p1 =
            dispatchBlock t task block st1 w p1) as Hrest.
  { simpl. unfold mbind, M_bind. by rewrite Hblock. }
  pose proof (dispatchBlocks_app t task pre (block :: rest) _ _ _ _ _ _ Hpre)
    as Hloop.
  cbv zeta in Hloop. rewrite Hrest, Hblock in Hloop.
  assert (dispatch t task (pre ++ block :: rest) w p =
            (Return,
             clearProcessing
               (set_computerToolsDisabled
                  (<[t:=true]> (computerToolsDisabled p1))
                  (set_computerToolFailures
                     (<[t:=2]> (computerToolFailures p1)) p1)),
             tr1 ++
             [HandleComputerToolUse block;
              TasksUpdate t (needsHelpUpdate (Some degradedText))])) as Hrun.
  { unfold dispatch, mbind, M_bind. by rewrite Hloop. }
  cbv zeta. rewrite Hrun. split; [done|].
  unfold final. cbn [fst snd clearProcessing set_computerToolsDisabled
    set_computerToolFailures computerToolsDisabled computerToolFailures
    isProcessing currentTaskId].
  split; [apply lookup_insert_eq|]. split; [apply lookup_insert_eq|].
  split; [done|]. split; [done|].
  intros t' Hne. by rewrite !lookup_insert_ne.
Qed.

Lemma computer_tool_degradation_witness :
  let r :=
    dispatch "T" (runningTask (JString "gpt-4.1"))
      [screenshotBlock; Text "looking"] screenshotWorld onceFailedProcessor in
  computerToolsDisabled onceFailedProcessor !! "T" = None /\
  outcome r = Return /\
  trace r =
    [HandleComputerToolUse screenshotBlock;
     TasksUpdate "T"
       {| upd_status := NEEDS_HELP;
          upd_error :=
            Some "Desktop automation unavailable. Please provide guidance or perform actions manually.";
          upd_completedAt := None |}] /\
  computerToolsDisabled (final r) !! "T" = Some true /\
  computerToolFailures (final r) !! "T" = Some 2 /\
  isProcessing (final r) = false /\
  currentTaskId (final r) = None.
Proof.
  destruct (computer_tool_degradation "T" (runningTask (JString "gpt-4.1")) []
              screenshotBlock [Text "looking"] screenshotWorld
              onceFailedProcessor ([], None) onceFailedProcessor []
              (ToolResult "u1" [Text "desktop unreachable"] (Some true)))
    as (Hrun & Hdisabled & Hfailures & Hprocessing & Hcurrent & _);
    try (vm_compute; reflexivity).
  change ([] ++ [screenshotBlock; Text "looking"])
    with [screenshotBlock; Text "looking"] in *.
  cbv zeta. split; [vm_compute; reflexivity|].
  split; [by rewrite Hrun|]. split; [by rewrite Hrun|]. done.
Defined.

Lemma dispatchBlock_normal t task block st w p st' p' tr :
  dispatchBlock t task block st w p = (Normal st', p', tr) ->
  (exists extra, st'.1 = st.1 ++ extra) /\
  (isSetTaskStatusToolUseBlock block = true ->
   In (setTaskStatusResult block) st'.1 /\ st'.2 = Some block) /\
  (isSetTaskStatusToolUseBlock block = false -> st'.2 = st.2) /\
  Forall (λ e, isStatusUpdate e = false) tr.
Proof.
  unfold dispatchBlock, dispatchComputerTool, dispatchCreateTask. run_monad.
  destruct st as [generated recorded]. simpl.
  intros Hrun.
  repeat (case_match; simplify_eq/=); simplify_eq/=;
    (split; [rewrite <- ?app_assoc; eauto using app_nil_r|]);
    (split;
       [intros;
        first [done|split; [rewrite ?in_app_iff; simpl; tauto|done]]|]);
    (split; [by intros|]);
    repeat constructor.
Qed.

Lemma dispatchBlocks_normal t task blocks st w p st' p' tr :
  dispatchBlocks t task blocks st w p = (Normal st', p', tr) ->
  (exists extra, st'.1 = st.1 ++ extra) /\
  (forall b, In b blocks -> isSetTaskStatusToolUseBlock b = true ->
             In (setTaskStatusResult b) st'.1) /\
  st'.2 =
    match last (List.filter isSetTaskStatusToolUseBlock blocks) with
    | Some b => Some b
    | None => st.2
    end /\
  Forall (λ e, isStatusUpdate e = false) tr.
Proof.
  revert st p tr. induction blocks as [|block rest IH]; intros st p tr; simpl.
  - intros [= <- <- <-]. repeat split; try done.
    exists []. by rewrite app_nil_r.
  - unfold mbind, M_bind.
    destruct (dispatchBlock t task block st w p) as [[[st1| |e] p1] tr1]
      eqn:Hblock; try done.
    destruct (dispatchBlocks t task rest st1 w p1) as [[c p2] tr2] eqn:Hrest.
    intros [= -> -> <-].
    destruct (dispatchBlock_normal _ _ _ _ _ _ _ _ _ Hblock)
      as ([extra1 Hgrow1] & Hset & Hother & Hquiet1).
    destruct (IH _ _ _ Hrest) as ([extra2 Hgrow2] & Hresults & Hlast & Hquiet2).
    repeat split.
    + exists (extra1 ++ extra2). by rewrite Hgrow2, Hgrow1, app_assoc.
    + intros b [<-|Hin] Hb; [|by apply Hresults].
      rewrite Hgrow2. apply in_app_iff. left. by apply Hset.
    + rewrite Hlast.
      destruct (isSetTaskStatusToolUseBlock block) eqn:Hb; simpl.
      * rewrite last_cons.
        destruct (last (List.filter _ rest)); [done|]. by apply Hset.
      * destruct (last (List.filter _ rest)); [done|]. by apply Hother.
    + apply Forall_app. by split.
Qed.

Lemma dispatch_after_loop t task blocks w p st p1 tr1 :
  dispatchBlocks t task blocks ([], None) w p = (Normal st, p1, tr1) ->
  trace (dispatch t task blocks w p) = tr1 ++ trace (afterBlocks t st w p1).
Proof.
  intros Hloop. unfold dispatch, mbind, M_bind. rewrite Hloop.
  by destruct (afterBlocks t st w p1) as [[c p2] tr2].
Qed.

Lemma afterBlocks_trace t generated recorded w p created :
  create_message w generated USER t = Resolved created ->
  exists tail,
    Forall (λ e, isStatusUpdate e = false) tail /\
    trace (afterBlocks t (generated, recorded) w p) =
      persisted t generated
        ++ trace (applyTaskStatus t recorded w p) ++ tail.
Proof.
  intros Hcreate. unfold afterBlocks. run_monad.
  destruct (applyTaskStatus t recorded w p) as [[c p2] tr2] eqn:Happly.
  destruct generated as [|g generated]; simpl; rewrite ?Hcreate; simpl;
    rewrite Happly; unfold trace; simpl;
    destruct c as [[]| |e]; simpl;
    try (exists []; split; [constructor|by rewrite app_nil_r]);
    destruct (isProcessing p2); simpl;
    try (exists []; split; [constructor|by rewrite !app_nil_r]);
    (exists [SetImmediate t]; split; [by repeat constructor|done]).
Qed.

Lemma dispatchBlocks_updates t task blocks st :
  emitsOnly
    (λ e, forall t' data,
            e = TasksUpdate t' data ->
            data = needsHelpUpdate (Some degradedText))
    (dispatchBlocks t task blocks st).
Proof.
  revert st. induction blocks as [|block rest IH]; intros st; simpl.
  - apply emitsOnly_mret.
  - apply emitsOnly_bind; [|done].
    unfold dispatchBlock, dispatchComputerTool, dispatchCreateTask,
      tasks_update, tasks_create.
    emits ltac:(intros; simplify_eq; done).
Qed.

Lemma applyTaskStatus_trace t recorded w p :
  (recorded = None -> trace (applyTaskStatus t recorded w p) = []) /\
  (forall b, recorded = Some b ->
     (in_status (block_input b) = "completed" ->
      trace (applyTaskStatus t recorded w p) =
        [TasksUpdate t (completedUpdate (now w))]) /\
     (in_status (block_input b) = "needs_help" ->
      trace (applyTaskStatus t recorded w p) =
        [TasksUpdate t (needsHelpUpdate None)]) /\
     (in_status (block_input b) <> "completed" ->
      in_status (block_input b) <> "needs_help" ->
      trace (applyTaskStatus t recorded w p) = [])).
Proof.
  split; [by intros ->|]. intros b ->.
  unfold applyTaskStatus. run_monad. repeat split.
  - intros ->. simpl. by destruct (update w t _).
  - intros ->. simpl. by destruct (update w t _).
  - intros Hcompleted Hhelp.
    apply String.eqb_neq in Hcompleted, Hhelp.
    by rewrite Hcompleted, Hhelp.
Qed.

(** C6: every set_task_status block of a turn gets a tool result whose
    [is_error] is true exactly when the status is "failed" and whose
    content is the description; the loop over the blocks sends no status
    update (the only update it can ever send is the NEEDS_HELP of the
    computer-tool degradation, which ends the turn); after the loop and
    after the tool results are persisted, the last recorded block decides: "completed" gives COMPLETED with
    [completedAt], "needs_help" gives NEEDS_HELP, and any other value,
    "failed" included, gives no update at all. *)
Theorem set_task_status_deferred t task blocks w p generated recorded p1 tr1
    created
    (Hloop : dispatchBlocks t task blocks ([], None) w p
             = (Normal (generated, recorded), p1, tr1))
    (Hcreate : create_message w generated USER t = Resolved created) :
  (forall b, In b blocks -> isSetTaskStatusToolUseBlock b = true ->
     In (ToolResult (block_id b)
           [Text (in_description (block_input b))]
           (Some (String.eqb (in_status (block_input b)) "failed")))
        generated) /\
  recorded = last (List.filter isSetTaskStatusToolUseBlock blocks) /\
  Forall (λ e, isStatusUpdate e = false) tr1 /\
  (forall st0 w0 p0 t' data,
     In (TasksUpdate t' data)
        (trace (dispatchBlocks t task blocks st0 w0 p0)) ->
     data = needsHelpUpdate (Some degradedText)) /\
  exists transition tail,
    trace (dispatch t task blocks w p) =
      tr1 ++ persisted t generated ++ transition ++ tail /\
    Forall (λ e, isStatusUpdate e = false) tail /\
    (recorded = None -> transition = []) /\
    (forall b, recorded = Some b ->
       (in_status (block_input b) = "completed" ->
        transition =
          [TasksUpdate t
             {| upd_status := COMPLETED; upd_error := None;
                upd_completedAt := Some (now w) |}]) /\
       (in_status (block_input b) = "needs_help" ->
        transition =
          [TasksUpdate t
             {| upd_status := NEEDS_HELP; upd_error := None;
                upd_completedAt := None |}]) /\
       (in_status (block_input b) <> "completed" ->
        in_status (block_input b) <> "needs_help" ->
        transition = [])).
Proof.
  destruct (dispatchBlocks_normal _ _ _ _ _ _ _ _ _ Hloop)
    as (_ & Hresults & Hlast & Hquiet).
  simpl in *. split; [done|]. split; [|split; [done|split]].
  - rewrite Hlast. by destruct (last _).
  - intros st0 w0 p0 t' data Hin.
    pose proof (dispatchBlocks_updates t task blocks st0 w0 p0) as Hall.
    rewrite Forall_forall in Hall.
    by apply (Hall _ (proj2 (list_elem_of_In _ _) Hin) t' data).
  - destruct (afterBlocks_trace t generated recorded w p1 created Hcreate)
      as (tail & Htail & Htrace).
    exists (trace (applyTaskStatus t recorded w p1)), tail.
    rewrite (dispatch_after_loop _ _ _ _ _ _ _ _ Hloop), Htrace.
    split; [done|]. split; [done|]. apply applyTaskStatus_trace.
Qed.

Lemma set_task_status_deferred_witness :
  let blocks := [Text "hi"; statusBlock "failed" "could not log in"] in
  let w := sampleWorld (runningTask JNull) textAnswer in
  In (ToolResult "u9" [Text "could not log in"] (Some true))
     [setTaskStatusResult (statusBlock "failed" "could not log in")] /\
  Forall (λ e, isStatusUpdate e = false)
    (trace (dispatch "T" (runningTask JNull) blocks w startedProcessor)).
Proof.
  intros blocks w.
  destruct (set_task_status_deferred "T" (runningTask JNull) blocks w
              startedProcessor
              [setTaskStatusResult (statusBlock "failed" "could not log in")]
              (Some (statusBlock "failed" "could not log in"))
              startedProcessor []
              {| id := "m2"; createdAt := 7; updatedAt := 7; taskId := "T";
                 summaryId := None; role := USER;
                 content :=
                   [setTaskStatusResult
                      (statusBlock "failed" "could not log in")] |})
    as (Hresult & _ & _ & _ & transition & tail & Htrace & Htail & _
        & Hsome);
    [vm_compute; reflexivity|vm_compute; reflexivity|].
  split.
  - apply (Hresult (statusBlock "failed" "could not log in"));
      [right; by left|reflexivity].
  - destruct (Hsome _ eq_refl) as (_ & _ & Hnone).
    rewrite Htrace, Hnone by discriminate.
    repeat (apply Forall_app; split); try done; by repeat constructor.
Defined.

(** ** Summarization *)

Lemma runIteration_trace_body t w p :
  isProcessing p = true ->
  exists handled,
    trace (runIteration t w p) = trace (iterationBody t w p) ++ handled /\
    Forall (λ e, isHandlerEvent e = true) handled.
Proof.
  intros Hproc. unfold runIteration. run_monad. rewrite Hproc. simpl.
  destruct (iterationBody t w p) as [[[[]| |e] p1] tr1] eqn:Hbody; simpl;
    try (exists []; split; [by rewrite app_nil_r|constructor]).
  pose proof (iterationHandler_emits t e w p1) as Hhandler.
  exists (trace (iterationHandler t e w p1)). split; [|done].
  by destruct (iterationHandler t e w p1) as [[[[]| |e'] p2] tr2].
Qed.

Lemma summarize_run t tag m messages w p :
  summarize t (Registered tag) m messages w p =
    (Normal tt, p, summarizationTrace tag m messages w t).
Proof.
  unfold summarize, summarizationTrace, summarizationCall,
    service_generateMessage.
  run_monad.
  destruct (generateMessage w tag _ _ _ _) as [summaryResponse|]; [|done].
  simpl. destruct (create_summary w _ t) as [summary|]; [|done].
  simpl. by destruct (attachSummary w t _ _) as [[]|].
Qed.


Lemma consultModel_run t task m messages w p tag response created :
  services (provider m) = Some (Registered tag) ->
  generateMessage w tag AGENT_SYSTEM_PROMPT messages (name m) true
    = Resolved response ->
  contentBlocks response <> [] ->
  create_message w (contentBlocks response) ASSISTANT t = Resolved created ->
  trace (consultModel t task m messages w p) =
    [GenerateMessage tag AGENT_SYSTEM_PROMPT messages (name m) true;
     MessagesCreate (contentBlocks response) ASSISTANT t]
    ++ (if shouldSummarize m response
        then summarizationTrace tag m messages w t else [])
    ++ trace (dispatch t task (contentBlocks response) w p).
Proof.
  intros Hservice Hanswer Hblocks Hcreate.
  unfold consultModel, callModel, service_generateMessage.
  rewrite Hservice. unfold mbind at 1, M_bind at 1, try_catch, await.
  rewrite Hanswer. cbv zeta.
  destruct (contentBlocks response) as [|block blocks] eqn:Hcontent; [done|].
  cbn [length Nat.eqb].
  unfold mbind at 1, M_bind at 1, messages_create, await. rewrite Hcreate.
  unfold mbind at 1, M_bind at 1.
  destruct (shouldSummarize m response).
  - cbn [when]. rewrite summarize_run.
    by destruct (dispatch t task (block :: blocks) w p) as [[c p2] tr2].
  - cbn [when]. unfold mret, M_ret.
    by destruct (dispatch t task (block :: blocks) w p) as [[c p2] tr2].
Qed.

Lemma consultModel_no_attach t task m messages w p :
  (exists tag response created,
     services (provider m) = Some (Registered tag) /\
     generateMessage w tag AGENT_SYSTEM_PROMPT messages (name m) true
       = Resolved response /\
     contentBlocks response <> [] /\
     create_message w (contentBlocks response) ASSISTANT t
       = Resolved created) \/
  Forall (λ e, isAttachSummary e = false)
    (trace (consultModel t task m messages w p)).
Proof.
  unfold consultModel, callModel, service_generateMessage.
  destruct (services (provider m)) as [[tag|]|] eqn:Hservice.
  - unfold mbind at 1, M_bind at 1, try_catch, await.
    destruct (generateMessage w tag _ _ _ _) as [response|] eqn:Hanswer.
    + cbv zeta.
      destruct (contentBlocks response) as [|block blocks] eqn:Hcontent.
      * right. run_monad. simpl.
        destruct (update w t _); by repeat constructor.
      * cbn [length Nat.eqb].
        destruct (create_message w (block :: blocks) ASSISTANT t)
          as [created|] eqn:Hcreate.
        -- left. exists tag, response, created.
           by rewrite Hcontent.
        -- right. run_monad. rewrite Hcreate. by repeat constructor.
    + right. run_monad. simpl. destruct (update w t _); by repeat constructor.
  - right. run_monad. simpl. destruct (update w t _); by repeat constructor.
  - right. run_monad. simpl. destruct (update w t _); by repeat constructor.
Qed.

Lemma iterationBody_no_attach t w p :
  (exists task latestSummary unsummarizedMessages,
     findById w t = Resolved task /\
     status task = RUNNING /\
     findLatest w t = Resolved latestSummary /\
     findUnsummarized w t = Resolved unsummarizedMessages) \/
  Forall (λ e, isAttachSummary e = false) (trace (iterationBody t w p)).
Proof.
  destruct (findById w t) as [task|] eqn:Htask;
    [|right; unfold iterationBody; run_monad; rewrite Htask;
      by repeat constructor].
  destruct (isRunning (status task)) eqn:Hrunning;
    [|right; unfold iterationBody; run_monad; rewrite Htask, Hrunning;
      by repeat constructor].
  destruct (findLatest w t) as [latestSummary|] eqn:Hlatest;
    [|right; unfold iterationBody; run_monad;
      rewrite Htask, Hrunning; simpl; rewrite Hlatest;
      by repeat constructor].
  destruct (findUnsummarized w t) as [unsummarizedMessages|]
    eqn:Hunsummarized;
    [|right; unfold iterationBody; run_monad;
      rewrite Htask, Hrunning; simpl; rewrite Hlatest, Hunsummarized;
      by repeat constructor].
  left. exists task, latestSummary, unsummarizedMessages.
  repeat split; try done. by destruct (status task).
Qed.

Lemma in_handled e handled :
  Forall (λ e, isHandlerEvent e = true) handled ->
  isHandlerEvent e = false -> ~ In e handled.
Proof.
  intros Hall He Hin. rewrite Forall_forall in Hall.
  apply list_elem_of_In, Hall in Hin. congruence.
Qed.

Lemma in_dispatched e dispatched :
  Forall (λ e, isDispatchEvent e = true) dispatched ->
  isDispatchEvent e = false -> ~ In e dispatched.
Proof.
  intros Hall He Hin. rewrite Forall_forall in Hall.
  apply list_elem_of_In, Hall in Hin. congruence.
Qed.

Lemma runIteration_reaches t w p task latestSummary unsummarizedMessages tag
    response created :
  let m := resolveModel (model task) in
  let messages :=
    assembleMessages (now w) t latestSummary unsummarizedMessages
      (default false (computerToolsDisabled p !! t)) in
  isProcessing p = true ->
  findById w t = Resolved task ->
  status task = RUNNING ->
  findLatest w t = Resolved latestSummary ->
  findUnsummarized w t = Resolved unsummarizedMessages ->
  services (provider m) = Some (Registered tag) ->
  generateMessage w tag AGENT_SYSTEM_PROMPT messages (name m) true
    = Resolved response ->
  contentBlocks response <> [] ->
  create_message w (contentBlocks response) ASSISTANT t = Resolved created ->
  exists dispatched handled,
    trace (runIteration t w p) =
      [TasksFindById t; SummariesFindLatest t; MessagesFindUnsummarized t;
       GenerateMessage tag AGENT_SYSTEM_PROMPT messages (name m) true;
       MessagesCreate (contentBlocks response) ASSISTANT t]
      ++ (if shouldSummarize m response
          then summarizationTrace tag m messages w t else [])
      ++ dispatched ++ handled /\
    Forall (λ e, isDispatchEvent e = true) dispatched /\
    Forall (λ e, isHandlerEvent e = true) handled.
Proof.
  intros m messages Hproc Htask Hrunning Hlatest Hunsummarized Hservice
    Hanswer Hblocks Hcreate.
  destruct (runIteration_trace_body t w p Hproc)
    as (handled & Htrace & Hhandled).
  exists (trace (dispatch t task (contentBlocks response) w
                   (set_abortController newAbortController p))), handled.
  split; [|split; [apply dispatch_emits|done]].
  rewrite Htrace,
    (iterationBody_prelude _ _ _ _ _ _ Htask Hrunning Hlatest Hunsummarized).
  unfold trace at 1. cbn [snd].
  rewrite (consultModel_run _ _ _ _ _ _ _ _ _ Hservice Hanswer Hblocks
             Hcreate).
  fold m. fold messages. simpl. by rewrite <- !app_assoc.
Qed.

Lemma in_summarizationTrace e tag m messages w t :
  In e (summarizationTrace tag m messages w t) ->
  e = summarizationCall tag m messages (now w) t \/
  exists summaryResponse,
    generateMessage w tag SUMMARIZATION_SYSTEM_PROMPT
      (messages ++ [syntheticMessage (now w) t summarizeInstruction])
      (name m) false = Resolved summaryResponse /\
    (e = SummariesCreate (summaryContentOf (contentBlocks summaryResponse)) t
     \/ exists summary,
          create_summary w
            (summaryContentOf (contentBlocks summaryResponse)) t
            = Resolved summary /\
          e = MessagesAttachSummary t (summary_id summary) (map id messages)).
Proof.
  unfold summarizationTrace. intros [<-|Hin]; [by left|]. right.
  destruct (generateMessage w tag _ _ _ _) as [summaryResponse|]; [|done].
  exists summaryResponse. split; [done|].
  destruct Hin as [<-|Hin]; [by left|]. right.
  destruct (create_summary w _ t) as [summary|]; [|done].
  exists summary. split; [done|]. by destruct Hin as [<-|[]].
Qed.

Lemma shouldSummarize_threshold m response :
  shouldSummarize m response = true <->
  (3 * contextWindowOrDefault m <= 4 * totalTokens response)%Z.
Proof. unfold shouldSummarize. apply Z.leb_le. Qed.

(** C8: in an iteration that persists its assistant turn, the summarization
    call is made exactly when [3 * contextWindow <= 4 * totalTokens], that
    is when totalTokens is at least contextWindow * 0.75, where
    contextWindow is 200000 if the descriptor has none (a window of 0 counts
    as none, as [||] has it; a window that the descriptor gives is taken
    up to 2^51 in absolute value, where the product with 0.75 is exact); it
    is the only provider call besides the first and has tools disabled; and
    the content of the summary created is the text of the Text blocks of
    its response joined by the line feed, the character of code 10. *)
Theorem summarization_trigger t w p task latestSummary unsummarizedMessages
    tag response created
    (m := resolveModel (model task))
    (messages :=
       assembleMessages (now w) t latestSummary unsummarizedMessages
         (default false (computerToolsDisabled p !! t)))
    (Hprocessing : isProcessing p = true)
    (Htask : findById w t = Resolved task)
    (Hrunning : status task = RUNNING)
    (Hlatest : findLatest w t = Resolved latestSummary)
    (Hunsummarized : findUnsummarized w t = Resolved unsummarizedMessages)
    (Hservice : services (provider m) = Some (Registered tag))
    (Hanswer : generateMessage w tag AGENT_SYSTEM_PROMPT messages (name m)
                 true = Resolved response)
    (Hblocks : contentBlocks response <> [])
    (Hcreate : create_message w (contentBlocks response) ASSISTANT t
               = Resolved created) :
  let tr := trace (runIteration t w p) in
  let prompt := messages ++ [syntheticMessage (now w) t summarizeInstruction] in
  let call :=
    GenerateMessage tag SUMMARIZATION_SYSTEM_PROMPT prompt (name m) false in
  (contextWindow m = None ->
   (In call tr <-> (3 * 200000 <= 4 * totalTokens response)%Z)) /\
  (forall n, contextWindow m = Some n -> n <> 0%Z ->
   (Z.abs n <= 2 ^ 51)%Z ->
   (In call tr <-> (3 * n <= 4 * totalTokens response)%Z)) /\
  (contextWindow m = Some 0%Z ->
   (In call tr <-> (3 * 200000 <= 4 * totalTokens response)%Z)) /\
  (forall tag' sp msgs n tools,
     In (GenerateMessage tag' sp msgs n tools) tr ->
     GenerateMessage tag' sp msgs n tools
       = GenerateMessage tag AGENT_SYSTEM_PROMPT messages (name m) true \/
     GenerateMessage tag' sp msgs n tools = call) /\
  (forall body t',
     In (SummariesCreate body t') tr ->
     t' = t /\
     exists summaryResponse,
       generateMessage w tag SUMMARIZATION_SYSTEM_PROMPT prompt (name m) false
         = Resolved summaryResponse /\
       body =
         join (String (ascii_of_nat 10) EmptyString)
           (map block_text
              (List.filter isTextBlock (contentBlocks summaryResponse)))) /\
  (forall summaryResponse,
     In call tr ->
     generateMessage w tag SUMMARIZATION_SYSTEM_PROMPT prompt (name m) false
       = Resolved summaryResponse ->
     In (SummariesCreate
           (join (String (ascii_of_nat 10) EmptyString)
              (map block_text
                 (List.filter isTextBlock (contentBlocks summaryResponse))))
           t) tr).
Proof.
  intros tr prompt call.
  destruct (runIteration_reaches t w p task latestSummary
              unsummarizedMessages tag response created Hprocessing Htask
              Hrunning Hlatest Hunsummarized Hservice Hanswer Hblocks Hcreate)
    as (dispatched & handled & Htrace & Hdispatched & Hhandled).
  fold m messages tr in Htrace.
  assert (forall e, isProviderEvent e = true -> In e tr ->
            e = GenerateMessage tag AGENT_SYSTEM_PROMPT messages (name m) true
            \/ (shouldSummarize m response = true /\
                In e (summarizationTrace tag m messages w t))) as Hwhere.
  { intros e He. rewrite Htrace, !in_app_iff.
    intros [Hin|[Hin|[Hin|Hin]]].
    - simpl in Hin.
      destruct Hin as [<-|[<-|[<-|[<-|[<-|[]]]]]]; try done. by left.
    - right. by destruct (shouldSummarize m response).
    - destruct (in_dispatched e _ Hdispatched); [|done]. by destruct e.
    - destruct (in_handled e _ Hhandled); [|done]. by destruct e. }
  assert (In call tr <-> shouldSummarize m response = true) as Hcall.
  { split.
    - intros Hin. by destruct (Hwhere call eq_refl Hin) as [|[? _]].
    - intros Hshould. rewrite Htrace, Hshould, !in_app_iff.
      right. left. by left. }
  assert (forall cw, contextWindowOrDefault m = cw ->
            In call tr <-> (3 * cw <= 4 * totalTokens response)%Z) as Hcw.
  { intros cw <-. by rewrite Hcall, shouldSummarize_threshold. }
  split; [|split; [|split; [|split; [|split]]]].
  - intros Hnone. apply Hcw. unfold contextWindowOrDefault. by rewrite Hnone.
  - intros n Hn Hnz _. apply Hcw. unfold contextWindowOrDefault.
    rewrite Hn. by apply Z.eqb_neq in Hnz as ->.
  - intros Hzero. apply Hcw. unfold contextWindowOrDefault. by rewrite Hzero.
  - intros tag' sp msgs n tools Hin.
    destruct (Hwhere (GenerateMessage tag' sp msgs n tools) eq_refl Hin)
      as [Hfirst|[_ Hsum]]; [by left|].
    right.
    by destruct (in_summarizationTrace _ _ _ _ _ _ Hsum)
      as [Heq|(r & _ & [Heq|(s & _ & Heq)])].
  - intros body t' Hin.
    destruct (Hwhere (SummariesCreate body t') eq_refl Hin)
      as [Hfirst|[_ Hsum]]; [done|].
    destruct (in_summarizationTrace _ _ _ _ _ _ Hsum)
      as [Heq|(r & Hr & [Heq|(s & _ & Heq)])]; try done.
    injection Heq as -> ->. split; [done|]. by exists r.
  - intros summaryResponse Hin Hresponse.
    apply Hcall in Hin. rewrite Htrace, Hin, !in_app_iff.
    right. left. unfold summarizationTrace. fold prompt.
    rewrite Hresponse. right. by left.
Qed.

Lemma summarization_trigger_witness :
  contentBlocks sampleSummaryResponse
    = [Text "a"; ToolUse "x" "y" emptyInput; Text "b"] /\
  In (SummariesCreate
        (String "a" (String (ascii_of_nat 10) (String "b" EmptyString))) "T")
     (trace (runIteration "T" longWorld startedProcessor)).
Proof.
  destruct (summarization_trigger "T" longWorld startedProcessor
              (runningTask windowedModel) None [sampleMessage "m1" "T"]
              "openai" longAnswer
              {| id := "m2"; createdAt := 7; updatedAt := 7; taskId := "T";
                 summaryId := None; role := ASSISTANT;
                 content := [Text "hi"] |})
    as (_ & Hsome & _ & _ & _ & Hcontent);
    try (vm_compute; reflexivity); [discriminate|].
  split; [reflexivity|].
  apply (Hcontent sampleSummaryResponse); [|reflexivity].
  apply (Hsome 200000%Z); [reflexivity|discriminate|by vm_compute|].
  vm_compute. discriminate.
Defined.

Lemma assembleMessages_ids ts t latestSummary unsummarizedMessages disabled :
  map id
    (assembleMessages ts t latestSummary unsummarizedMessages disabled) =
    match latestSummary with
    | Some _ => [""]
    | None => []
    end
    ++ map id unsummarizedMessages
    ++ (if disabled then [""] else []).
Proof.
  unfold assembleMessages. rewrite !map_app.
  by destruct latestSummary, disabled.
Qed.

Lemma not_in_no_attach e tr :
  Forall (λ e, isAttachSummary e = false) tr ->
  isAttachSummary e = true -> ~ In e tr.
Proof.
  intros Hall He Hin. rewrite Forall_forall in Hall.
  apply list_elem_of_In, Hall in Hin. congruence.
Qed.

(** C10: whenever an iteration attaches a summary, the ids it passes to
    attachSummary are the ids of the very message list it sent to the model
    in its first provider call: the ids of the unsummarized messages, with
    an empty id in front for the synthetic summary message and one at the
    end for the advisory message when these were added.  The list is fixed
    before the assistant message is persisted, so the id that the store
    gives that message, being new and not empty, is not in it. *)
Theorem attachSummary_ids t w p t' sid ids
    (Hattach : In (MessagesAttachSummary t' sid ids)
                  (trace (runIteration t w p))) :
  exists task latestSummary unsummarizedMessages tag,
    findById w t = Resolved task /\
    findLatest w t = Resolved latestSummary /\
    findUnsummarized w t = Resolved unsummarizedMessages /\
    let disabled := default false (computerToolsDisabled p !! t) in
    let messages :=
      assembleMessages (now w) t latestSummary unsummarizedMessages
        disabled in
    In (GenerateMessage tag AGENT_SYSTEM_PROMPT messages
          (name (resolveModel (model task))) true)
       (trace (runIteration t w p)) /\
    t' = t /\
    ids = map id messages /\
    ids =
      match latestSummary with
      | Some _ => [""]
      | None => []
      end
      ++ map id unsummarizedMessages
      ++ (if disabled then [""] else []) /\
    (forall blocks created,
       create_message w blocks ASSISTANT t = Resolved created ->
       id created <> "" ->
       ~ In (id created) (map id unsummarizedMessages) ->
       ~ In (id created) ids).
Proof.
  destruct (isProcessing p) eqn:Hproc;
    [|by rewrite runIteration_idle in Hattach].
  destruct (runIteration_trace_body t w p Hproc)
    as (handled0 & Htrace0 & Hhandled0).
  assert (In (MessagesAttachSummary t' sid ids) (trace (iterationBody t w p)))
    as Hbody.
  { rewrite Htrace0 in Hattach. apply in_app_iff in Hattach as [Hin|Hin];
      [done|].
    by destruct (in_handled (MessagesAttachSummary t' sid ids) _ Hhandled0
                   eq_refl Hin). }
  destruct (iterationBody_no_attach t w p)
    as [(task & latestSummary & unsummarizedMessages & Htask & Hrunning
         & Hlatest & Hunsummarized)|Hnone];
    [|by destruct (not_in_no_attach (MessagesAttachSummary t' sid ids) _
                   Hnone eq_refl Hbody)].
  rewrite (iterationBody_prelude _ _ _ _ _ _ Htask Hrunning Hlatest
             Hunsummarized) in Hbody.
  unfold trace at 1 in Hbody. cbn [snd] in Hbody.
  apply in_app_iff in Hbody as [Hbody|Hconsult];
    [by destruct Hbody as [?|[?|[?|[]]]]|].
  destruct (consultModel_no_attach t task (resolveModel (model task))
              (assembleMessages (now w) t latestSummary unsummarizedMessages
                 (default false (computerToolsDisabled p !! t)))
              w (set_abortController newAbortController p))
    as [(tag & response & created & Hservice & Hanswer & Hblocks & Hcreate)
       |Hnone];
    [|by destruct (not_in_no_attach (MessagesAttachSummary t' sid ids) _
                   Hnone eq_refl Hconsult)].
  clear Hconsult Htrace0 Hhandled0.
  destruct (runIteration_reaches t w p task latestSummary
              unsummarizedMessages tag response created Hproc Htask
              Hrunning Hlatest Hunsummarized Hservice Hanswer Hblocks Hcreate)
    as (dispatched & handled & Htrace & Hdispatched & Hhandled).
  exists task, latestSummary, unsummarizedMessages, tag.
  split; [done|]. split; [done|]. split; [done|]. cbv zeta.
  assert (t' = t /\
          ids = map id
                  (assembleMessages (now w) t latestSummary
                     unsummarizedMessages
                     (default false (computerToolsDisabled p !! t))))
    as [-> Hids].
  { rewrite Htrace, !in_app_iff in Hattach.
    destruct Hattach as [Hin|[Hin|[Hin|Hin]]].
    - by destruct Hin as [?|[?|[?|[?|[?|[]]]]]].
    - destruct (shouldSummarize _ response); [|done].
      destruct (in_summarizationTrace _ _ _ _ _ _ Hin)
        as [Heq|(r & _ & [Heq|(s & _ & Heq)])]; try done.
      by injection Heq as -> _ ->.
    - by destruct (in_dispatched (MessagesAttachSummary t' sid ids) _
                     Hdispatched eq_refl Hin).
    - by destruct (in_handled (MessagesAttachSummary t' sid ids) _ Hhandled
                      eq_refl Hin). }
  split; [rewrite Htrace; simpl; tauto|].
  split; [done|]. split; [done|].
  rewrite Hids, assembleMessages_ids.
  split; [done|].
  intros blocks made _ Hnonempty Hfresh.
  rewrite !in_app_iff. intros [Hin|[Hin|Hin]]; [|done|].
  - destruct latestSummary; [|done].
    destruct Hin as [Heq|[]]. congruence.
  - destruct (default false _); [|done].
    destruct Hin as [Heq|[]]. congruence.
Qed.

Lemma attachSummary_ids_witness :
  In (MessagesAttachSummary "T" "s1" ["m1"])
     (trace (runIteration "T" longWorld startedProcessor)) /\
  ~ In "m2" ["m1"].
Proof.
  assert (In (MessagesAttachSummary "T" "s1" ["m1"])
             (trace (runIteration "T" longWorld startedProcessor)))
    as Hattach by (vm_compute; tauto).
  split; [exact Hattach|].
  destruct (attachSummary_ids "T" longWorld startedProcessor "T" "s1" ["m1"]
              Hattach)
    as (task & latestSummary & unsummarizedMessages & tag & _ & _
        & Hunsummarized & _ & _ & _ & _ & Hfresh).
  injection Hunsummarized as <-.
  apply (Hfresh [Text "hi"]
           {| id := "m2"; createdAt := 7; updatedAt := 7; taskId := "T";
              summaryId := None; role := ASSISTANT;
              content := [Text "hi"] |});
    [reflexivity|discriminate|].
  intros [Heq|[]]. discriminate Heq.
Defined.

(** * Further properties of the processor *)

(** ** Starting, stopping and the lifecycle events *)

(** X1: an iteration that finds its task in a status other than RUNNING
    only reads the task: it clears the processing flags and calls neither
    the stores nor a provider nor a tool, and schedules nothing. *)
Theorem iteration_leaves_finished_task t w p task
    (Hprocessing : isProcessing p = true)
    (Htask : findById w t = Resolved task)
    (Hstatus : status task <> RUNNING) :
  runIteration t w p = (Normal tt, clearProcessing p, [TasksFindById t]).
Proof.
  apply (runIteration_body _ _ _ Return); [done| |done].
  unfold iterationBody. run_monad. rewrite Htask.
  by destruct (status task).
Qed.

Lemma iteration_leaves_finished_task_witness :
  runIteration "T" completedWorld startedProcessor =
    (Normal tt, clearProcessing startedProcessor, [TasksFindById "T"]).
Proof.
  apply (iteration_leaves_finished_task "T" completedWorld startedProcessor
           {| status := COMPLETED; model := JNull |});
    [reflexivity|reflexivity|discriminate].
Defined.

(** X2: processTask does not queue.  While the processor is processing, a
    processTask for any task changes nothing and starts nothing: the
    request is dropped.  That is the state in which a processTask leaves
    the processor, so of two calls that follow one another the second is
    dropped, and the task in hand is the one the processor already had, or
    else the one of the first call.  Once the processing flag has been
    cleared, a processTask takes up the task it is given and starts its
    first iteration. *)
Theorem processTask_does_not_queue t1 t2 w1 w2 p :
  (isProcessing p = true -> processTask t2 w2 p = (Normal tt, p, [])) /\
  (let p1 := final (processTask t1 w1 p) in
   processTask t2 w2 p1 = (Normal tt, p1, []) /\
   isProcessing p1 = true /\
   currentTaskId p1 = (if isProcessing p then currentTaskId p else Some t1)) /\
  (isProcessing p = false ->
   let r := processTask t2 w2 p in
   outcome r = Normal tt /\
   trace r = [StartIteration t2] /\
   isProcessing (final r) = true /\
   currentTaskId (final r) = Some t2).
Proof.
  unfold processTask. run_monad. unfold final, outcome, trace.
  split; [|split].
  - by intros ->.
  - destruct (isProcessing p) eqn:Hproc; simpl; by rewrite ?Hproc.
  - by intros ->.
Qed.

Lemma processTask_does_not_queue_witness :
  isProcessing startedProcessor = true /\
  processTask "U" chattyWorld startedProcessor
    = (Normal tt, startedProcessor, []) /\
  isProcessing stoppedProcessor = false /\
  trace (processTask "U" chattyWorld stoppedProcessor) = [StartIteration "U"].
Proof.
  destruct (processTask_does_not_queue "T" "U" chattyWorld chattyWorld
              startedProcessor) as (Hbusy & _ & _).
  destruct (processTask_does_not_queue "T" "U" chattyWorld chattyWorld
              stoppedProcessor) as (_ & _ & Hidle).
  split; [reflexivity|]. split; [by apply Hbusy|].
  split; [reflexivity|]. by apply Hidle.
Defined.

(** X3: stopProcessing is idempotent.  When the input capture stops without
    error, the processor is idle afterwards, and a second stopProcessing
    neither changes it nor calls anything (no second abort, no second stop
    of the input capture). *)
Theorem stopProcessing_idempotent w1 w2 p
    (Hidle : isProcessing p = true -> inputCapture_stop w1 = Resolved tt) :
  let p1 := final (stopProcessing w1 p) in
  isProcessing p1 = false /\
  stopProcessing w2 p1 = (Normal tt, p1, []).
Proof.
  unfold stopProcessing, abort. run_monad. unfold final.
  destruct (isProcessing p) eqn:Hproc; simpl.
  - rewrite (Hidle eq_refl).
    destruct (abortController p); simpl; by rewrite ?Hproc.
  - by rewrite Hproc.
Qed.

Lemma stopProcessing_idempotent_witness :
  stopProcessing interruptedWorld stoppedProcessor =
    (Normal tt, stoppedProcessor, []).
Proof.
  apply (stopProcessing_idempotent
           (sampleWorld (runningTask JNull) textAnswer) interruptedWorld
           startedProcessor).
  reflexivity.
Defined.

(** X4: when stopping the input capture fails, stopProcessing (and with it
    the cancel handler) rejects after the abort has been signalled, and the
    processor is left as it was: still processing the same task. *)
Theorem stopProcessing_failure_keeps_processing t w p e
    (Hprocessing : isProcessing p = true)
    (Hstop : inputCapture_stop w = Rejected e) :
  let r := stopProcessing w p in
  outcome r = Throw e /\
  outcome (handleTaskCancel t w p) = Throw e /\
  final (handleTaskCancel t w p) = final r /\
  isProcessing (final r) = true /\
  currentTaskId (final r) = currentTaskId p /\
  last (trace r) = Some InputCaptureStop /\
  (abortController p <> None ->
   trace r = [Abort; InputCaptureStop] /\
   abortController (final r) = Some {| aborted := true |}).
Proof.
  unfold handleTaskCancel, stopProcessing, abort, abortSignal. run_monad.
  unfold outcome, final, trace. rewrite Hprocessing. simpl.
  destruct (abortController p) eqn:Hc; simpl; rewrite Hstop; simpl;
    rewrite ?Hc; simpl; repeat split; try done.
Qed.

Lemma stopProcessing_failure_keeps_processing_witness :
  isProcessing
    (final (stopProcessing
              (withInputCaptureStop (Rejected storeDown) interruptedWorld)
              startedProcessor)) = true.
Proof.
  exact (proj1 (proj2 (proj2 (proj2
           (stopProcessing_failure_keeps_processing "T"
              (withInputCaptureStop (Rejected storeDown) interruptedWorld)
              startedProcessor storeDown eq_refl eq_refl))))).
Defined.




(** X5: a takeover never changes what the processor is processing nor its
    per-task records.  It always ends by starting the input capture for the
    task, and it signals the abort exactly when the processor holds that
    very task (and has a cancellation handle). *)
Theorem takeover_keeps_processing t w p :
  let r := handleTaskTakeover t w p in
  outcome r = Normal tt /\
  isProcessing (final r) = isProcessing p /\
  currentTaskId (final r) = currentTaskId p /\
  retryCounts (final r) = retryCounts p /\
  computerToolFailures (final r) = computerToolFailures p /\
  computerToolsDisabled (final r) = computerToolsDisabled p /\
  last (trace r) = Some (InputCaptureStart t) /\
  (In Abort (trace r) <->
   holdsTask t p = true /\ abortController p <> None).
Proof.
  unfold handleTaskTakeover, abort, abortSignal. run_monad.
  unfold outcome, final, trace.
  destruct (holdsTask t p) eqn:Hholds; simpl;
    [destruct (abortController p) eqn:Hc; simpl; rewrite ?Hc|];
    (do 7 (split; [done|])); simpl.
  - split; [done|]. intros _. by left.
  - split; [by intros [H|[]]|]. by intros [_ H].
  - split; [by intros [H|[]]|]. by intros [H _].
Qed.



(** ** Failing turns *)





Lemma services_known tag :
  In tag knownProviders -> services tag = Some (Registered tag).
Proof.
  unfold services. intros Hin.
  assert (existsb (String.eqb tag) knownProviders = true) as ->; [|done].
  apply existsb_exists. exists tag. split; [done|apply String.eqb_refl].
Qed.

Lemma services_registered tag service :
  services tag = Some service ->
  forall tag', service = Registered tag' ->
               tag' = tag /\ In tag knownProviders.
Proof.
  unfold services.
  destruct (existsb (String.eqb tag) knownProviders) eqn:Hknown.
  - intros [= <-] tag' [= <-]. split; [done|].
    apply existsb_exists in Hknown as (x & Hin & Heq).
    by apply String.eqb_eq in Heq as ->.
  - destruct (existsb _ objectPrototypeKeys); [|done].
    by intros [= <-] tag'.
Qed.

(** X9: the registry lookup can only miss for an object that names its own
    provider.  For every other persisted value (a bare name, a number,
    null, an array, an object without a string name) the resolved provider
    is one of the four registered services, and it is the service that
    generateMessage is then called on. *)
Theorem registry_miss_needs_named_provider (rawModel : JsonValue) :
  (forall tag, ~ namesProvider rawModel tag) ->
  In (provider (resolveModel rawModel)) knownProviders /\
  services (provider (resolveModel rawModel))
    = Some (Registered (provider (resolveModel rawModel))).
Proof.
  intros Hbare.
  assert (In (provider (resolveModel rawModel)) knownProviders) as Hin.
  { destruct rawModel as [| | | s | |obj]; try (simpl; tauto).
    - apply inferProvider_known.
    - simpl.
      destruct (asString (obj !! "provider")) as [p|] eqn:Hp;
        destruct (asString (obj !! "name")) as [n|] eqn:Hn; simpl;
        try tauto; try apply inferProvider_known.
      destruct (Hbare p). by exists obj, n. }
  split; [done|]. by apply services_known.
Qed.

Lemma registry_miss_needs_named_provider_witness :
  services (provider (resolveModel (JString "mistral-large")))
    = Some (Registered "proxy").
Proof.
  apply (registry_miss_needs_named_provider (JString "mistral-large")).
  intros tag (obj & n & Heq & _). discriminate Heq.
Defined.

(** ** Computer tools after the degradation *)

Lemma computer_block_only block :
  isComputerToolUseContentBlock block = true ->
  startsWith (block_name block) "computer_" = true /\
  isCreateTaskToolUseBlock block = false /\
  isSetTaskStatusToolUseBlock block = false.
Proof.
  destruct block as [|i n input|]; try done. simpl. intros Hn.
  split; [done|]. split.
  - destruct (String.eqb n "create_task") eqn:Heq; [|done].
    apply String.eqb_eq in Heq as ->. done.
  - destruct (String.eqb n "set_task_status") eqn:Heq; [|done].
    apply String.eqb_eq in Heq as ->. done.
Qed.

(** X10: the failure counter of a task counts every error-marked computer
    tool result, and nothing resets it: a result without error leaves it
    unchanged.  Once the task is marked disabled, computer tool uses are
    still run; an error then only raises the counter, and the turn goes on
    without a status update. *)
Theorem computer_tool_counter t task block st w p result
    (Hcomputer : isComputerToolUseContentBlock block = true)
    (Hresult : handleComputerToolUse w block = Resolved result) :
  (result_is_error result = false ->
   dispatchBlock t task block st w p =
     (Normal (st.1 ++ [result], st.2), p, [HandleComputerToolUse block])) /\
  (result_is_error result = true ->
   computerToolsDisabled p !! t = Some true ->
   dispatchBlock t task block st w p =
     (Normal (st.1 ++ [result], st.2),
      set_computerToolFailures
        (<[t := default 0 (computerToolFailures p !! t) + 1]>
           (computerToolFailures p)) p,
      [HandleComputerToolUse block])).
Proof.
  destruct (computer_block_only block Hcomputer)
    as (Hname & Hcreate & Hset).
  split.
  - intros Herror. unfold dispatchBlock, dispatchComputerTool. run_monad.
    by rewrite Hcomputer, Hresult, Herror, Hcreate, Hset.
  - intros Herror Hdisabled.
    unfold dispatchBlock, dispatchComputerTool. run_monad.
    rewrite Hcomputer, Hresult, Herror, Hname, Hcreate, Hset. simpl.
    rewrite Hdisabled. simpl. by rewrite andb_false_r.
Qed.

Lemma computer_tool_counter_witness :
  computerToolFailures
    (final (dispatchBlock "T" (runningTask (JString "gpt-4.1"))
              screenshotBlock ([], None) screenshotWorld restartedProcessor))
    !! "T" = Some 3.
Proof.
  destruct (computer_tool_counter "T" (runningTask (JString "gpt-4.1"))
              screenshotBlock ([], None) screenshotWorld restartedProcessor
              (ToolResult "u1" [Text "desktop unreachable"] (Some true))
              eq_refl eq_refl) as [_ Hfails].
  rewrite Hfails; [|reflexivity|by vm_compute]. by vm_compute.
Defined.

(** ** Summarization and the rest of the turn *)

Lemma consultModel_reaches_dispatch t task m messages w p tag response
    created :
  services (provider m) = Some (Registered tag) ->
  generateMessage w tag AGENT_SYSTEM_PROMPT messages (name m) true
    = Resolved response ->
  contentBlocks response <> [] ->
  create_message w (contentBlocks response) ASSISTANT t = Resolved created ->
  let r := dispatch t task (contentBlocks response) w p in
  consultModel t task m messages w p =
    (outcome r, final r,
     [GenerateMessage tag AGENT_SYSTEM_PROMPT messages (name m) true;
      MessagesCreate (contentBlocks response) ASSISTANT t]
     ++ (if shouldSummarize m response
         then summarizationTrace tag m messages w t else [])
     ++ trace r).
Proof.
  intros Hservice Hanswer Hblocks Hcreate.
  unfold consultModel, callModel, service_generateMessage.
  rewrite Hservice. unfold mbind at 1, M_bind at 1, try_catch, await.
  rewrite Hanswer. cbv zeta.
  destruct (contentBlocks response) as [|block blocks] eqn:Hcontent; [done|].
  cbn [length Nat.eqb].
  unfold mbind at 1, M_bind at 1, messages_create, await. rewrite Hcreate.
  unfold mbind at 1, M_bind at 1.
  destruct (shouldSummarize m response).
  - cbn [when]. rewrite summarize_run.
    by destruct (dispatch t task (block :: blocks) w p) as [[c p2] tr2].
  - cbn [when]. unfold mret, M_ret.
    by destruct (dispatch t task (block :: blocks) w p) as [[c p2] tr2].
Qed.

(** X11: summarization never decides how a turn ends.  Whether it runs,
    and whether its provider call, the creation of the summary or the
    attachment fails, the turn completes exactly as the dispatcher
    completes on the persisted blocks, from the same processor state. *)
Theorem summarization_does_not_affect_turn t task m messages w p tag
    response created
    (Hservice : services (provider m) = Some (Registered tag))
    (Hanswer : generateMessage w tag AGENT_SYSTEM_PROMPT messages (name m)
                 true = Resolved response)
    (Hblocks : contentBlocks response <> [])
    (Hcreate : create_message w (contentBlocks response) ASSISTANT t
               = Resolved created) :
  outcome (consultModel t task m messages w p)
    = outcome (dispatch t task (contentBlocks response) w p) /\
  final (consultModel t task m messages w p)
    = final (dispatch t task (contentBlocks response) w p).
Proof.
  by rewrite (consultModel_reaches_dispatch _ _ _ _ _ _ _ _ _ Hservice
                Hanswer Hblocks Hcreate).
Qed.

Lemma summarization_does_not_affect_turn_witness :
  outcome
    (consultModel "T" (runningTask windowedModel) (resolveModel windowedModel)
       [sampleMessage "m1" "T"] longWorld startedProcessor) = Normal tt.
Proof.
  rewrite (proj1 (summarization_does_not_affect_turn "T"
                    (runningTask windowedModel) (resolveModel windowedModel)
                    [sampleMessage "m1" "T"] longWorld startedProcessor
                    "openai" longAnswer
                    {| id := "m2"; createdAt := 7; updatedAt := 7;
                       taskId := "T"; summaryId := None; role := ASSISTANT;
                       content := [Text "hi"] |}
                    eq_refl eq_refl ltac:(discriminate) eq_refl)).
  by vm_compute.
Defined.


(** ** Scheduling the next iteration *)

Lemma scheduled_app tr1 tr2 :
  scheduled (tr1 ++ tr2) = scheduled tr1 + scheduled tr2.
Proof. unfold scheduled. by rewrite List.filter_app, length_app. Qed.

Lemma scheduled_none tr :
  Forall (λ e, isSchedule e = false) tr -> scheduled tr = 0.
Proof.
  unfold scheduled. induction 1 as [|e tr He _ IH]; [done|].
  simpl. by rewrite He.
Qed.

Lemma schedulesLast_quiet {A} (m : M A) :
  emitsOnly (λ e, isSchedule e = false) m -> schedulesLast m.
Proof. intros Hm w p. left. apply scheduled_none, Hm. Qed.

Lemma schedulesLast_bind {A B} (m : M A) (k : A -> M B) :
  emitsOnly (λ e, isSchedule e = false) m ->
  (forall a, schedulesLast (k a)) -> schedulesLast (m ≫= k).
Proof.
  intros Hm Hk w p. specialize (Hm w p). apply scheduled_none in Hm.
  unfold mbind, M_bind, trace, outcome in *.
  destruct (m w p) as [[[a| |e] p1] tr1]; simpl in *; auto.
  specialize (Hk a w p1). unfold trace, outcome in Hk.
  destruct (k a w p1) as [[c p2] tr2]; simpl in *.
  by rewrite scheduled_app, Hm.
Qed.

Lemma schedulesLast_emit e : schedulesLast (emit e).
Proof.
  intros w p. unfold scheduled, trace, outcome. simpl.
  destruct (isSchedule e); simpl; eauto.
Qed.

Ltac quiet := emits ltac:(intros; reflexivity).

Lemma dispatchBlocks_quiet t task blocks st :
  emitsOnly (λ e, isSchedule e = false) (dispatchBlocks t task blocks st).
Proof.
  revert st. induction blocks as [|block rest IH]; intros st; simpl.
  - apply emitsOnly_mret.
  - apply emitsOnly_bind; [|done].
    unfold dispatchBlock, dispatchComputerTool, dispatchCreateTask,
      tasks_update, tasks_create.
    quiet.
Qed.

Lemma dispatch_schedulesLast t task blocks :
  schedulesLast (dispatch t task blocks).
Proof.
  unfold dispatch.
  apply schedulesLast_bind; [apply dispatchBlocks_quiet|intros st].
  unfold afterBlocks.
  apply schedulesLast_bind; [unfold messages_create; quiet|intros _].
  apply schedulesLast_bind;
    [unfold applyTaskStatus, tasks_update; quiet|intros _].
  apply schedulesLast_bind; [quiet|intros processing].
  destruct processing; simpl;
    [apply schedulesLast_emit|apply schedulesLast_quiet; quiet].
Qed.

Lemma consultModel_schedulesLast t task m messages :
  schedulesLast (consultModel t task m messages).
Proof.
  unfold consultModel.
  destruct (services _) as [service|];
    [|apply schedulesLast_quiet; unfold tasks_update; quiet].
  apply schedulesLast_bind;
    [unfold callModel, tasks_update; quiet|intros agentResponse].
  cbv zeta.
  destruct (_ =? _)%nat;
    [apply schedulesLast_quiet; unfold tasks_update; quiet|].
  apply schedulesLast_bind; [quiet|intros _].
  apply schedulesLast_bind; [|intros _; apply dispatch_schedulesLast].
  unfold summarize, summaries_create, messages_attachSummary. quiet.
Qed.

Lemma iterationBody_schedulesLast t : schedulesLast (iterationBody t).
Proof.
  unfold iterationBody.
  apply schedulesLast_bind; [quiet|intros task].
  destruct (negb (isRunning (status task)));
    [apply schedulesLast_quiet; quiet|].
  do 5 (apply schedulesLast_bind; [quiet|intros]).
  apply consultModel_schedulesLast.
Qed.

Lemma iterationHandler_scheduled t e w p :
  scheduled (trace (iterationHandler t e w p)) <= 1.
Proof.
  unfold iterationHandler, tasks_update, await, mbind, M_bind, gets, modify,
    emit, return_, trace, scheduled.
  destruct (isInterrupt e); [destruct (_ <? _)%nat|];
    simpl; try lia; destruct (update w t _) as [[]|]; simpl; lia.
Qed.

(** X13: an iteration asks at most once for another iteration: it calls
    setImmediate or setTimeout at most once, never both. *)
Theorem iteration_schedules_at_most_once t w p :
  scheduled (trace (runIteration t w p)) <= 1.
Proof.
  pose proof (iterationBody_schedulesLast t w p) as Hbody.
  unfold runIteration. run_monad.
  destruct (isProcessing p); simpl; [|unfold scheduled; simpl; lia].
  revert Hbody. unfold trace, outcome.
  destruct (iterationBody t w p) as [[[[]| |e] p1] tr1]; simpl;
    try (intros [->|[-> _]]; lia).
  pose proof (iterationHandler_scheduled t e w p1) as Hhandler.
  revert Hhandler. unfold trace.
  destruct (iterationHandler t e w p1) as [[[[]| |e'] p2] tr2]; simpl;
    rewrite scheduled_app;
    (intros Hle [->|[_ [a Ha]]]; [lia|discriminate Ha]).
Qed.

(** ** A failing status update in the catch block *)

Lemma iterationHandler_update_rejected t e e' w p :
  (isInterrupt e = true -> MAX_INTERRUPT_RETRIES <= retryCount t p) ->
  (forall data, update w t data = Rejected e') ->
  outcome (iterationHandler t e w p) = Throw e' /\
  final (iterationHandler t e w p) = p /\
  scheduled (trace (iterationHandler t e w p)) = 0.
Proof.
  intros Hterminal Hupdate.
  unfold iterationHandler, tasks_update, await, mbind, M_bind, gets, modify.
  destruct (isInterrupt e).
  - specialize (Hterminal eq_refl). apply Nat.ltb_ge in Hterminal.
    fold (retryCount t p). by rewrite Hterminal, Hupdate.
  - by rewrite Hupdate.
Qed.

(** X12: when the iteration has failed for good (an error that is not an
    Interrupt, or an Interrupt with the retries used up) and the status
    update of the catch block fails too, runIteration rejects with the
    error of the update, and the processor is left processing the task with
    its retry count in place, while nothing schedules a further iteration.
    The retry timer swallows such a rejection. *)
Theorem failed_status_update_leaves_processing t w p e e'
    (Hraises : raises t w p e)
    (Hterminal : isInterrupt e = true -> 3 <= retryCount t p)
    (Hupdate : forall data, update w t data = Rejected e') :
  let r := runIteration t w p in
  outcome r = Throw e' /\
  isProcessing (final r) = true /\
  currentTaskId (final r) = currentTaskId p /\
  retryCounts (final r) = retryCounts p /\
  scheduled (trace r) = 0 /\
  outcome (retryCallback t w p) = Normal tt.
Proof.
  destruct (raises_body _ _ _ _ Hraises)
    as (p1 & tr1 & Hbody & Hcounts & Hproc1 & Hcur1 & _).
  destruct Hraises as [Hproc _].
  assert (isInterrupt e = true -> MAX_INTERRUPT_RETRIES <= retryCount t p1)
    as Hterminal1.
  { intros Hint. rewrite (retryCount_same t _ _ Hcounts). by apply Hterminal. }
  destruct (iterationHandler_update_rejected t e e' w p1 Hterminal1 Hupdate)
    as (Hout & Hfin & Hnone2).
  assert (scheduled tr1 = 0) as Hnone1.
  { pose proof (iterationBody_schedulesLast t w p) as Hlast.
    rewrite Hbody in Hlast. unfold trace, outcome in Hlast. simpl in Hlast.
    by destruct Hlast as [?|[_ [a Ha]]]. }
  assert (runIteration t w p =
            (Throw e', p1, tr1 ++ trace (iterationHandler t e w p1)))
    as Hrun.
  { unfold runIteration. run_monad. rewrite Hproc. simpl. rewrite Hbody.
    revert Hout Hfin. unfold outcome, final, trace.
    destruct (iterationHandler t e w p1) as [[c p2] tr2]. simpl.
    by intros -> ->. }
  cbv zeta. rewrite Hrun.
  change (trace (Throw e', p1, tr1 ++ trace (iterationHandler t e w p1)))
    with (tr1 ++ trace (iterationHandler t e w p1)).
  split; [done|]. split; [done|]. split; [done|]. split; [done|].
  split; [by rewrite scheduled_app, Hnone1, Hnone2|].
  unfold retryCallback. run_monad.
  destruct (holdsTask t p); [|done]. by rewrite Hrun.
Qed.

Lemma failed_status_update_leaves_processing_witness :
  outcome (runIteration "T" brokenStoreWorld startedProcessor)
    = Throw storeDown /\
  isProcessing (final (runIteration "T" brokenStoreWorld startedProcessor))
    = true.
Proof.
  destruct (failed_status_update_leaves_processing "T" brokenStoreWorld
              startedProcessor storeDown storeDown)
    as (Hout & Hproc & _).
  - split; by vm_compute.
  - intros Hint. by vm_compute in Hint.
  - reflexivity.
  - by split.
Defined.

(** ** What an iteration can call *)

Lemma services_registered_known tag tag' :
  services tag = Some (Registered tag') -> In tag' knownProviders.
Proof.
  intros Hservice.
  by destruct (services_registered _ _ Hservice tag' eq_refl) as [-> ?].
Qed.

Ltac alphabet :=
  emits ltac:(intros; subst; first [by constructor|by repeat constructor]).

Lemma dispatchBlock_alphabet t task block st :
  emitsOnly (iterationEvent t) (dispatchBlock t task block st).
Proof.
  unfold dispatchBlock.
  apply emitsOnly_bind; [|intros generated; apply emitsOnly_bind];
    [| |alphabet].
  - destruct (isComputerToolUseContentBlock block) eqn:Hcomputer;
      [|apply emitsOnly_mret].
    unfold dispatchComputerTool, tasks_update. alphabet.
  - unfold dispatchCreateTask, tasks_create. alphabet.
Qed.

Lemma dispatch_alphabet t task blocks :
  emitsOnly (iterationEvent t) (dispatch t task blocks).
Proof.
  unfold dispatch. apply emitsOnly_bind.
  - generalize ([] : list MessageContentBlock, None : option MessageContentBlock).
    induction blocks as [|block rest IH]; intros st; simpl.
    + apply emitsOnly_mret.
    + apply emitsOnly_bind; [apply dispatchBlock_alphabet|done].
  - intros st.
    unfold afterBlocks, applyTaskStatus, messages_create, tasks_update.
    alphabet.
Qed.

Lemma consultModel_alphabet t task m messages :
  emitsOnly (iterationEvent t) (consultModel t task m messages).
Proof.
  unfold consultModel.
  destruct (services (provider m)) as [service|] eqn:Hservice;
    [|unfold tasks_update; alphabet].
  assert (forall tag, service = Registered tag -> In tag knownProviders)
    as Hknown.
  { intros tag ->. by eapply services_registered_known. }
  apply emitsOnly_bind.
  - unfold callModel, tasks_update.
    apply emitsOnly_try_catch; [|alphabet].
    apply emitsOnly_service_generateMessage. intros tag Htag.
    constructor. by apply Hknown.
  - intros agentResponse. cbv zeta.
    destruct (_ =? _)%nat; [unfold tasks_update; alphabet|].
    apply emitsOnly_bind; [alphabet|intros _].
    apply emitsOnly_bind; [|intros _; apply dispatch_alphabet].
    apply emitsOnly_when. unfold summarize.
    apply emitsOnly_try_catch; [|alphabet].
    apply emitsOnly_bind; [alphabet|intros ts].
    apply emitsOnly_bind;
      [|unfold summaries_create, messages_attachSummary; alphabet].
    apply emitsOnly_service_generateMessage. intros tag Htag.
    constructor. by apply Hknown.
Qed.

Lemma runIteration_alphabet t :
  emitsOnly (iterationEvent t) (runIteration t).
Proof.
  unfold runIteration. apply emitsOnly_async, emitsOnly_bind; [alphabet|].
  intros processing. destruct (negb processing); [alphabet|].
  apply emitsOnly_try_catch.
  - unfold iterationBody.
    apply emitsOnly_bind; [alphabet|intros task].
    destruct (negb (isRunning (status task))); [alphabet|].
    do 5 (apply emitsOnly_bind; [alphabet|intros]).
    apply consultModel_alphabet.
  - intros err. unfold iterationHandler, tasks_update. alphabet.
Qed.

Lemma in_trace_alphabet t w p e :
  In e (trace (runIteration t w p)) -> iterationEvent t e.
Proof.
  intros Hin. pose proof (runIteration_alphabet t w p) as Hall.
  rewrite Forall_forall in Hall. by apply Hall, list_elem_of_In.
Qed.

(** X14: an iteration keeps to its own task and to its own business.
    Every call it makes that names a task names the task of the iteration;
    it calls a provider only among anthropic, openai, google and proxy, the
    desktop tool only on computer tool uses, creates subtasks only in the
    name of the assistant, sets a timer only for 500 ms, and never aborts,
    never touches the input capture and never starts an iteration
    directly. *)
Theorem iteration_keeps_to_its_task t w p e
    (Hcall : In e (trace (runIteration t w p))) :
  (forall t', eventTask e = Some t' -> t' = t) /\
  isLifecycleEvent e = false /\
  (forall tag sp msgs n tools,
     e = GenerateMessage tag sp msgs n tools -> In tag knownProviders) /\
  (forall block,
     e = HandleComputerToolUse block ->
     isComputerToolUseContentBlock block = true) /\
  (forall dto, e = TasksCreate dto -> dto_createdBy dto = ASSISTANT) /\
  (forall t' ms, e = SetTimeout t' ms -> ms = 500).
Proof.
  destruct (in_trace_alphabet _ _ _ _ Hcall); simpl;
    repeat split; intros; by simplify_eq.
Qed.

Lemma iteration_keeps_to_its_task_witness :
  eventTask (TasksFindById "T") = Some "T" /\
  isLifecycleEvent (TasksFindById "T") = false.
Proof.
  destruct (iteration_keeps_to_its_task "T" completedWorld startedProcessor
              (TasksFindById "T")) as (Htask & Hlife & _).
  - vm_compute. tauto.
  - by split.
Defined.

Lemma slice0_length n s : String.length (slice0 n s) <= n.
Proof.
  unfold slice0. revert s. induction n as [|n IH]; intros [|c s]; simpl;
    try lia.
  specialize (IH s). lia.
Qed.

Lemma orString_slice0 message fallback :
  fallback <> "" -> String.length fallback <= 500 ->
  orString (slice0 500 message) fallback <> "" /\
  String.length (orString (slice0 500 message) fallback) <= 500.
Proof.
  intros Hne Hlen. pose proof (slice0_length 500 message) as Hslice.
  unfold orString. by destruct (slice0 500 message).
Qed.

Lemma iterationUpdate_wellFormed data :
  iterationUpdate data -> wellFormedUpdate data.
Proof.
  assert (forall s, String.length s <= 500 -> s <> "" ->
            forall err, Some s = Some err ->
                        err <> "" /\ String.length err <= 500) as Hconst.
  { by intros s Hlen Hne err [= <-]. }
  destruct 1; unfold wellFormedUpdate; simpl;
    (split; [tauto|]); (split; [split; (done || discriminate)|]);
    try done;
    try (apply Hconst; [simpl; lia|done]);
    intros err [= <-]; by apply orString_slice0; [|simpl; lia].
Qed.

(** X15: every status update that an iteration sends sets FAILED,
    NEEDS_HELP or COMPLETED, carries [completedAt] exactly when it sets
    COMPLETED, and an error text, when it has one, that is not empty and
    has at most 500 characters. *)
Theorem iteration_updates_well_formed t w p t' data
    (Hcall : In (TasksUpdate t' data) (trace (runIteration t w p))) :
  (upd_status data = FAILED \/ upd_status data = NEEDS_HELP \/
   upd_status data = COMPLETED) /\
  (upd_completedAt data <> None <-> upd_status data = COMPLETED) /\
  (forall err, upd_error data = Some err ->
               err <> "" /\ String.length err <= 500).
Proof.
  apply iterationUpdate_wellFormed.
  pose proof (in_trace_alphabet _ _ _ _ Hcall) as Hevent.
  by inversion Hevent.
Qed.

Lemma iteration_updates_well_formed_witness :
  upd_status (failedUpdate (Some "aborted")) = FAILED \/
  upd_status (failedUpdate (Some "aborted")) = NEEDS_HELP \/
  upd_status (failedUpdate (Some "aborted")) = COMPLETED.
Proof.
  apply (iteration_updates_well_formed "T" abortedCallWorld startedProcessor
           "T" (failedUpdate (Some "aborted"))).
  vm_compute. tauto.
Defined.

(** ** The per-task records over time *)

Section OperationPreservesVia.
Context (R : AgentProcessor -> AgentProcessor -> Prop).
Context `{!Reflexive R, !Transitive R}.

Hypothesis R_clearProcessing : forall p, R p (clearProcessing p).
Hypothesis R_newAbortController :
  forall p, R p (set_abortController newAbortController p).
Hypothesis R_abortSignal : forall p, R p (abortSignal p).
Hypothesis R_start :
  forall p t,
    R p (set_abortController newAbortController (markProcessing t p)).
Hypothesis R_computerTool :
  forall t block generated,
    preserves R (dispatchComputerTool t block generated).
Hypothesis R_handler : forall t err, preserves R (iterationHandler t err).

Lemma dispatchBlocks_preserves_via t task blocks st :
  preserves R (dispatchBlocks t task blocks st).
Proof.
  revert st. induction blocks as [|block rest IH]; intros st; simpl.
  - papply preserves_mret.
  - papply preserves_bind; [|done]. unfold dispatchBlock.
    papply preserves_bind;
      [destruct (isComputerToolUseContentBlock block);
       [apply R_computerTool|papply preserves_mret]|intros generated].
    unfold dispatchCreateTask, tasks_create. preserve.
Qed.

Lemma consultModel_preserves_via t task m messages :
  preserves R (consultModel t task m messages).
Proof.
  unfold consultModel.
  destruct (services _) as [service|]; [|unfold tasks_update; preserve].
  papply preserves_bind;
    [unfold callModel, tasks_update; preserve|intros agentResponse].
  cbv zeta.
  destruct (_ =? _)%nat; [unfold tasks_update; preserve|].
  papply preserves_bind; [papply preserves_await|intros _].
  papply preserves_bind.
  - unfold summarize, summaries_create, messages_attachSummary. preserve.
  - intros _. unfold dispatch.
    papply preserves_bind; [apply dispatchBlocks_preserves_via|intros st].
    unfold afterBlocks, applyTaskStatus, messages_create, tasks_update.
    preserve.
Qed.

Lemma runIteration_preserves_via t : preserves R (runIteration t).
Proof.
  unfold runIteration. papply preserves_async.
  papply preserves_bind; [papply preserves_gets|intros processing].
  destruct (negb processing); [papply preserves_return|].
  papply preserves_try_catch; [|apply R_handler].
  unfold iterationBody.
  papply preserves_bind; [papply preserves_await|]. intros task.
  destruct (negb (isRunning (status task))); [preserve|].
  do 5 (papply preserves_bind; [preserve|intros]).
  apply consultModel_preserves_via.
Qed.

Lemma perform_preserves_via op : preserves R (perform op).
Proof.
  destruct op as [t|t|t|t| |t|t]; simpl.
  - by apply processTask_preserves.
  - unfold handleTaskTakeover.
    papply preserves_async; papply preserves_bind; [preserve|intros holds].
    papply preserves_bind; [|preserve].
    papply preserves_when; by apply abort_preserves.
  - unfold handleTaskResume. preserve.
  - papply preserves_async; by apply stopProcessing_preserves.
  - by apply stopProcessing_preserves.
  - apply runIteration_preserves_via.
  - unfold retryCallback.
    papply preserves_bind; [papply preserves_gets|intros holds].
    papply preserves_when; papply preserves_try_catch;
      [apply runIteration_preserves_via|intros; papply preserves_mret].
Qed.
End OperationPreservesVia.

Local Instance growsToolState_refl : Reflexive growsToolState.
Proof. by intros p t. Qed.

Local Instance growsToolState_trans : Transitive growsToolState.
Proof.
  intros p q r Hpq Hqr t.
  destruct (Hpq t) as [? ?], (Hqr t) as [? ?]. split; [lia|auto].
Qed.

Lemma growsToolState_same p p' :
  computerToolFailures p' = computerToolFailures p ->
  computerToolsDisabled p' = computerToolsDisabled p ->
  growsToolState p p'.
Proof. intros Hf Hd t. unfold failureCount. by rewrite Hf, Hd. Qed.

Lemma growsToolState_failure t p :
  growsToolState p
    (set_computerToolFailures
       (<[t := failureCount t p + 1]> (computerToolFailures p)) p).
Proof.
  intros t'. split; [|done]. unfold failureCount. simpl.
  destruct (decide (t = t')) as [->|Hne].
  - rewrite lookup_insert_eq. simpl. lia.
  - by rewrite lookup_insert_ne.
Qed.

Lemma growsToolState_disabled t p :
  growsToolState p
    (set_computerToolsDisabled (<[t := true]> (computerToolsDisabled p)) p).
Proof.
  intros t'. split; [done|]. simpl.
  destruct (decide (t = t')) as [->|Hne].
  - by rewrite lookup_insert_eq.
  - by rewrite lookup_insert_ne.
Qed.

Local Opaque Nat.leb.

Lemma dispatchComputerTool_run t block generated w p :
  let counted :=
    set_computerToolFailures
      (<[t := failureCount t p + 1]> (computerToolFailures p)) p in
  let disabled :=
    set_computerToolsDisabled (<[t := true]> (computerToolsDisabled p))
      counted in
  final (dispatchComputerTool t block generated w p) = p \/
  final (dispatchComputerTool t block generated w p) = counted \/
  (2 <= failureCount t p + 1 /\
   (final (dispatchComputerTool t block generated w p) = disabled \/
    final (dispatchComputerTool t block generated w p)
      = clearProcessing disabled)).
Proof.
  intros counted disabled. subst counted disabled.
  unfold dispatchComputerTool, tasks_update, failureCount. run_monad.
  unfold final.
  destruct (handleComputerToolUse w block) as [result|]; simpl; [|by left].
  destruct (result_is_error result && _); simpl; [|by left].
  destruct (2 <=? default 0 (computerToolFailures p !! t) + 1)%nat
    eqn:Hmany; simpl; [|by right; left].
  destruct (negb _); simpl; [|by right; left].
  apply Nat.leb_le in Hmany. right. right. split; [done|].
  destruct (update w t _); simpl; auto.
Qed.

Local Transparent Nat.leb.

Lemma dispatchComputerTool_grows t block generated :
  preserves growsToolState (dispatchComputerTool t block generated).
Proof.
  intros w p.
  destruct (dispatchComputerTool_run t block generated w p)
    as [Heq|[Heq|[_ [Heq|Heq]]]]; rewrite Heq.
  - done.
  - apply (growsToolState_failure t).
  - eapply growsToolState_trans; [apply (growsToolState_failure t)|].
    apply (growsToolState_disabled t (set_computerToolFailures _ p)).
  - eapply growsToolState_trans; [apply (growsToolState_failure t)|].
    eapply growsToolState_trans; [apply (growsToolState_disabled t (set_computerToolFailures _ p))|].
    by apply growsToolState_same.
Qed.

Lemma iterationHandler_keeps_tools t err w p :
  computerToolFailures (final (iterationHandler t err w p))
    = computerToolFailures p /\
  computerToolsDisabled (final (iterationHandler t err w p))
    = computerToolsDisabled p.
Proof.
  unfold iterationHandler, tasks_update, await, mbind, M_bind, gets, modify,
    emit, return_, final.
  destruct (isInterrupt err); [destruct (_ <? _)%nat|]; simpl; try done;
    by destruct (update w t _).
Qed.

(** X16: no operation of the processor lowers the failure counter of a
    task or takes back its disabled mark: across takeover, resume, cancel,
    a new processTask and any number of iterations, a degraded task stays
    degraded. *)
Theorem tool_state_only_grows op w p :
  growsToolState p (final (perform op w p)).
Proof.
  revert w p. fold (preserves growsToolState (perform op)).
  papply perform_preserves_via;
    try (intros; by apply growsToolState_same).
  - intros p. apply growsToolState_same; unfold abortSignal;
      by destruct (abortController p).
  - apply dispatchComputerTool_grows.
  - intros t err w p.
    destruct (iterationHandler_keeps_tools t err w p) as [Hf Hd].
    by apply growsToolState_same.
Qed.

Local Instance keepsRecords_refl : Reflexive keepsRecords.
Proof. intros p Hp. exact Hp. Qed.











(** * The tasks controller and the model tables *)

(** ** The status filter of findAll *)

Lemma split_nonempty sep s : split sep s <> [].
Proof.
  destruct s as [|c rest]; simpl; [done|].
  destruct (Ascii.eqb c sep); [done|]. by destruct (split sep rest).
Qed.

Lemma join_split sep s : join (String sep "") (split sep s) = s.
Proof.
  induction s as [|c rest IH]; simpl; [done|].
  destruct (Ascii.eqb c sep) eqn:Hc.
  - apply Ascii.eqb_eq in Hc as ->.
    destruct (split sep rest) as [|first others] eqn:Hsplit;
      [by destruct (split_nonempty sep rest)|].
    by rewrite <- IH.
  - destruct (split sep rest) as [|first others] eqn:Hsplit;
      [by destruct (split_nonempty sep rest)|].
    rewrite <- IH. by destruct others.
Qed.

Lemma includes_cons c s sep :
  includes (String c s) (String sep "")
  = Ascii.eqb c sep || includes s (String sep "").
Proof.
  simpl. destruct (ascii_dec sep c) as [->|Hne].
  - rewrite Ascii.eqb_refl. by destruct s.
  - apply not_eq_sym, Ascii.eqb_neq in Hne. by rewrite Hne.
Qed.

Lemma split_no_separator sep s :
  Forall (fun x => includes x (String sep "") = false) (split sep s).
Proof.
  induction s as [|c rest IH]; [by repeat constructor|].
  cbn [split]. destruct (Ascii.eqb c sep) eqn:Hc.
  - by constructor.
  - destruct (split sep rest) as [|first others] eqn:Hsplit;
      [by destruct (split_nonempty sep rest)|].
    inversion IH as [|? ? Hfirst Hothers]; subst.
    constructor; [|done]. by rewrite includes_cons, Hc.
Qed.

(** X18: the status filter of findAll.  A non-empty [statuses] parameter
    wins over [status]: the filter is its comma-separated pieces, none of
    which contains a comma, and joining them with commas gives the
    parameter back.  Without it, a non-empty [status] is taken whole, also
    when it contains commas.  There is no filter exactly when both are
    absent or empty. *)
Theorem status_filter_pieces (status statuses : option string) :
  (forall s, statuses = Some s -> s <> "" ->
     exists pieces,
       statusFilter status statuses = Some pieces /\
       pieces <> [] /\
       join "," pieces = s /\
       Forall (fun x => includes x "," = false) pieces) /\
  (forall s, isSet statuses = false -> status = Some s -> s <> "" ->
     statusFilter status statuses = Some [s]) /\
  (statusFilter status statuses = None <->
   isSet statuses = false /\ isSet status = false).
Proof.
  split; [|split].
  - intros s -> Hs. exists (split "," s).
    unfold statusFilter. destruct s as [|c rest]; [done|]. simpl truthyString.
    split; [done|]. split; [apply split_nonempty|].
    split; [apply join_split|apply split_no_separator].
  - intros s Hno -> Hs. unfold statusFilter, isSet in *.
    destruct (truthyString statuses); [done|]. by destruct s.
  - unfold statusFilter, isSet.
    destruct (truthyString statuses), (truthyString status);
      (split; [intros ?|intros [? ?]]; done).
Qed.

(** ** getModels *)

Lemma resolveModel_modelObject m : resolveModel (modelObject m) = m.
Proof.
  destruct m as [p n t [cw|]]; vm_compute; reflexivity.
Qed.

Lemma mapSettled_In {A B} (f : A -> Settled B) xs ys y :
  mapSettled f xs = Resolved ys -> In y ys ->
  exists x, In x xs /\ f x = Resolved y.
Proof.
  revert ys. induction xs as [|x rest IH]; simpl; intros ys Hmap Hin.
  - by simplify_eq.
  - destruct (f x) as [y'|] eqn:Hx; [|done].
    destruct (mapSettled f rest) as [ys'|]; [|done]. simplify_eq.
    destruct Hin as [->|Hin]; [by eauto|].
    destruct (IH ys' eq_refl Hin) as (x' & ? & ?). eauto.
Qed.

Lemma resolveModel_proxyObject modelName title :
  resolveModel (proxyObject modelName title) =
    match modelName with
    | JString n =>
        {| provider := "proxy"; name := n; title := title;
           contextWindow := Some 128000%Z |}
    | _ => defaultModel
    end.
Proof. destruct modelName; vm_compute; reflexivity. Qed.

Section GetModelsFacts.
Variable String_json : JsonValue -> Settled string.
Variable String_thrown : JsThrown -> Settled string.
Variables ANTHROPIC_MODELS GOOGLE_MODELS : list BytebotAgentModel.

Lemma proxyModel_listed record m :
  hasLitellmModel record = true ->
  proxyModel String_json record = Resolved m ->
  exists modelName title,
    litellmModel record = Some modelName /\ truthy modelName = true /\
    m = proxyObject modelName title.
Proof.
  unfold hasLitellmModel, proxyModel. intros Hhas Hm.
  destruct (litellmModel record) as [modelName|]; [|done]. simpl in Hm.
  rewrite Hhas in Hm.
  destruct (String_ _ _) as [title|]; [|done]. simplify_eq. eauto.
Qed.

Lemma proxyFailsWith_run fetch url err :
  proxyFailsWith String_json fetch url err ->
  fetchProxyModels String_json fetch url = Failed (ThrownJs err).
Proof.
  unfold proxyFailsWith, fetchProxyModels.
  intros [->|(response & -> & -> & [->|(proxyJson & -> & ->)])]; done.
Qed.

Lemma fetchProxyModels_cases fetch url :
  (exists response,
     fetch (modelInfoRequest url) = Resolved response /\
     res_ok response = false /\
     fetchProxyModels String_json fetch url =
       Failed (ThrownHttp
                 {| http_message := "Failed to fetch models from proxy: "
                                    +:+ res_statusText response;
                    http_status := BAD_GATEWAY |})) \/
  (exists err,
     proxyFailsWith String_json fetch url err /\
     fetchProxyModels String_json fetch url = Failed (ThrownJs err)) \/
  (exists response proxyJson models,
     fetch (modelInfoRequest url) = Resolved response /\
     res_ok response = true /\
     res_json response = Resolved proxyJson /\
     proxyModels String_json proxyJson = Resolved models /\
     fetchProxyModels String_json fetch url = Done models).
Proof.
  unfold proxyFailsWith, fetchProxyModels.
  destruct (fetch (modelInfoRequest url)) as [response|err];
    [|right; left; eauto].
  destruct (res_ok response) eqn:Hok; [|left; eauto].
  destruct (res_json response) as [proxyJson|err] eqn:Hjson;
    [|right; left; exists err; split; [right; eauto 10|done]].
  destruct (proxyModels String_json proxyJson) as [models|err] eqn:Hmodels.
  - right. right. by exists response, proxyJson, models.
  - right. left. exists err. split; [right; eauto 10|done].
Qed.

(** X19: with a proxy URL configured, getModels asks the proxy once and
    never falls back on the configured API keys: its answer does not
    depend on them, nor on the model tables.  An answer of the proxy that is
    not ok gives 502 with the status text.  When the request rejects, or
    the answer is ok and the parsing of its body or the building of the
    listing throws, getModels gives 500 with the message of that very
    error (of an [Error] its [message], of a thrown string the string); it
    rejects with something else only when turning the thrown value into a
    string throws itself.  An ok answer whose listing can be built is
    returned.  These are all the cases: 503 is never given. *)
Theorem proxy_mode_never_falls_back url env fetch (Hurl : url <> "") :
  let r := getModels String_json String_thrown ANTHROPIC_MODELS GOOGLE_MODELS
             (Some url) env fetch in
  let serverError msg :=
    Failed (ThrownHttp
              {| http_message := "Error fetching models: " +:+ msg;
                 http_status := INTERNAL_SERVER_ERROR |}) in
  let badGateway response :=
    Failed (ThrownHttp
              {| http_message := "Failed to fetch models from proxy: "
                                 +:+ res_statusText response;
                 http_status := BAD_GATEWAY |}) in
  (forall tables tables' env',
     r = getModels String_json String_thrown tables tables' (Some url) env'
           fetch) /\
  r.2 = [modelInfoRequest url] /\
  (forall response,
     fetch (modelInfoRequest url) = Resolved response ->
     res_ok response = false ->
     r.1 = badGateway response) /\
  (forall err msg,
     proxyFailsWith String_json fetch url err ->
     errorMessage String_thrown err = Resolved msg ->
     r.1 = serverError msg) /\
  (forall errName message,
     proxyFailsWith String_json fetch url (JsError errName message) ->
     r.1 = serverError message) /\
  (forall err e',
     proxyFailsWith String_json fetch url err ->
     errorMessage String_thrown err = Rejected e' ->
     r.1 = Failed (ThrownJs e')) /\
  (forall response proxyJson models,
     fetch (modelInfoRequest url) = Resolved response ->
     res_ok response = true ->
     res_json response = Resolved proxyJson ->
     proxyModels String_json proxyJson = Resolved models ->
     r.1 = Done models) /\
  (forall e,
     r.1 = Failed (ThrownHttp e) ->
     (exists response,
        fetch (modelInfoRequest url) = Resolved response /\
        res_ok response = false /\
        Failed (ThrownHttp e) = badGateway response) \/
     (exists err msg,
        proxyFailsWith String_json fetch url err /\
        errorMessage String_thrown err = Resolved msg /\
        Failed (ThrownHttp e) = serverError msg)) /\
  (forall e,
     r.1 = Failed (ThrownJs e) ->
     exists err,
       proxyFailsWith String_json fetch url err /\
       errorMessage String_thrown err = Rejected e).
Proof.
  destruct url as [|c rest]; [done|]. cbv zeta.
  unfold getModels. cbn [truthyString fst snd].
  set (url := String c rest).
  split; [done|]. split; [done|].
  split; [|split; [|split; [|split; [|split; [|split]]]]].
  - intros response Hfetch Hok. unfold fetchProxyModels.
    by rewrite Hfetch, Hok.
  - intros err msg Herr Hmsg.
    rewrite (proxyFailsWith_run _ _ _ Herr). simpl. by rewrite Hmsg.
  - intros errName message Herr.
    by rewrite (proxyFailsWith_run _ _ _ Herr).
  - intros err e' Herr Hmsg.
    rewrite (proxyFailsWith_run _ _ _ Herr). simpl. by rewrite Hmsg.
  - intros response proxyJson models Hfetch Hok Hjson Hmodels.
    unfold fetchProxyModels. by rewrite Hfetch, Hok, Hjson, Hmodels.
  - intros e.
    destruct (fetchProxyModels_cases fetch url)
      as [(response & Hfetch & Hok & ->)
         |[(err & Herr & ->)|(? & ? & models & _ & _ & _ & _ & ->)]];
      simpl; [|destruct (errorMessage String_thrown err) as [msg|] eqn:Hmsg|];
      intros He; simplify_eq; eauto 10.
  - intros e.
    destruct (fetchProxyModels_cases fetch url)
      as [(response & Hfetch & Hok & ->)
         |[(err & Herr & ->)|(? & ? & models & _ & _ & _ & _ & ->)]];
      simpl; [|destruct (errorMessage String_thrown err) as [msg|] eqn:Hmsg|];
      intros He; simplify_eq; eauto 10.
Qed.

(** X20: what the proxy listing holds and how the processor reads it.
    Every listed model comes from a record of the proxy's [data] array that
    has a truthy [litellm_params.model]; the listed name is that value, so
    the fallback name [unknown] is never used.  When the value is a string,
    the processor resolves the listed object to the proxy provider with
    that name and a context window of 128000, whatever provider the name
    alone would suggest; when it is no string, to the default descriptor. *)
Theorem proxy_listing_resolves url env fetch models requests m
    (Hurl : url <> "")
    (Hlisted : getModels String_json String_thrown ANTHROPIC_MODELS
                 GOOGLE_MODELS (Some url) env fetch
               = (Done models, requests))
    (Hm : In m models) :
  exists response proxyJson data record modelName title,
    fetch (modelInfoRequest url) = Resolved response /\
    res_json response = Resolved proxyJson /\
    field proxyJson "data" = Some (JArray data) /\
    In record data /\
    litellmModel record = Some modelName /\
    truthy modelName = true /\
    m = proxyObject modelName title /\
    (forall n, modelName = JString n ->
       resolveModel m =
         {| provider := "proxy"; name := n; title := title;
            contextWindow := Some 128000%Z |} /\
       services (provider (resolveModel m)) = Some (Registered "proxy")) /\
    ((forall n, modelName <> JString n) -> resolveModel m = defaultModel).
Proof.
  destruct url as [|c rest]; [done|].
  unfold getModels, fetchProxyModels in Hlisted. cbn [truthyString] in Hlisted.
  destruct (fetch _) as [response|err]; simpl in Hlisted;
    [|by destruct (errorMessage _ err)].
  destruct (res_ok response); simpl in Hlisted; [|done].
  destruct (res_json response) as [proxyJson|err] eqn:Hjson;
    simpl in Hlisted; [|by destruct (errorMessage _ err)].
  destruct (proxyModels _ proxyJson) as [listed|err] eqn:Hproxy;
    simpl in Hlisted; [|by destruct (errorMessage _ err)].
  simplify_eq. unfold proxyModels in Hproxy.
  destruct (field proxyJson "data") as [[| | | |data|]|] eqn:Hdata;
    simplify_eq; try done.
  destruct (mapSettled_In _ _ _ _ Hproxy Hm) as (record & Hrecord & Hmodel).
  apply filter_In in Hrecord as [Hrecord Hhas].
  apply filter_In in Hrecord as [Hrecord _].
  destruct (proxyModel_listed record m Hhas Hmodel)
    as (modelName & title & Hname & Htruthy & ->).
  exists response, proxyJson, data, record, modelName, title.
  do 7 (split; [done|]). rewrite resolveModel_proxyObject. split.
  - by intros n ->.
  - intros Hno. destruct modelName; try done. by destruct (Hno s).
Qed.

(** X21: without a proxy URL, getModels makes no request.  It gives 503
    exactly when no configured key selects a model; otherwise it lists the
    tables of the providers whose key is set, in the order anthropic,
    openai, google, and the processor reads every listed object back as
    the very descriptor of the table. *)
Theorem configured_models_read_back proxyUrl env fetch
    (Hno : isSet proxyUrl = false) :
  let r := getModels String_json String_thrown ANTHROPIC_MODELS GOOGLE_MODELS
             proxyUrl env fetch in
  let configured :=
    (if isSet (ANTHROPIC_API_KEY env) then ANTHROPIC_MODELS else []) ++
    (if isSet (OPENAI_API_KEY env) then OPENAI_MODELS else []) ++
    (if isSet (GEMINI_API_KEY env) then GOOGLE_MODELS else []) in
  r.2 = [] /\
  (configured = [] -> r.1 = Failed (ThrownHttp noModelsConfigured)) /\
  (configured <> [] ->
   exists models,
     r.1 = Done models /\
     length models = length configured /\
     resolveModel <$> models = configured).
Proof.
  cbv zeta. unfold getModels. unfold isSet in Hno.
  destruct (truthyString proxyUrl); [done|]. cbn [fst snd].
  unfold dynamicModels.
  match goal with
  | |- context [(length ?l =? 0)%nat] => generalize l; intros configured
  end.
  split; [done|]. split.
  - by intros ->.
  - intros Hsome. destruct configured as [|m rest]; [done|].
    eexists. split; [done|]. rewrite length_fmap. split; [done|].
    rewrite <- list_fmap_compose. rewrite <- (list_fmap_id (m :: rest)) at 2.
    apply list_fmap_ext. intros ? x _. apply resolveModel_modelObject.
Qed.
End GetModelsFacts.

Lemma proxy_mode_never_falls_back_witness :
  (getModels plainString plainString [] [] (Some "http://proxy:4000")
     openaiOnly (proxyAnswers (Resolved unavailableResponse))).1
  = Failed (ThrownHttp
              {| http_message :=
                   "Failed to fetch models from proxy: Service Unavailable";
                 http_status := BAD_GATEWAY |}) /\
  (getModels plainString plainString [] [] (Some "http://proxy:4000")
     openaiOnly (proxyAnswers (Rejected (JsError "TypeError" "fetch failed")))).1
  = Failed (ThrownHttp
              {| http_message := "Error fetching models: fetch failed";
                 http_status := INTERNAL_SERVER_ERROR |}).
Proof.
  split.
  - refine (proj1 (proj2 (proj2
      (proxy_mode_never_falls_back plainString plainString [] []
         "http://proxy:4000" openaiOnly
         (proxyAnswers (Resolved unavailableResponse)) _))) _ eq_refl eq_refl).
    done.
  - refine (proj1 (proj2 (proj2 (proj2 (proj2
      (proxy_mode_never_falls_back plainString plainString [] []
         "http://proxy:4000" openaiOnly
         (proxyAnswers (Rejected (JsError "TypeError" "fetch failed")))
         _))))) "TypeError" "fetch failed" _).
    + done.
    + by left.
Defined.

Lemma proxy_listing_resolves_witness :
  let m := proxyObject (JString "gpt-4o") "fast" in
  exists response proxyJson data record modelName title,
    proxyAnswers (Resolved listingResponse)
      (modelInfoRequest "http://proxy:4000") = Resolved response /\
    res_json response = Resolved proxyJson /\
    field proxyJson "data" = Some (JArray data) /\
    In record data /\
    litellmModel record = Some modelName /\
    truthy modelName = true /\
    m = proxyObject modelName title /\
    (forall n, modelName = JString n ->
       resolveModel m =
         {| provider := "proxy"; name := n; title := title;
            contextWindow := Some 128000%Z |} /\
       services (provider (resolveModel m)) = Some (Registered "proxy")) /\
    ((forall n, modelName <> JString n) -> resolveModel m = defaultModel).
Proof.
  apply (proxy_listing_resolves plainString plainString [] []
           "http://proxy:4000" openaiOnly
           (proxyAnswers (Resolved listingResponse))
           [proxyObject (JString "gpt-4o") "fast"]
           [modelInfoRequest "http://proxy:4000"]).
  - done.
  - vm_compute. reflexivity.
  - by left.
Defined.

Lemma configured_models_read_back_witness :
  exists models,
    (getModels plainString plainString [] [] None openaiOnly
       (proxyAnswers (Resolved unavailableResponse))).1 = Done models /\
    length models = 2 /\
    resolveModel <$> models = OPENAI_MODELS.
Proof.
  apply (configured_models_read_back plainString plainString [] [] None
           openaiOnly (proxyAnswers (Resolved unavailableResponse)));
    done.
Defined.

(** * The key check *)

Lemma listModels_ok fetch request arrayKey :
  pr_ok (listModels fetch request arrayKey) = true <->
  listsModels fetch request.
Proof.
  unfold listModels, listsModels. split.
  - destruct (fetch request) as [r|err]; [|done].
    destruct (res_status r =? 200)%nat eqn:Hstatus; [|done].
    apply Nat.eqb_eq in Hstatus.
    destruct (res_json r) as [j|err] eqn:Hjson; [|done]. eauto.
  - intros (r & j & -> & Hstatus & Hjson). by rewrite Hstatus, Hjson.
Qed.

Lemma verifyOpenAI_ok env fetch :
  pr_ok (verifyOpenAI env fetch).1 = true <->
  exists k, truthyString (OPENAI_API_KEY env) = Some k /\
            listsModels fetch (openaiRequest k).
Proof.
  unfold verifyOpenAI. destruct (truthyString _) as [k|]; simpl.
  - rewrite listModels_ok. split; [by eauto|]. by intros (? & [= <-] & ?).
  - split; [done|]. by intros (? & ? & _).
Qed.

Lemma verifyAnthropic_ok env fetch :
  pr_ok (verifyAnthropic env fetch).1 = true <->
  exists k, truthyString (ANTHROPIC_API_KEY env) = Some k /\
            listsModels fetch (anthropicRequest k).
Proof.
  unfold verifyAnthropic. destruct (truthyString _) as [k|]; simpl.
  - rewrite listModels_ok. split; [by eauto|]. by intros (? & [= <-] & ?).
  - split; [done|]. by intros (? & ? & _).
Qed.

Lemma verifyGemini_ok env fetch :
  pr_ok (verifyGemini env fetch).1 = true <->
  exists k, truthyString (GEMINI_API_KEY env) = Some k /\
            listsModels fetch (geminiRequest k).
Proof.
  unfold verifyGemini. destruct (truthyString _) as [k|]; simpl.
  - rewrite listModels_ok. split; [by eauto|]. by intros (? & [= <-] & ?).
  - split; [done|]. by intros (? & ? & _).
Qed.

(** X22: the key check exits exactly once, as the last thing it does, with
    code 0 or 1.  The code is 0 exactly when the application context came
    up and each of the three keys is set and its provider answered the
    listing request with status 200 and a body that parses; how many models
    a provider lists does not matter. *)
Theorem verify_keys_exit_code context env fetch :
  exists before code,
    main context env fetch = before ++ [Exit code] /\
    (forall c, ~ In (Exit c) before) /\
    (code = 0 \/ code = 1) /\
    (code = 0 <->
     (exists u, context = Resolved u) /\
     (exists k, truthyString (OPENAI_API_KEY env) = Some k /\
                listsModels fetch (openaiRequest k)) /\
     (exists k, truthyString (ANTHROPIC_API_KEY env) = Some k /\
                listsModels fetch (anthropicRequest k)) /\
     (exists k, truthyString (GEMINI_API_KEY env) = Some k /\
                listsModels fetch (geminiRequest k))).
Proof.
  unfold main. destruct context as [u|err].
  - cbv zeta. cbn [existsb snd].
    exists (CreateApplicationContext ::
            (Fetch <$> (verifyOpenAI env fetch).2 ++
                       (verifyAnthropic env fetch).2 ++
                       (verifyGemini env fetch).2) ++
            [ConsoleLog [("openai", (verifyOpenAI env fetch).1);
                         ("anthropic", (verifyAnthropic env fetch).1);
                         ("gemini", (verifyGemini env fetch).1)]]).
    eexists. split; [rewrite <- app_comm_cons, <- app_assoc; reflexivity|].
    split; [|split].
    + intros c [Hc|Hc]; [done|].
      apply in_app_or in Hc as [Hc|[Hc|[]]]; [|done].
      apply in_map_iff in Hc as (? & ? & _). done.
    + destruct (_ || _); auto.
    + rewrite <- verifyOpenAI_ok, <- verifyAnthropic_ok, <- verifyGemini_ok.
      destruct (pr_ok (verifyOpenAI env fetch).1),
        (pr_ok (verifyAnthropic env fetch).1),
        (pr_ok (verifyGemini env fetch).1); simpl;
        (split; [intros ?|intros (_ & ? & ? & ?)]; by eauto).
  - exists [CreateApplicationContext; ConsoleError err], 1.
    split; [done|]. split; [|split].
    + intros c [Hc|[Hc|[]]]; done.
    + auto.
    + split; [done|]. by intros [[u Hu] _].
Qed.

(** * The retry logic of the VNC viewer *)

Lemma onEvent_timers e st :
  ((onEvent e st).2 = [] /\ attempt (onEvent e st).1 = attempt st) \/
  (attempt st < MAX_RETRIES /\
   attempt (onEvent e st).1 = attempt st + 1 /\
   (onEvent e st).2 = [retryDelay (attempt st)]).
Proof.
  destruct e as [|detail|detail| |now]; simpl; auto.
  - unfold handleDisconnect. cbn [andb].
    destruct (attempt st <? MAX_RETRIES)%nat eqn:Hbelow; simpl; auto.
    apply Nat.ltb_lt in Hbelow. auto.
Qed.

Lemma onEvents_cons e es st :
  onEvents (e :: es) st =
    ((onEvents es (onEvent e st).1).1,
     (onEvent e st).2 ++ (onEvents es (onEvent e st).1).2).
Proof.
  cbn [onEvents]. destruct (onEvent e st) as [st1 timers]. cbn [fst snd].
  by destruct (onEvents es st1).
Qed.

Lemma onEvents_timers es st :
  attempt st <= attempt (onEvents es st).1 /\
  (attempt st <= MAX_RETRIES -> attempt (onEvents es st).1 <= MAX_RETRIES) /\
  (onEvents es st).2 =
    retryDelay <$> seq (attempt st) (attempt (onEvents es st).1 - attempt st).
Proof.
  revert st. induction es as [|e es IH]; intros st.
  - simpl. by rewrite Nat.sub_diag.
  - rewrite onEvents_cons. cbn [fst snd].
    destruct (IH (onEvent e st).1) as (Hle & Hmax & Htimers).
    destruct (onEvent_timers e st) as [[-> Hsame]|(Hbelow & Hnext & ->)].
    + rewrite Hsame in *. done.
    + rewrite Hnext in *. split; [lia|]. split; [lia|].
      rewrite Htimers.
      replace (attempt (onEvents es (onEvent e st).1).1 - attempt st)
        with (S (attempt (onEvents es (onEvent e st).1).1
                 - (attempt st + 1))) by lia.
      simpl. by rewrite Nat.add_1_r.
Qed.

(** X23: the retries of the viewer.  However the connection events and
    timers of a mounted viewer follow one another, [attempt] never exceeds
    MAX_RETRIES, the timers set are those of the attempts so far, the k-th
    with a delay of 1500 * 2^k ms, so there are at most five of them and
    their delays add up to at most 46500 ms. *)
Theorem viewer_retry_budget url es :
  let r := onEvents es (mountedViewer url) in
  attempt r.1 <= MAX_RETRIES /\
  r.2 = retryDelay <$> seq 0 (attempt r.1) /\
  length r.2 <= MAX_RETRIES /\
  (totalDelay r.2 <= 46500)%N.
Proof.
  cbv zeta.
  destruct (onEvents_timers es (mountedViewer url)) as (_ & Hmax & Htimers).
  change (attempt (mountedViewer url)) with 0 in *.
  rewrite Nat.sub_0_r in Htimers.
  specialize (Hmax (Nat.le_0_l _)). rewrite Htimers.
  split; [done|]. split; [done|].
  rewrite length_fmap, length_seq. split; [done|].
  unfold MAX_RETRIES in *.
  destruct (attempt _) as [|[|[|[|[|[|n]]]]]]; [by vm_compute..|lia].
Qed.

(** X24: a connection that succeeds does not give retries back: no event
    lowers [attempt], and once it has reached MAX_RETRIES no later event
    sets a timer, whatever happens in between. *)
Theorem viewer_retries_not_renewed es st
    (Hspent : attempt st = MAX_RETRIES) :
  attempt (onEvents es st).1 = MAX_RETRIES /\ (onEvents es st).2 = [].
Proof.
  destruct (onEvents_timers es st) as (Hle & Hmax & Htimers).
  rewrite Hspent in *. specialize (Hmax (le_n _)).
  assert (attempt (onEvents es st).1 = MAX_RETRIES) as Heq by lia.
  split; [done|]. by rewrite Htimers, Heq, Nat.sub_diag.
Qed.

Lemma viewer_retries_not_renewed_witness :
  (onEvents [OnConnect; OnDisconnect (DetailOther "{}")]
     {| viewer_status := StatusDisconnected; lastError := None;
        attempt := 5; wsUrl := Some "ws://host/websockify" |}).2 = [].
Proof. apply viewer_retries_not_renewed. reflexivity. Defined.

Lemma hd_split_decompose sep s :
  exists rest,
    s = hd "" (split sep s) +:+ rest /\
    (rest = "" \/ exists r, rest = String sep r).
Proof.
  induction s as [|c s IH]; simpl.
  - exists "". auto.
  - destruct (Ascii.eqb c sep) eqn:Hc.
    + apply Ascii.eqb_eq in Hc as ->. exists (String sep s). simpl. eauto.
    + destruct IH as (rest & Hs & Hrest).
      destruct (split sep s) as [|first others] eqn:Hsplit;
        [by destruct (split_nonempty sep s)|].
      exists rest. split; [|done]. simpl in Hs. by rewrite Hs at 1.
Qed.

Lemma hd_split_no_separator sep s :
  includes (hd "" (split sep s)) (String sep "") = false.
Proof.
  pose proof (split_no_separator sep s) as Hall.
  destruct (split sep s) as [|first others] eqn:Hsplit;
    [by destruct (split_nonempty sep s)|].
  by inversion Hall.
Qed.

Lemma hd_split_app sep base rest :
  includes base (String sep "") = false ->
  hd "" (split sep (base +:+ String sep rest)) = base.
Proof.
  induction base as [|c base IH]; intros Hbase.
  - simpl. by rewrite Ascii.eqb_refl.
  - rewrite includes_cons in Hbase.
    apply orb_false_iff in Hbase as [Hc Hbase]. specialize (IH Hbase).
    simpl. rewrite Hc.
    destruct (split sep (base +:+ String sep rest)) as [|first others]
      eqn:Hsplit; [by destruct (split_nonempty sep _ Hsplit)|].
    simpl in *. by rewrite IH.
Qed.

Lemma startsWith_head c s : startsWith (String c s) (String c "") = true.
Proof.
  unfold startsWith. simpl. destruct (ascii_dec c c); [by destruct s|done].
Qed.

(** X25: the URL that a retry connects to.  A retry keeps the part of the
    URL before its first question mark and puts [?r=<time>] after it: a
    query string that the URL had is dropped, and the markers of earlier
    retries do not pile up. *)
Theorem refresh_url_keeps_base now later url (Hurl : url <> "") :
  exists base rest,
    url = base +:+ rest /\
    includes base "?" = false /\
    (rest = "" \/ startsWith rest "?" = true) /\
    refreshUrl now (Some url) = Some (base +:+ "?r=" +:+ showN now) /\
    refreshUrl later (refreshUrl now (Some url))
      = Some (base +:+ "?r=" +:+ showN later).
Proof.
  destruct (hd_split_decompose "?" url) as (rest & Hsplit & Hrest).
  exists (hd "" (split "?" url)), rest.
  pose proof (hd_split_no_separator "?" url) as Hbase.
  split; [done|]. split; [done|]. split.
  - destruct Hrest as [->|[r ->]]; [by left|right].
    apply startsWith_head.
  - assert (refreshUrl now (Some url)
            = Some (hd "" (split "?" url) +:+ "?r=" +:+ showN now)) as ->.
    { unfold refreshUrl. by destruct url. }
    split; [done|]. unfold refreshUrl.
    change ("?r=" +:+ showN now) with (String "?" ("r=" +:+ showN now)).
    destruct (hd "" (split "?" url) +:+ String "?" ("r=" +:+ showN now))
      as [|c s] eqn:Hnew.
    + by destruct (hd "" (split "?" url)).
    + cbn [truthyString]. rewrite <- Hnew. by rewrite hd_split_app.
Qed.

Lemma refresh_url_keeps_base_witness :
  exists base rest,
    "ws://host/websockify?token=abc" = base +:+ rest /\
    includes base "?" = false /\
    (rest = "" \/ startsWith rest "?" = true) /\
    refreshUrl 1000 (Some "ws://host/websockify?token=abc")
      = Some (base +:+ "?r=" +:+ showN 1000) /\
    refreshUrl 2500 (refreshUrl 1000 (Some "ws://host/websockify?token=abc"))
      = Some (base +:+ "?r=" +:+ showN 2500).
Proof. apply refresh_url_keeps_base. done. Defined.

(** * How an iteration ends *)

Lemma returnsCleared_normal {A} (m : M A) :
  (forall w p, outcome (m w p) <> Return) -> returnsCleared m.
Proof. intros Hm w p Hreturn. by destruct (Hm w p). Qed.

Lemma returnsCleared_clear {A} :
  returnsCleared (modify clearProcessing ≫= λ _, @return_ A).
Proof. by intros w p _. Qed.

Lemma returnsCleared_bind {A B} (m : M A) (k : A -> M B) :
  returnsCleared m -> (forall a, returnsCleared (k a)) ->
  returnsCleared (m ≫= k).
Proof.
  intros Hm Hk w p. specialize (Hm w p).
  unfold mbind, M_bind, final, outcome in *.
  destruct (m w p) as [[[a| |e] p1] tr1]; simpl in *; [|by intros _; apply Hm|done].
  specialize (Hk a w p1). unfold final, outcome in Hk.
  destruct (k a w p1) as [[c p2] tr2]. simpl in *. done.
Qed.

Lemma returnsCleared_try_catch {A} (m : M A) (h : JsThrown -> M A) :
  returnsCleared m -> (forall e, returnsCleared (h e)) ->
  returnsCleared (try_catch m h).
Proof.
  intros Hm Hh w p. specialize (Hm w p).
  unfold try_catch, final, outcome in *.
  destruct (m w p) as [[[a| |e] p1] tr1]; simpl in *; [done|by intros _; apply Hm|].
  specialize (Hh e w p1). unfold final, outcome in Hh.
  destruct (h e w p1) as [[c p2] tr2]. simpl in *. done.
Qed.

Ltac cleared :=
  repeat first
    [ lazymatch goal with
      | |- forall _, _ => intro
      end
    | apply returnsCleared_clear
    | apply returnsCleared_bind
    | apply returnsCleared_try_catch
    | progress cbv zeta
    | match goal with
      | |- returnsCleared (if ?c then _ else _) => destruct c
      | |- returnsCleared (match ?x with _ => _ end) => destruct x
      | |- returnsCleared (when ?c _) => destruct c; simpl
      end
    | solve [ apply returnsCleared_normal; intros w p;
              unfold outcome, await, throw, gets, asks, modify, emit, mret,
                M_ret;
              repeat case_match; simplify_eq; done ] ].

Lemma dispatchBlocks_returnsCleared t task blocks st :
  returnsCleared (dispatchBlocks t task blocks st).
Proof.
  revert st. induction blocks as [|block rest IH]; intros st; simpl.
  - cleared.
  - apply returnsCleared_bind; [|done].
    unfold dispatchBlock, dispatchComputerTool, dispatchCreateTask,
      tasks_update, tasks_create.
    cleared.
Qed.

Lemma iterationBody_returnsCleared t : returnsCleared (iterationBody t).
Proof.
  unfold iterationBody, consultModel, callModel, summarize, dispatch,
    afterBlocks, applyTaskStatus, service_generateMessage, tasks_findById,
    tasks_update, summaries_findLatest, summaries_create,
    messages_findUnsummarized, messages_create, messages_attachSummary.
  cleared; try apply dispatchBlocks_returnsCleared; cleared.
Qed.

Lemma continues_bind {A B} (m : M A) (k : A -> M B) :
  (forall a, continues (k a)) -> continues (m ≫= k).
Proof.
  intros Hk w p b.
  unfold mbind, M_bind, final, outcome, trace.
  destruct (m w p) as [[[a| |e] p1] tr1]; simpl; try done.
  specialize (Hk a w p1 b). unfold final, outcome, trace in Hk.
  destruct (k a w p1) as [[c p2] tr2]; simpl in *.
  intros Hc Hp. rewrite scheduled_app. specialize (Hk Hc Hp). lia.
Qed.

Lemma continues_return {A} : continues (@return_ A).
Proof. by intros w p a. Qed.

Lemma continues_afterBlocks t st : continues (afterBlocks t st).
Proof.
  unfold afterBlocks. do 2 (apply continues_bind; intros _).
  intros w p a _. unfold mbind, M_bind, gets, when, emit, final, trace.
  simpl. destruct (isProcessing p) eqn:Hp; simpl; [|by rewrite Hp].
  intros _. unfold scheduled. simpl. lia.
Qed.

Lemma iterationBody_continues t : continues (iterationBody t).
Proof.
  unfold iterationBody. apply continues_bind; intros task.
  destruct (negb (isRunning (status task)));
    [apply continues_bind; intros _; apply continues_return|].
  do 5 (apply continues_bind; intros). unfold consultModel.
  destruct (services _) as [service|];
    [|do 2 (apply continues_bind; intros _); apply continues_return].
  apply continues_bind; intros agentResponse. cbv zeta.
  destruct (_ =? _)%nat;
    [do 2 (apply continues_bind; intros _); apply continues_return|].
  do 2 (apply continues_bind; intros _).
  unfold dispatch. apply continues_bind; intros st.
  apply continues_afterBlocks.
Qed.

Lemma iterationHandler_ends t e w p :
  isProcessing p = true ->
  match outcome (iterationHandler t e w p) with
  | Return =>
      isProcessing (final (iterationHandler t e w p)) = true /\
      scheduled (trace (iterationHandler t e w p)) = 1
  | Normal _ =>
      isProcessing (final (iterationHandler t e w p)) = false /\
      scheduled (trace (iterationHandler t e w p)) = 0
  | Throw _ => True
  end.
Proof.
  intros Hp.
  unfold iterationHandler, tasks_update, await, mbind, M_bind, gets, modify,
    emit, return_, outcome, final, trace, scheduled.
  destruct (isInterrupt e); [destruct (_ <? _)%nat|]; simpl; try done;
    by destruct (update w t _) as [[]|].
Qed.

(** X26: an iteration that resolves leaves the processor processing
    exactly when it has asked for one continuation, the next iteration or
    a retry: it never stalls silently, and never schedules an iteration
    for a processor that it has stopped. *)
Theorem iteration_continues_iff_processing t w p
    (Hresolves : outcome (runIteration t w p) = Normal tt) :
  isProcessing (final (runIteration t w p)) = true <->
  scheduled (trace (runIteration t w p)) = 1.
Proof.
  destruct (isProcessing p) eqn:Hp;
    [|rewrite runIteration_idle by done; unfold final, trace, scheduled;
      simpl; rewrite Hp; split; intros ?; discriminate].
  pose proof (iterationBody_sameProcessing t w p) as Hsame.
  pose proof (iterationBody_schedulesLast t w p) as Hlast.
  pose proof (iterationBody_returnsCleared t w p) as Hcleared.
  pose proof (iterationBody_continues t w p) as Hcontinues.
  revert Hresolves Hsame Hlast Hcleared Hcontinues.
  unfold runIteration, async, try_catch, mbind, M_bind, gets.
  rewrite Hp. simpl. unfold outcome, final, trace.
  destruct (iterationBody t w p) as [[[[]| |e] p1] tr1]; simpl.
  - intros _ Hsame Hlast _ Hcontinues.
    destruct Hsame as [Hflag _]; [done|]. rewrite Hp in Hflag.
    rewrite <- Hflag.
    specialize (Hcontinues tt eq_refl (eq_sym Hflag)).
    destruct Hlast as [Hnone|[Hone _]]; [lia|done].
  - intros _ _ Hlast Hcleared _. rewrite Hcleared by done.
    destruct Hlast as [->|[_ [a Ha]]]; done.
  - intros Hresolves Hsame Hlast _ _.
    destruct Hsame as [Hflag _]; [done|]. rewrite Hp in Hflag.
    destruct Hlast as [Hnone|[_ [a Ha]]]; [|done].
    pose proof (iterationHandler_ends t e w p1 (eq_sym Hflag)) as Hends.
    revert Hresolves Hends. unfold outcome, final, trace.
    destruct (iterationHandler t e w p1) as [[[[]| |e'] p2] tr2]; simpl;
      try done; rewrite scheduled_app, Hnone;
      intros _ [-> ->]; done.
Qed.

Lemma iteration_continues_iff_processing_witness :
  isProcessing (final (runIteration "T" chattyWorld startedProcessor)) = true
  <-> scheduled (trace (runIteration "T" chattyWorld startedProcessor)) = 1.
Proof. apply iteration_continues_iff_processing. vm_compute. reflexivity. Defined.

(** * What the model is sent *)

Ltac model_calls :=
  emits ltac:(intros; intros ? ? ? ? ? ?; simplify_eq; eauto).

Lemma consultModel_modelCalls t task m messages :
  emitsOnly (modelCallOn t messages) (consultModel t task m messages).
Proof.
  unfold consultModel.
  destruct (services (provider m)) as [service|];
    [|unfold tasks_update; model_calls].
  apply emitsOnly_bind.
  - unfold callModel, tasks_update.
    apply emitsOnly_try_catch; [|model_calls].
    apply emitsOnly_service_generateMessage. intros tag _.
    intros ? ? ? ? ? ?. simplify_eq. auto.
  - intros agentResponse. cbv zeta.
    destruct (_ =? _)%nat; [unfold tasks_update; model_calls|].
    apply emitsOnly_bind; [unfold messages_create; model_calls|intros _].
    apply emitsOnly_bind.
    + apply emitsOnly_when. unfold summarize.
      apply emitsOnly_try_catch; [|model_calls].
      apply emitsOnly_bind; [model_calls|intros ts].
      apply emitsOnly_bind;
        [|unfold summaries_create, messages_attachSummary; model_calls].
      apply emitsOnly_service_generateMessage. intros tag _.
      intros ? ? ? ? ? ?. simplify_eq. right. eauto.
    + intros _. unfold dispatch. apply emitsOnly_bind.
      * generalize ([] : list MessageContentBlock,
                    None : option MessageContentBlock).
        induction (contentBlocks agentResponse) as [|block rest IH];
          intros st; simpl.
        -- apply emitsOnly_mret.
        -- apply emitsOnly_bind; [|done].
           unfold dispatchBlock, dispatchComputerTool, dispatchCreateTask,
             tasks_update, tasks_create.
           model_calls.
      * intros st.
        unfold afterBlocks, applyTaskStatus, messages_create, tasks_update.
        model_calls.
Qed.

Lemma iterationBody_calls t w p e :
  In e (trace (iterationBody t w p)) ->
  In e [TasksFindById t; SummariesFindLatest t; MessagesFindUnsummarized t] \/
  exists task latestSummary unsummarizedMessages,
    In e (trace (consultModel t task (resolveModel (model task))
                   (assembleMessages (now w) t latestSummary
                      unsummarizedMessages
                      (default false (computerToolsDisabled p !! t)))
                   w (set_abortController newAbortController p))).
Proof.
  destruct (findById w t) as [task|err] eqn:Htask;
    [|unfold iterationBody, tasks_findById; run_monad; rewrite Htask; simpl;
      intros [<-|[]]; left; simpl; auto].
  destruct (isRunning (status task)) eqn:Hrunning;
    [|unfold iterationBody, tasks_findById; run_monad;
      rewrite Htask, Hrunning; simpl; intros [<-|[]]; left; simpl; auto].
  destruct (findLatest w t) as [latestSummary|err] eqn:Hlatest;
    [|unfold iterationBody, tasks_findById, summaries_findLatest; run_monad;
      rewrite Htask, Hrunning; simpl; rewrite Hlatest; simpl;
      intros [<-|[<-|[]]]; left; simpl; auto].
  destruct (findUnsummarized w t) as [unsummarizedMessages|err]
    eqn:Hunsummarized;
    [|unfold iterationBody, tasks_findById, summaries_findLatest,
        messages_findUnsummarized; run_monad;
      rewrite Htask, Hrunning; simpl; rewrite Hlatest; simpl;
      rewrite Hunsummarized; simpl;
      intros [<-|[<-|[<-|[]]]]; left; simpl; auto].
  rewrite (iterationBody_prelude t w p task latestSummary
             unsummarizedMessages) by (done || by destruct (status task)).
  unfold trace at 1. cbn [snd]. intros Hin.
  apply in_app_or in Hin as [Hin|Hin]; [by left|right]. eauto.
Qed.

(** X27: a task whose computer tools are disabled is told so in every
    provider call of its iterations.  The turn's call, made with tools,
    ends with the advisory message; the summarization call, made without
    tools, has only the instruction to summarize after it.  With the mark
    never being taken back, this holds for the rest of the processor's
    life. *)
Theorem degraded_task_is_told t w p tag sp msgs n tools
    (Hdisabled : computerToolsDisabled p !! t = Some true)
    (Hcall : In (GenerateMessage tag sp msgs n tools)
               (trace (runIteration t w p))) :
  exists front back,
    msgs = front ++ syntheticMessage (now w) t advisoryText :: back /\
    (tools = true -> back = []) /\
    (tools = false ->
     exists ts, back = [syntheticMessage ts t summarizeInstruction]).
Proof.
  destruct (isProcessing p) eqn:Hp;
    [|by rewrite runIteration_idle in Hcall].
  destruct (runIteration_trace_body t w p Hp) as (handled & Htrace & Hhandled).
  rewrite Htrace in Hcall. apply in_app_or in Hcall as [Hcall|Hcall];
    [|by destruct (in_handled (GenerateMessage tag sp msgs n tools) handled)].
  apply iterationBody_calls in Hcall
    as [Hcall|(task & latestSummary & unsummarizedMessages & Hcall)].
  { simpl in Hcall. by destruct Hcall as [?|[?|[?|[]]]]. }
  rewrite Hdisabled in Hcall. simpl in Hcall.
  pose proof (consultModel_modelCalls t task (resolveModel (model task))
                (assembleMessages (now w) t latestSummary
                   unsummarizedMessages true)
                w (set_abortController newAbortController p)) as Hall.
  rewrite Forall_forall in Hall.
  apply list_elem_of_In, Hall in Hcall.
  destruct (Hcall _ _ _ _ _ eq_refl)
    as [(-> & _ & ->)|(-> & _ & ts & ->)]; unfold assembleMessages.
  - exists (match latestSummary with
            | Some s => [syntheticMessage (now w) t (summary_content s)]
            | None => []
            end ++ unsummarizedMessages), [].
    split; [by rewrite <- app_assoc|]. split; [done|]. done.
  - exists (match latestSummary with
            | Some s => [syntheticMessage (now w) t (summary_content s)]
            | None => []
            end ++ unsummarizedMessages),
      [syntheticMessage ts t summarizeInstruction].
    split; [by rewrite <- !app_assoc|]. split; [done|]. eauto.
Qed.

Lemma degraded_task_is_told_witness :
  exists front back,
    [sampleMessage "m1" "T"; syntheticMessage 7 "T" advisoryText]
      = front ++ syntheticMessage (now chattyWorld) "T" advisoryText :: back /\
    (true = true -> back = []) /\
    (true = false ->
     exists ts, back = [syntheticMessage ts "T" summarizeInstruction]).
Proof.
  apply (degraded_task_is_told "T" chattyWorld resumedDegradedProcessor
           "openai" AGENT_SYSTEM_PROMPT _ "gpt-4.1-mini" true).
  - vm_compute. reflexivity.
  - vm_compute. do 3 right. left. reflexivity.
Defined.

(** * The model table and the processor *)

Lemma bareName_window rawModel n :
  bareName rawModel n -> contextWindow (resolveModel rawModel) = None.
Proof.
  intros [->|(obj & -> & Hp & Hn)]; [done|]. simpl. by rewrite Hp, Hn.
Qed.

Lemma default_window_threshold m response :
  contextWindow m = None ->
  shouldSummarize m response = true <-> (150000 <= totalTokens response)%Z.
Proof.
  intros Hnone. rewrite shouldSummarize_threshold.
  unfold contextWindowOrDefault. rewrite Hnone. lia.
Qed.

(** X28: the context window of a listed model reaches the processor only
    inside the persisted object.  A task that stores a model of the OpenAI
    table by its name alone, or no usable model at all (gpt-4.1-mini is
    then assumed), runs on the provider and the model of the table but
    without its context window: the default of 200000 applies, which is
    less than the table declares, and summarization starts at 150000
    tokens. *)
Theorem table_window_needs_object rawModel m response
    (Hlisted : In m OPENAI_MODELS)
    (Hname : bareName rawModel (name m) \/
             (~ usableModel rawModel /\ name m = "gpt-4.1-mini")) :
  provider (resolveModel rawModel) = provider m /\
  name (resolveModel rawModel) = name m /\
  contextWindow (resolveModel rawModel) = None /\
  (contextWindowOrDefault (resolveModel rawModel)
   < contextWindowOrDefault m)%Z /\
  (shouldSummarize (resolveModel rawModel) response = true <->
   (150000 <= totalTokens response)%Z).
Proof.
  assert (provider (resolveModel rawModel) = provider m /\
          name (resolveModel rawModel) = name m /\
          contextWindow (resolveModel rawModel) = None) as (Hp & Hn & Hw).
  { destruct Hname as [Hbare|[Hno Hmini]].
    - destruct (bareName_resolve _ _ Hbare) as [Hn Hp].
      split; [|by split; [|apply (bareName_window _ _ Hbare)]].
      rewrite Hp. by destruct Hlisted as [<-|[<-|[]]].
    - rewrite (unusable_resolve _ Hno), Hmini.
      by destruct Hlisted as [<-|[<-|[]]]. }
  split; [done|]. split; [done|]. split; [done|].
  split; [|by apply default_window_threshold].
  unfold contextWindowOrDefault at 1. rewrite Hw.
  by destruct Hlisted as [<-|[<-|[]]].
Qed.

Lemma table_window_needs_object_witness :
  contextWindow (resolveModel (JString "gpt-4.1")) = None /\
  (shouldSummarize (resolveModel (JString "gpt-4.1")) longAnswer = true <->
   (150000 <= totalTokens longAnswer)%Z).
Proof.
  destruct (table_window_needs_object (JString "gpt-4.1")
              {| provider := "openai"; name := "gpt-4.1"; title := "GPT-4.1";
                 contextWindow := Some 1000000%Z |} longAnswer)
    as (_ & _ & Hw & _ & Hs).
  - by left.
  - left. by left.
  - by split.
Defined.
